(** * SaveMetadataManager: a shallow embedding of src/save-metadata-manager.js

    The manager keeps one JSON record ([this.metadata]) describing the save
    files of a directory, persists it with a write-temp-then-rename protocol
    and validates / reconciles it against the directory.

    Modelling choices, all visible in the definitions below:
    - JS numbers are exact integers ([Z]); no floating-point rounding is
      modelled, so sizes, counters and timestamps are assumed to stay in the
      range where JS arithmetic is exact.
    - JS strings and file contents are byte strings ([string]).
    - The [saves] object is a finite map from filenames to entries: its own
      properties, with the enumeration order of [Object.keys] being the
      map's order.  A lookup [saves[name]] that finds no entry goes on to
      [Object.prototype]: for the names defined there ([inherited]) it finds
      a value that is no entry.  A state stands for a [saves] object whose
      prototype is [Object.prototype].  The one filename that does not fit
      is [__proto__]: an assignment to [saves['__proto__']] replaces the
      prototype instead of creating an entry, and [registerSaveFile] is
      written for the other filenames; [Plain] are the states no such call
      led to.
    - The save directory is flat: a node is addressed by its name inside
      [saveDirectory].
    - [async] methods run to completion, one after the other.
    - [Date.now()] and [new Date().toISOString()] are inputs of the methods
      that read the clock. *)

From Stdlib Require Import ZArith String Ascii List Decimal DecimalN DecimalPos Lia.
From stdpp Require Import gmap strings list.

Open Scope string_scope.
Open Scope Z_scope.

(** * crypto.createHash('sha256'): SHA-256 over byte strings (FIPS 180-4) *)

Module Sha256.

Definition w32 (x : Z) : Z := x mod 2 ^ 32.
Definition rotr (n x : Z) : Z :=
  Z.lor (Z.shiftr x n) (w32 (Z.shiftl x (32 - n))).
Definition shr (n x : Z) : Z := Z.shiftr x n.
Definition xor3 (a b c : Z) : Z := Z.lxor a (Z.lxor b c).

Definition Ch (x y z : Z) : Z :=
  Z.lxor (Z.land x y) (Z.land (Z.lxor x (2 ^ 32 - 1)) z).
Definition Maj (x y z : Z) : Z :=
  xor3 (Z.land x y) (Z.land x z) (Z.land y z).
Definition Sigma0 (x : Z) : Z := xor3 (rotr 2 x) (rotr 13 x) (rotr 22 x).
Definition Sigma1 (x : Z) : Z := xor3 (rotr 6 x) (rotr 11 x) (rotr 25 x).
Definition sigma0 (x : Z) : Z := xor3 (rotr 7 x) (rotr 18 x) (shr 3 x).
Definition sigma1 (x : Z) : Z := xor3 (rotr 17 x) (rotr 19 x) (shr 10 x).

(** The primes below 312: the first 64. *)
Definition is_prime (n : nat) : bool :=
  forallb (fun d => negb (Nat.eqb (n mod d) 0)) (seq 2 (n - 2)).

Definition primes : list Z :=
  map Z.of_nat (List.filter is_prime (seq 2 310)).

(** The integer cube root of [n], one bit after the other from bit [bits - 1]. *)
Fixpoint root3 (bits : nat) (n acc : Z) : Z :=
  match bits with
  | O => acc
  | S b =>
      let t := acc + 2 ^ Z.of_nat b in
      root3 b n (if t * t * t <=? n then t else acc)
  end.

(** The round constants: the first 32 bits of the fractional parts of the
    cube roots of the first 64 primes. *)
Definition K : list Z :=
  Eval vm_compute in map (fun p => w32 (root3 36 (p * 2 ^ 96) 0)) primes.

(** The initial hash value: the same bits of the square roots of the first
    8 primes. *)
Definition H0 : list Z :=
  Eval vm_compute in map (fun p => w32 (Z.sqrt (p * 2 ^ 64))) (firstn 8 primes).

Definition byte_of (c : ascii) : Z := Z.of_N (N_of_ascii c).

Fixpoint bytes_of (s : string) : list Z :=
  match s with
  | EmptyString => []
  | String c s' => byte_of c :: bytes_of s'
  end.

(** Big-endian encoding of [x] on [n] bytes. *)
Fixpoint be_bytes (n : nat) (x : Z) : list Z :=
  match n with
  | O => []
  | S n' => (Z.shiftr x (8 * Z.of_nat n')) mod 256 :: be_bytes n' x
  end.

(** The message followed by 0x80, zero bytes up to 56 mod 64, and the bit
    length on 8 bytes. *)
Definition pad (msg : list Z) : list Z :=
  let len := Z.of_nat (length msg) in
  let zeros := Z.to_nat ((55 - len) mod 64) in
  msg ++ 128 :: repeat 0 zeros ++ be_bytes 8 (8 * len).

Fixpoint words_of (fuel : nat) (bs : list Z) : list Z :=
  match fuel, bs with
  | S fuel', b0 :: b1 :: b2 :: b3 :: rest =>
      (b0 * 2 ^ 24 + b1 * 2 ^ 16 + b2 * 2 ^ 8 + b3) :: words_of fuel' rest
  | _, _ => []
  end.

(** The message schedule, most recent word first: [ws] holds W[t-1], W[t-2], ... *)
Fixpoint schedule (n : nat) (ws : list Z) : list Z :=
  match n with
  | O => ws
  | S n' =>
      let w := w32 (sigma1 (nth 1 ws 0) + nth 6 ws 0
                    + sigma0 (nth 14 ws 0) + nth 15 ws 0) in
      schedule n' (w :: ws)
  end.

Definition round (st : list Z) (kw : Z * Z) : list Z :=
  match st with
  | [a; b; c; d; e; f; g; h] =>
      let t1 := h + Sigma1 e + Ch e f g + fst kw + snd kw in
      let t2 := Sigma0 a + Maj a b c in
      [w32 (t1 + t2); a; b; c; w32 (d + t1); e; f; g]
  | _ => st
  end.

Definition compress (hs : list Z) (block : list Z) : list Z :=
  let ws := rev (schedule 48 (rev block)) in
  let st := fold_left round (combine K ws) hs in
  map (fun p => w32 (fst p + snd p)) (combine hs st).

Fixpoint blocks (fuel : nat) (ws : list Z) (hs : list Z) : list Z :=
  match fuel with
  | O => hs
  | S fuel' =>
      match ws with
      | [] => hs
      | _ => blocks fuel' (skipn 16 ws) (compress hs (firstn 16 ws))
      end
  end.

Definition hex_digit (d : Z) : ascii :=
  if d <? 10 then ascii_of_N (Z.to_N (48 + d)) else ascii_of_N (Z.to_N (87 + d)).

Fixpoint hex_of_bytes (bs : list Z) : string :=
  match bs with
  | [] => EmptyString
  | b :: bs' => String (hex_digit (b / 16)) (String (hex_digit (b mod 16)) (hex_of_bytes bs'))
  end.

(** [createHash('sha256').update(data).digest('hex')] *)
Definition digest_hex (data : string) : string :=
  let padded := pad (bytes_of data) in
  let ws := words_of (length padded) padded in
  let hs := blocks (length ws) ws H0 in
  hex_of_bytes (flat_map (be_bytes 4) hs).

End Sha256.

(** * JSON.stringify(value, null, 2) and JSON.parse

    Numbers are integer literals ([JNum]); a literal with a fraction or an
    exponent is kept as its text ([JNumLit]).  Strings are byte strings:
    bytes above 0x7f pass through, [\uXXXX] escapes are decoded to UTF-8. *)

Module JSON.

#[warnings="-register-all"]
Inductive json : Type :=
| JNull
| JBool (b : bool)
| JNum (n : Z)
| JNumLit (lit : string)
| JStr (s : string)
| JArr (xs : list json)
| JObj (ms : list (string * json)).

Definition dquote : ascii := "034"%char.
Definition bslash : ascii := "092"%char.
Definition newline : ascii := "010"%char.

(** ** Printing *)

Definition hex_char (n : N) : ascii :=
  if (n <? 10)%N then ascii_of_N (48 + n) else ascii_of_N (87 + n).

(** [QuoteJSONString]: the two-character escapes, [\u00xx] for the other
    control characters, every other byte as it is. *)
Definition escape_char (c : ascii) (k : string) : string :=
  let n := N_of_ascii c in
  if (n =? 34)%N then String bslash (String dquote k)
  else if (n =? 92)%N then String bslash (String bslash k)
  else if (n =? 8)%N then String bslash (String "b" k)
  else if (n =? 12)%N then String bslash (String "f" k)
  else if (n =? 10)%N then String bslash (String "n" k)
  else if (n =? 13)%N then String bslash (String "r" k)
  else if (n =? 9)%N then String bslash (String "t" k)
  else if (n <? 32)%N then
    String bslash (String "u" (String "0" (String "0"
      (String (hex_char (n / 16)) (String (hex_char (n mod 16)) k)))))
  else String c k.

Fixpoint escape (s : string) (k : string) : string :=
  match s with
  | EmptyString => k
  | String c s' => escape_char c (escape s' k)
  end.

Definition quote (s : string) (k : string) : string :=
  String dquote (escape s (String dquote k)).

Definition digit_char (d : N) : ascii := ascii_of_N (48 + d).

Fixpoint print_uint (u : uint) (k : string) : string :=
  match u with
  | Nil => k
  | D0 u' => String "0" (print_uint u' k)
  | D1 u' => String "1" (print_uint u' k)
  | D2 u' => String "2" (print_uint u' k)
  | D3 u' => String "3" (print_uint u' k)
  | D4 u' => String "4" (print_uint u' k)
  | D5 u' => String "5" (print_uint u' k)
  | D6 u' => String "6" (print_uint u' k)
  | D7 u' => String "7" (print_uint u' k)
  | D8 u' => String "8" (print_uint u' k)
  | D9 u' => String "9" (print_uint u' k)
  end.

Definition print_Z (z : Z) (k : string) : string :=
  match z with
  | Z0 => String "0" k
  | Zpos p => print_uint (Pos.to_uint p) k
  | Zneg p => String "-" (print_uint (Pos.to_uint p) k)
  end.

Fixpoint spaces (n : nat) (k : string) : string :=
  match n with
  | O => k
  | S n' => String " " (spaces n' k)
  end.

Definition break (ind : nat) (k : string) : string :=
  String newline (spaces ind k).

(** The elements of an array after the first, each behind a comma, then
    [close]; [pr] prints one element. *)
Definition print_elems (pr : json -> string -> string) (ind : nat) (close : string)
  : list json -> string :=
  fix go (l : list json) : string :=
    match l with
    | [] => close
    | y :: l' => String "," (break ind (pr y (go l')))
    end.

Definition print_member (pr : json -> string -> string) (key : string) (v : json)
    (k : string) : string :=
  quote key (String ":" (String " " (pr v k))).

Definition print_members (pr : json -> string -> string) (ind : nat) (close : string)
  : list (string * json) -> string :=
  fix go (l : list (string * json)) : string :=
    match l with
    | [] => close
    | (key, v) :: l' => String "," (break ind (print_member pr key v (go l')))
    end.

(** [print_to ind j k] is the text of [j] at indentation [ind], followed by [k]. *)
Fixpoint print_to (ind : nat) (j : json) (k : string) : string :=
  match j with
  | JNull => "null" +:+ k
  | JBool true => "true" +:+ k
  | JBool false => "false" +:+ k
  | JNum n => print_Z n k
  | JNumLit lit => lit +:+ k
  | JStr s => quote s k
  | JArr [] => "[]" +:+ k
  | JArr (x :: xs) =>
      String "[" (break (2 + ind) (print_to (2 + ind) x
        (print_elems (print_to (2 + ind)) (2 + ind) (break ind (String "]" k)) xs)))
  | JObj [] => "{}" +:+ k
  | JObj ((key, v) :: ms) =>
      String "{" (break (2 + ind) (print_member (print_to (2 + ind)) key v
        (print_members (print_to (2 + ind)) (2 + ind) (break ind (String "}" k)) ms)))
  end.

Definition stringify (j : json) : string := print_to 0 j "".

(** ** Parsing *)

Definition is_ws (c : ascii) : bool :=
  let n := N_of_ascii c in
  ((n =? 32) || (n =? 9) || (n =? 10) || (n =? 13))%N.

Fixpoint skip_ws (s : string) : string :=
  match s with
  | EmptyString => EmptyString
  | String c s' => if is_ws c then skip_ws s' else s
  end.

Fixpoint strip_prefix (p s : string) : option string :=
  match p, s with
  | EmptyString, _ => Some s
  | String a p', String b s' => if Ascii.eqb a b then strip_prefix p' s' else None
  | String _ _, EmptyString => None
  end.

Definition hex_val (c : ascii) : option N :=
  let n := N_of_ascii c in
  if ((48 <=? n) && (n <=? 57))%N then Some (n - 48)%N
  else if ((97 <=? n) && (n <=? 102))%N then Some (n - 87)%N
  else if ((65 <=? n) && (n <=? 70))%N then Some (n - 55)%N
  else None.

Definition hex4 (a b c d : ascii) : option N :=
  match hex_val a, hex_val b, hex_val c, hex_val d with
  | Some x, Some y, Some z, Some w => Some (((x * 16 + y) * 16 + z) * 16 + w)%N
  | _, _, _, _ => None
  end.

(** What a string literal denotes, one item per character or escape: a byte,
    or a UTF-16 code unit above 0x7f written as [\uXXXX]. *)
Inductive item : Type :=
| Raw (c : ascii)
| Unit16 (u : N).

Definition unescape (e : ascii) : option ascii :=
  let m := N_of_ascii e in
  if (m =? 34)%N then Some dquote
  else if (m =? 92)%N then Some bslash
  else if (m =? 47)%N then Some "/"%char
  else if (m =? 98)%N then Some "008"%char
  else if (m =? 102)%N then Some "012"%char
  else if (m =? 110)%N then Some "010"%char
  else if (m =? 114)%N then Some "013"%char
  else if (m =? 116)%N then Some "009"%char
  else None.

Definition cons_item (i : item) (r : option (list item * string)) : option (list item * string) :=
  match r with
  | Some (its, rest) => Some (i :: its, rest)
  | None => None
  end.

(** The characters of a string literal after its opening quote, up to and
    including the closing quote. *)
Fixpoint parse_items (s : string) : option (list item * string) :=
  match s with
  | EmptyString => None
  | String c r =>
      let n := N_of_ascii c in
      if (n =? 34)%N then Some ([], r)
      else if (n =? 92)%N then
        match r with
        | EmptyString => None
        | String e r1 =>
            match unescape e with
            | Some b => cons_item (Raw b) (parse_items r1)
            | None =>
                if (N_of_ascii e =? 117)%N then
                  match r1 with
                  | String h1 (String h2 (String h3 (String h4 r2))) =>
                      match hex4 h1 h2 h3 h4 with
                      | Some u =>
                          cons_item (if (u <? 128)%N then Raw (ascii_of_N u) else Unit16 u)
                                    (parse_items r2)
                      | None => None
                      end
                  | _ => None
                  end
                else None
            end
        end
      else if (n <? 32)%N then None
      else cons_item (Raw c) (parse_items r)
  end.

Definition byte (n : N) : ascii := ascii_of_N n.

(** UTF-8 encoding of a code point; a lone surrogate is written as U+FFFD. *)
Definition utf8 (cp : N) (k : string) : string :=
  if (cp <? 128)%N then String (byte cp) k
  else if (cp <? 2048)%N then
    String (byte (192 + cp / 64)) (String (byte (128 + cp mod 64)) k)
  else if (cp <? 65536)%N then
    String (byte (224 + cp / 4096))
      (String (byte (128 + (cp / 64) mod 64)) (String (byte (128 + cp mod 64)) k))
  else
    String (byte (240 + cp / 262144))
      (String (byte (128 + (cp / 4096) mod 64))
         (String (byte (128 + (cp / 64) mod 64)) (String (byte (128 + cp mod 64)) k))).

Definition is_high (u : N) : bool := ((55296 <=? u) && (u <? 56320))%N.
Definition is_low (u : N) : bool := ((56320 <=? u) && (u <? 57344))%N.

Fixpoint bytes_of_items (its : list item) : string :=
  match its with
  | [] => EmptyString
  | Raw c :: is' => String c (bytes_of_items is')
  | Unit16 u :: is' =>
      if is_high u then
        match is' with
        | Unit16 l :: is'' =>
            if is_low l
            then utf8 (65536 + (u - 55296) * 1024 + (l - 56320))%N (bytes_of_items is'')
            else utf8 65533 (bytes_of_items is')
        | _ => utf8 65533 (bytes_of_items is')
        end
      else if is_low u then utf8 65533 (bytes_of_items is')
      else utf8 u (bytes_of_items is')
  end.

Definition parse_string (s : string) : option (string * string) :=
  match parse_items s with
  | Some (its, rest) => Some (bytes_of_items its, rest)
  | None => None
  end.

Definition digit_of (c : ascii) : option (uint -> uint) :=
  let n := N_of_ascii c in
  if (n =? 48)%N then Some D0 else if (n =? 49)%N then Some D1
  else if (n =? 50)%N then Some D2 else if (n =? 51)%N then Some D3
  else if (n =? 52)%N then Some D4 else if (n =? 53)%N then Some D5
  else if (n =? 54)%N then Some D6 else if (n =? 55)%N then Some D7
  else if (n =? 56)%N then Some D8 else if (n =? 57)%N then Some D9
  else None.

Fixpoint scan_digits (s : string) : uint * string :=
  match s with
  | EmptyString => (Nil, EmptyString)
  | String c r =>
      match digit_of c with
      | Some d => let '(u, r') := scan_digits r in (d u, r')
      | None => (Nil, s)
      end
  end.

Definition is_nil (u : uint) : bool :=
  match u with Nil => true | _ => false end.

(** The optional fraction: [None] on a dot without digits. *)
Definition scan_frac (s : string) : option (bool * string) :=
  match s with
  | String c r =>
      if Ascii.eqb c "." then
        let '(f, r') := scan_digits r in
        if is_nil f then None else Some (true, r')
      else Some (false, s)
  | EmptyString => Some (false, s)
  end.

Definition scan_exp (s : string) : option (bool * string) :=
  match s with
  | String c r =>
      if (Ascii.eqb c "e" || Ascii.eqb c "E")%bool then
        let r1 := match r with
                  | String sg r' =>
                      if (Ascii.eqb sg "+" || Ascii.eqb sg "-")%bool then r' else r
                  | EmptyString => r
                  end in
        let '(e, r2) := scan_digits r1 in
        if is_nil e then None else Some (true, r2)
      else Some (false, s)
  | EmptyString => Some (false, s)
  end.

Definition parse_number (s : string) : option (json * string) :=
  let '(neg, s1) := match s with
                    | String c r => if Ascii.eqb c "-" then (true, r) else (false, s)
                    | EmptyString => (false, s)
                    end in
  let '(u, s2) := scan_digits s1 in
  if uint_beq (unorm u) u then
    match scan_frac s2 with
    | Some (frac, s3) =>
        match scan_exp s3 with
        | Some (ex, s4) =>
            if (frac || ex)%bool
            then Some (JNumLit (substring 0 (String.length s - String.length s4) s), s4)
            else let n := Z.of_N (N.of_uint u) in
                 Some (JNum (if neg then - n else n), s4)
        | None => None
        end
    | None => None
    end
  else None.

Definition cons_fst {A} (x : A) (r : option (list A * string)) : option (list A * string) :=
  match r with
  | Some (xs, rest) => Some (x :: xs, rest)
  | None => None
  end.

Fixpoint parse_value (fuel : nat) (s : string) : option (json * string) :=
  match fuel with
  | O => None
  | S fuel' =>
      match skip_ws s with
      | EmptyString => None
      | String c r =>
          if Ascii.eqb c "{" then
            match skip_ws r with
            | String c' r' =>
                if Ascii.eqb c' "}" then Some (JObj [], r')
                else match parse_members fuel' r with
                     | Some (ms, r'') => Some (JObj ms, r'')
                     | None => None
                     end
            | EmptyString => None
            end
          else if Ascii.eqb c "[" then
            match skip_ws r with
            | String c' r' =>
                if Ascii.eqb c' "]" then Some (JArr [], r')
                else match parse_elements fuel' r with
                     | Some (xs, r'') => Some (JArr xs, r'')
                     | None => None
                     end
            | EmptyString => None
            end
          else if Ascii.eqb c dquote then
            match parse_string r with
            | Some (str, r') => Some (JStr str, r')
            | None => None
            end
          else if Ascii.eqb c "n" then
            match strip_prefix "ull" r with Some r' => Some (JNull, r') | None => None end
          else if Ascii.eqb c "t" then
            match strip_prefix "rue" r with Some r' => Some (JBool true, r') | None => None end
          else if Ascii.eqb c "f" then
            match strip_prefix "alse" r with Some r' => Some (JBool false, r') | None => None end
          else parse_number (String c r)
      end
  end
with parse_elements (fuel : nat) (s : string) : option (list json * string) :=
  match fuel with
  | O => None
  | S fuel' =>
      match parse_value fuel' s with
      | Some (v, r) =>
          match skip_ws r with
          | String c r' =>
              if Ascii.eqb c "," then cons_fst v (parse_elements fuel' r')
              else if Ascii.eqb c "]" then Some ([v], r')
              else None
          | EmptyString => None
          end
      | None => None
      end
  end
with parse_members (fuel : nat) (s : string) : option (list (string * json) * string) :=
  match fuel with
  | O => None
  | S fuel' =>
      match skip_ws s with
      | String q r =>
          if Ascii.eqb q dquote then
            match parse_string r with
            | Some (key, r1) =>
                match skip_ws r1 with
                | String c r2 =>
                    if Ascii.eqb c ":" then
                      match parse_value fuel' r2 with
                      | Some (v, r3) =>
                          match skip_ws r3 with
                          | String c' r4 =>
                              if Ascii.eqb c' "," then cons_fst (key, v) (parse_members fuel' r4)
                              else if Ascii.eqb c' "}" then Some ([(key, v)], r4)
                              else None
                          | EmptyString => None
                          end
                      | None => None
                      end
                    else None
                | EmptyString => None
                end
            | None => None
            end
          else None
      | EmptyString => None
      end
  end.

(** [JSON.parse]: one value, then only white space; [None] is a SyntaxError. *)
Definition parse (s : string) : option json :=
  match parse_value (2 * String.length s + 2) s with
  | Some (v, r) =>
      match skip_ws r with
      | EmptyString => Some v
      | String _ _ => None
      end
  | None => None
  end.

(** Property lookup on a parsed object: the last member of that name wins. *)
Fixpoint get (key : string) (ms : list (string * json)) : option json :=
  match ms with
  | [] => None
  | (k, v) :: ms' =>
      match get key ms' with
      | Some v' => Some v'
      | None => if String.eqb k key then Some v else None
      end
  end.

End JSON.

(** * Errors, results and the file system *)

Inductive Errno : Type :=
| ENOENT | EACCES | EISDIR | ENOTDIR | ENOSPC | EIO.

Definition errno_name (e : Errno) : string :=
  match e with
  | ENOENT => "ENOENT" | EACCES => "EACCES" | EISDIR => "EISDIR"
  | ENOTDIR => "ENOTDIR" | ENOSPC => "ENOSPC" | EIO => "EIO"
  end.

Definition errno_text (e : Errno) : string :=
  match e with
  | ENOENT => "no such file or directory"
  | EACCES => "permission denied"
  | EISDIR => "illegal operation on a directory"
  | ENOTDIR => "not a directory"
  | ENOSPC => "no space left on device"
  | EIO => "i/o error"
  end.

(** The values a [catch] clause can receive: a Node system error (it has a
    [code]), a [SyntaxError] of [JSON.parse], or a plain [Error]. *)
Inductive JsError : Type :=
| SystemError (code : Errno) (syscall : string) (path : string) (dest : option string)
| SyntaxError (msg : string)
| Error (msg : string).

Definition squote (p : string) : string := "'" +:+ p +:+ "'".

Definition message (e : JsError) : string :=
  match e with
  | SystemError c sc p d =>
      errno_name c +:+ ": " +:+ errno_text c +:+ ", " +:+ sc +:+ " " +:+ squote p
        +:+ match d with Some q => " -> " +:+ squote q | None => "" end
  | SyntaxError msg => msg
  | Error msg => msg
  end.

Definition code (e : JsError) : option string :=
  match e with
  | SystemError c _ _ _ => Some (errno_name c)
  | _ => None
  end.

Definition isSyntaxError (e : JsError) : bool :=
  match e with SyntaxError _ => true | _ => false end.

(** The outcome of a call: a value, a thrown error, or [Unmodelled] when the
    call left the typed model (a parseable metadata file whose shape is not
    the record's). *)
Inductive Res (A : Type) : Type :=
| Ok (a : A)
| Throw (e : JsError)
| Unmodelled.
Arguments Ok {A} a.
Arguments Throw {A} e.
Arguments Unmodelled {A}.

Inductive Node : Type :=
| File (data : string)
| Directory.

(** The [fs.promises] calls the manager makes, on names inside the save
    directory. *)
Inductive FsCall : Type :=
| Access (p : string)
| ReadFile (p : string)
| WriteFile (p : string)
| Rename (p q : string)
| CopyFile (p q : string)
| Readdir.

#[global] Instance FsCall_eq_dec : EqDecision FsCall.
Proof. solve_decision. Defined.

(** The directory: its nodes, and the calls that fail for a reason outside
    the nodes (permissions, full disk, device error). *)
Record Disk : Type := {
  nodes : gmap string Node;
  faults : list (FsCall * Errno)
}.

Fixpoint fault_of (fs : list (FsCall * Errno)) (c : FsCall) : option Errno :=
  match fs with
  | [] => None
  | (c', e) :: fs' => if decide (c' = c) then Some e else fault_of fs' c
  end.

Definition with_nodes (d : Disk) (n : gmap string Node) : Disk :=
  {| nodes := n; faults := faults d |}.

(** * The metadata record *)

Module Entry.
Record t : Type := {
  filename : string;
  checksum : string;
  size : Z;
  created : Z;
  lastModified : Z;
  isBackup : bool;
  saveCount : Z;
  gameVersion : string;
  playerLevel : Z;
  lastAccessed : option Z
}.
Definition set_lastAccessed (e : t) (ts : Z) : t :=
  {| filename := filename e; checksum := checksum e; size := size e;
     created := created e; lastModified := lastModified e; isBackup := isBackup e;
     saveCount := saveCount e; gameVersion := gameVersion e;
     playerLevel := playerLevel e; lastAccessed := Some ts |}.
End Entry.

Record Statistics : Type := {
  totalSaveOperations : Z;
  totalLoadOperations : Z;
  lastSuccessfulSave : option Z;
  lastSuccessfulLoad : option Z;
  averageSaveSize : Z;
  totalDiskUsage : Z
}.

Record Metadata : Type := {
  version : string;
  lastSave : option Z;
  autoSaveEnabled : bool;
  autoSaveInterval : Z;
  backupCount : Z;
  totalSaves : Z;
  migrationCompleted : bool;
  saves : gmap string Entry.t;
  statistics : Statistics
}.

Definition defaultStatistics : Statistics :=
  {| totalSaveOperations := 0; totalLoadOperations := 0;
     lastSuccessfulSave := None; lastSuccessfulLoad := None;
     averageSaveSize := 0; totalDiskUsage := 0 |}.

(** The record the constructor assigns to [this.metadata]. *)
Definition defaultMetadata : Metadata :=
  {| version := "1.0.0"; lastSave := None; autoSaveEnabled := true;
     autoSaveInterval := 30000; backupCount := 10; totalSaves := 0;
     migrationCompleted := false; saves := ∅; statistics := defaultStatistics |}.

Definition set_saves (m : Metadata) (s : gmap string Entry.t) : Metadata :=
  {| version := version m; lastSave := lastSave m; autoSaveEnabled := autoSaveEnabled m;
     autoSaveInterval := autoSaveInterval m; backupCount := backupCount m;
     totalSaves := totalSaves m; migrationCompleted := migrationCompleted m;
     saves := s; statistics := statistics m |}.

Definition set_statistics (m : Metadata) (st : Statistics) : Metadata :=
  {| version := version m; lastSave := lastSave m; autoSaveEnabled := autoSaveEnabled m;
     autoSaveInterval := autoSaveInterval m; backupCount := backupCount m;
     totalSaves := totalSaves m; migrationCompleted := migrationCompleted m;
     saves := saves m; statistics := st |}.

Definition set_lastSave (m : Metadata) (ts : Z) : Metadata :=
  {| version := version m; lastSave := Some ts; autoSaveEnabled := autoSaveEnabled m;
     autoSaveInterval := autoSaveInterval m; backupCount := backupCount m;
     totalSaves := totalSaves m; migrationCompleted := migrationCompleted m;
     saves := saves m; statistics := statistics m |}.

Definition set_totalSaves (m : Metadata) (n : Z) : Metadata :=
  {| version := version m; lastSave := lastSave m; autoSaveEnabled := autoSaveEnabled m;
     autoSaveInterval := autoSaveInterval m; backupCount := backupCount m;
     totalSaves := n; migrationCompleted := migrationCompleted m;
     saves := saves m; statistics := statistics m |}.

Definition set_autoSaveEnabled (m : Metadata) (b : bool) : Metadata :=
  {| version := version m; lastSave := lastSave m; autoSaveEnabled := b;
     autoSaveInterval := autoSaveInterval m; backupCount := backupCount m;
     totalSaves := totalSaves m; migrationCompleted := migrationCompleted m;
     saves := saves m; statistics := statistics m |}.

Definition set_autoSaveInterval (m : Metadata) (n : Z) : Metadata :=
  {| version := version m; lastSave := lastSave m; autoSaveEnabled := autoSaveEnabled m;
     autoSaveInterval := n; backupCount := backupCount m;
     totalSaves := totalSaves m; migrationCompleted := migrationCompleted m;
     saves := saves m; statistics := statistics m |}.

Definition set_backupCount (m : Metadata) (n : Z) : Metadata :=
  {| version := version m; lastSave := lastSave m; autoSaveEnabled := autoSaveEnabled m;
     autoSaveInterval := autoSaveInterval m; backupCount := n;
     totalSaves := totalSaves m; migrationCompleted := migrationCompleted m;
     saves := saves m; statistics := statistics m |}.

Definition set_migrationCompleted (m : Metadata) (b : bool) : Metadata :=
  {| version := version m; lastSave := lastSave m; autoSaveEnabled := autoSaveEnabled m;
     autoSaveInterval := autoSaveInterval m; backupCount := backupCount m;
     totalSaves := totalSaves m; migrationCompleted := b;
     saves := saves m; statistics := statistics m |}.

Definition set_saveOps (st : Statistics) (n : Z) (ts : option Z) : Statistics :=
  {| totalSaveOperations := n; totalLoadOperations := totalLoadOperations st;
     lastSuccessfulSave := ts; lastSuccessfulLoad := lastSuccessfulLoad st;
     averageSaveSize := averageSaveSize st; totalDiskUsage := totalDiskUsage st |}.

Definition set_loadOps (st : Statistics) (n : Z) (ts : option Z) : Statistics :=
  {| totalSaveOperations := totalSaveOperations st; totalLoadOperations := n;
     lastSuccessfulSave := lastSuccessfulSave st; lastSuccessfulLoad := ts;
     averageSaveSize := averageSaveSize st; totalDiskUsage := totalDiskUsage st |}.

Definition set_sizes (st : Statistics) (avg total : Z) : Statistics :=
  {| totalSaveOperations := totalSaveOperations st;
     totalLoadOperations := totalLoadOperations st;
     lastSuccessfulSave := lastSuccessfulSave st;
     lastSuccessfulLoad := lastSuccessfulLoad st;
     averageSaveSize := avg; totalDiskUsage := total |}.

(** ** The record as a JSON document *)

Import JSON.

Definition jopt (o : option Z) : json :=
  match o with Some n => JNum n | None => JNull end.

Definition entryJson (e : Entry.t) : json :=
  JObj ([ ("filename", JStr (Entry.filename e));
          ("checksum", JStr (Entry.checksum e));
          ("size", JNum (Entry.size e));
          ("created", JNum (Entry.created e));
          ("lastModified", JNum (Entry.lastModified e));
          ("isBackup", JBool (Entry.isBackup e));
          ("saveCount", JNum (Entry.saveCount e));
          ("gameVersion", JStr (Entry.gameVersion e));
          ("playerLevel", JNum (Entry.playerLevel e)) ]
        ++ match Entry.lastAccessed e with
           | Some ts => [("lastAccessed", JNum ts)]
           | None => []
           end).

Definition statisticsJson (st : Statistics) : json :=
  JObj [ ("totalSaveOperations", JNum (totalSaveOperations st));
         ("totalLoadOperations", JNum (totalLoadOperations st));
         ("lastSuccessfulSave", jopt (lastSuccessfulSave st));
         ("lastSuccessfulLoad", jopt (lastSuccessfulLoad st));
         ("averageSaveSize", JNum (averageSaveSize st));
         ("totalDiskUsage", JNum (totalDiskUsage st)) ].

Definition savesJson (s : gmap string Entry.t) : json :=
  JObj (map (fun kv => (fst kv, entryJson (snd kv))) (map_to_list s)).

Definition toJson (m : Metadata) : json :=
  JObj [ ("version", JStr (version m));
         ("lastSave", jopt (lastSave m));
         ("autoSaveEnabled", JBool (autoSaveEnabled m));
         ("autoSaveInterval", JNum (autoSaveInterval m));
         ("backupCount", JNum (backupCount m));
         ("totalSaves", JNum (totalSaves m));
         ("migrationCompleted", JBool (migrationCompleted m));
         ("saves", savesJson (saves m));
         ("statistics", statisticsJson (statistics m)) ].

(** ** Reading a parsed document back into the record

    [None] everywhere means: the value is not of the field's type, which a
    typed record cannot hold. *)

Definition asNum (j : json) : option Z :=
  match j with JNum n => Some n | _ => None end.
Definition asOptNum (j : json) : option (option Z) :=
  match j with JNum n => Some (Some n) | JNull => Some None | _ => None end.
Definition asBool (j : json) : option bool :=
  match j with JBool b => Some b | _ => None end.
Definition asStr (j : json) : option string :=
  match j with JStr s => Some s | _ => None end.

(** Falsy values, as [!value] sees them. *)
Definition falsy (j : json) : bool :=
  match j with
  | JNull | JBool false | JNum 0 | JStr EmptyString => true
  | _ => false
  end.

Definition known (keys : list string) (ms : list (string * json)) : bool :=
  forallb (fun kv => existsb (String.eqb (fst kv)) keys) ms.

(** A required property. *)
Definition req {A} (dec : json -> option A) (key : string) (ms : list (string * json)) : option A :=
  match get key ms with Some v => dec v | None => None end.

(** A property that keeps the value [d] it had when the document lacks it. *)
Definition over {A} (dec : json -> option A) (key : string) (ms : list (string * json)) (d : A) : option A :=
  match get key ms with Some v => dec v | None => Some d end.

Definition entryKeys : list string :=
  [ "filename"; "checksum"; "size"; "created"; "lastModified"; "isBackup";
    "saveCount"; "gameVersion"; "playerLevel"; "lastAccessed" ].

Definition entryOfJson (j : json) : option Entry.t :=
  match j with
  | JObj ms =>
      if known entryKeys ms then
        match req asStr "filename" ms, req asStr "checksum" ms, req asNum "size" ms,
              req asNum "created" ms, req asNum "lastModified" ms,
              req asBool "isBackup" ms, req asNum "saveCount" ms,
              req asStr "gameVersion" ms, req asNum "playerLevel" ms,
              match get "lastAccessed" ms with
              | Some v => match asNum v with Some n => Some (Some n) | None => None end
              | None => Some None
              end
        with
        | Some f, Some c, Some sz, Some cr, Some lm, Some ib, Some sc, Some gv, Some pl, Some la =>
            Some {| Entry.filename := f; Entry.checksum := c; Entry.size := sz;
                    Entry.created := cr; Entry.lastModified := lm; Entry.isBackup := ib;
                    Entry.saveCount := sc; Entry.gameVersion := gv;
                    Entry.playerLevel := pl; Entry.lastAccessed := la |}
        | _, _, _, _, _, _, _, _, _, _ => None
        end
      else None
  | _ => None
  end.

Fixpoint savesOfMembers (ms : list (string * json)) (acc : gmap string Entry.t)
  : option (gmap string Entry.t) :=
  match ms with
  | [] => Some acc
  | (k, v) :: ms' =>
      match entryOfJson v with
      | Some e => savesOfMembers ms' (<[k := e]> acc)
      | None => None
      end
  end.

(** [saves] after the merge and [if (!this.metadata.saves) this.metadata.saves = {}]. *)
Definition savesOfJson (j : json) : option (gmap string Entry.t) :=
  match j with
  | JObj ms => savesOfMembers ms ∅
  | _ => if falsy j then Some ∅ else None
  end.

Definition statisticsKeys : list string :=
  [ "totalSaveOperations"; "totalLoadOperations"; "lastSuccessfulSave";
    "lastSuccessfulLoad"; "averageSaveSize"; "totalDiskUsage" ].

(** [statistics] after the merge (which replaces the whole object) and the
    check that re-creates it when falsy. *)
Definition statisticsOfJson (j : json) : option Statistics :=
  match j with
  | JObj ms =>
      if known statisticsKeys ms then
        match req asNum "totalSaveOperations" ms, req asNum "totalLoadOperations" ms,
              req asOptNum "lastSuccessfulSave" ms, req asOptNum "lastSuccessfulLoad" ms,
              req asNum "averageSaveSize" ms, req asNum "totalDiskUsage" ms
        with
        | Some so, Some lo, Some ls, Some ll, Some av, Some td =>
            Some {| totalSaveOperations := so; totalLoadOperations := lo;
                    lastSuccessfulSave := ls; lastSuccessfulLoad := ll;
                    averageSaveSize := av; totalDiskUsage := td |}
        | _, _, _, _, _, _ => None
        end
      else None
  | _ => if falsy j then Some defaultStatistics else None
  end.

Definition metadataKeys : list string :=
  [ "version"; "lastSave"; "autoSaveEnabled"; "autoSaveInterval"; "backupCount";
    "totalSaves"; "migrationCompleted"; "saves"; "statistics" ].

(** [{ ...this.metadata, ...loadedMetadata }] followed by the two checks on
    the nested objects, for [this.metadata = m].  Spreading a primitive, an
    empty string or an empty array adds no property. *)
Definition merge (m : Metadata) (loaded : json) : option Metadata :=
  match loaded with
  | JObj ms =>
      if known metadataKeys ms then
        match over asStr "version" ms (version m),
              over asOptNum "lastSave" ms (lastSave m),
              over asBool "autoSaveEnabled" ms (autoSaveEnabled m),
              over asNum "autoSaveInterval" ms (autoSaveInterval m),
              over asNum "backupCount" ms (backupCount m),
              over asNum "totalSaves" ms (totalSaves m),
              over asBool "migrationCompleted" ms (migrationCompleted m),
              over savesOfJson "saves" ms (saves m),
              over statisticsOfJson "statistics" ms (statistics m)
        with
        | Some v, Some ls, Some ae, Some ai, Some bc, Some ts, Some mc, Some sv, Some st =>
            Some {| version := v; lastSave := ls; autoSaveEnabled := ae;
                    autoSaveInterval := ai; backupCount := bc; totalSaves := ts;
                    migrationCompleted := mc; saves := sv; statistics := st |}
        | _, _, _, _, _, _, _, _, _ => None
        end
      else None
  | JNull | JBool _ | JNum _ | JNumLit _ | JStr EmptyString | JArr [] => Some m
  | _ => None
  end.

(** * The manager: [this] and the world it runs in *)

Inductive Level : Type := LOG | WARN | ERROR.

(** [journal] lists the file-system calls issued and [console] the lines
    printed, both most recent first. *)
Record Manager : Type := {
  saveDirectory : string;
  metadata : Metadata;
  disk : Disk;
  journal : list FsCall;
  console : list (Level * string)
}.

Definition M (A : Type) : Type := Manager -> Res A * Manager.

Definition ret {A} (a : A) : M A := fun st => (Ok a, st).
Definition throw {A} (e : JsError) : M A := fun st => (Throw e, st).
Definition unmodelled {A} : M A := fun st => (Unmodelled, st).

Definition bind {A B} (m : M A) (k : A -> M B) : M B :=
  fun st =>
    match m st with
    | (Ok a, st') => k a st'
    | (Throw e, st') => (Throw e, st')
    | (Unmodelled, st') => (Unmodelled, st')
    end.

(** [try { body } catch (error) { handler }] *)
Definition try_catch {A} (body : M A) (handler : JsError -> M A) : M A :=
  fun st =>
    match body st with
    | (Throw e, st') => handler e st'
    | r => r
    end.

Notation "'const' x ':=' 'await' m ';' k" := (bind m (fun x => k))
  (at level 10, x name, m at level 100, k at level 200).
Notation "'await' m ';' k" := (bind m (fun _ => k))
  (at level 10, m at level 100, k at level 200).

Definition this_metadata : M Metadata := fun st => (Ok (metadata st), st).
Definition this_saveDirectory : M string := fun st => (Ok (saveDirectory st), st).

Definition with_metadata (st : Manager) (m : Metadata) : Manager :=
  {| saveDirectory := saveDirectory st; metadata := m;
     disk := disk st; journal := journal st; console := console st |}.

Definition with_disk (st : Manager) (d : Disk) : Manager :=
  {| saveDirectory := saveDirectory st; metadata := metadata st;
     disk := d; journal := journal st; console := console st |}.

Definition journalled (st : Manager) (c : FsCall) : Manager :=
  {| saveDirectory := saveDirectory st; metadata := metadata st;
     disk := disk st; journal := c :: journal st; console := console st |}.

Definition printed (st : Manager) (l : Level) (line : string) : Manager :=
  {| saveDirectory := saveDirectory st; metadata := metadata st;
     disk := disk st; journal := journal st; console := (l, line) :: console st |}.

Definition set_metadata (m : Metadata) : M unit :=
  fun st => (Ok tt, with_metadata st m).

Definition update_metadata (f : Metadata -> Metadata) : M unit :=
  const m := await this_metadata; set_metadata (f m).

Definition print (l : Level) (line : string) : M unit :=
  fun st => (Ok tt, printed st l line).

Definition console_log := print LOG.
Definition console_warn := print WARN.
Definition console_error := print ERROR.

(** [path.join(this.saveDirectory, name)] *)
Definition path_join (dir name : string) : string := dir +:+ "/" +:+ name.

(** One file-system call: it is journalled, fails with its fault if it has
    one, and otherwise acts on the nodes as [act] says. *)
Definition fs_call {A} (c : FsCall) (syscall : string) (p q : option string)
    (act : gmap string Node -> Errno + (A * gmap string Node)) : M A :=
  fun st =>
    let dir := saveDirectory st in
    let fail e :=
      (Throw (SystemError e syscall (default dir (path_join dir <$> p)) (path_join dir <$> q)),
       journalled st c) in
    match fault_of (faults (disk st)) c with
    | Some e => fail e
    | None =>
        match act (nodes (disk st)) with
        | inl e => fail e
        | inr (a, n) => (Ok a, journalled (with_disk st (with_nodes (disk st) n)) c)
        end
    end.

Definition fs_access (p : string) : M unit :=
  fs_call (Access p) "access" (Some p) None
    (fun n => match n !! p with
              | Some _ => inr (tt, n)
              | None => inl ENOENT
              end).

Definition fs_readFile (p : string) : M string :=
  fs_call (ReadFile p) "open" (Some p) None
    (fun n => match n !! p with
              | Some (File data) => inr (data, n)
              | Some Directory => inl EISDIR
              | None => inl ENOENT
              end).

Definition fs_writeFile (p : string) (data : string) : M unit :=
  fs_call (WriteFile p) "open" (Some p) None
    (fun n => match n !! p with
              | Some Directory => inl EISDIR
              | _ => inr (tt, <[p := File data]> n)
              end).

Definition fs_rename (p q : string) : M unit :=
  fs_call (Rename p q) "rename" (Some p) (Some q)
    (fun n => match n !! p, n !! q with
              | None, _ => inl ENOENT
              | Some (File _), Some Directory => inl EISDIR
              | Some Directory, Some (File _) => inl ENOTDIR
              | Some x, _ => inr (tt, <[q := x]> (delete p n))
              end).

Definition fs_copyFile (p q : string) : M unit :=
  fs_call (CopyFile p q) "copyfile" (Some p) (Some q)
    (fun n => match n !! p, n !! q with
              | None, _ => inl ENOENT
              | Some Directory, _ => inl EISDIR
              | Some (File _), Some Directory => inl EISDIR
              | Some (File data), _ => inr (tt, <[q := File data]> n)
              end).

Definition fs_readdir : M (list string) :=
  fs_call Readdir "scandir" None None
    (fun n => inr (map fst (map_to_list n), n)).

(** ** String helpers of the JS runtime *)

(** [s.includes(sub)] *)
Fixpoint includes (s sub : string) : bool :=
  if String.prefix sub s then true
  else match s with
       | EmptyString => false
       | String _ s' => includes s' sub
       end.

(** [s.replace(/[:.]/g, '-')] *)
Fixpoint replace_colons_dots (s : string) : string :=
  match s with
  | EmptyString => EmptyString
  | String c s' =>
      String (if (Ascii.eqb c ":" || Ascii.eqb c ".")%bool then "-"%char else c)
             (replace_colons_dots s')
  end.

(** [a || b] on a possibly undefined number: 0 and undefined are falsy. *)
Definition num_or (a : option Z) (b : Z) : Z :=
  match a with
  | Some n => if n =? 0 then b else n
  | None => b
  end.

(** [a || b] on a possibly undefined string: the empty string is falsy. *)
Definition str_or (a : option string) (b : string) : string :=
  match a with
  | Some EmptyString | None => b
  | Some s => s
  end.

(** A number inside a template literal. *)
Definition number_text (n : Z) : string := JSON.print_Z n "".

(** [Math.round(t / n)] for [n > 0]: the nearest integer, halves upwards.
    The quotient here is the exact one.  The runtime's is a double: it
    rounds to the same integer as long as [0 <= t] and [t + n < 2^52], and
    may round a quotient just below a half-integer upwards beyond that. *)
Definition math_round_div (t n : Z) : Z := (2 * t + n) / (2 * n).

(** [existingFiles.includes(filename)] on an array of names. *)
Definition array_includes (xs : list string) (x : string) : bool :=
  existsb (String.eqb x) xs.

(** ** Property lookup on the [saves] object *)

(** The property names of [Object.prototype]. *)
Definition object_prototype_names : list string :=
  [ "constructor"; "hasOwnProperty"; "isPrototypeOf"; "propertyIsEnumerable";
    "toLocaleString"; "toString"; "valueOf"; "__proto__";
    "__defineGetter__"; "__defineSetter__"; "__lookupGetter__"; "__lookupSetter__" ].

(** [name in {}]: every plain object answers a lookup of [name]. *)
Definition inherited (name : string) : bool :=
  array_includes object_prototype_names name.

(** What a lookup [this.metadata.saves[filename]] finds: the entry of that
    name or, for a name without an entry, the value [Object.prototype] has
    under it (a function, or the prototype of [saves] for [__proto__]).  An
    inherited value is truthy and has none of the properties of an entry. *)
Inductive Property : Type :=
| Own (entry : Entry.t)
| Inherited.

(** [None] is [undefined]. *)
Definition saves_get (m : Metadata) (filename : string) : option Property :=
  match saves m !! filename with
  | Some entry => Some (Own entry)
  | None => if inherited filename then Some Inherited else None
  end.

(** [storedMetadata.checksum] and [storedMetadata.lastModified]. *)
Definition stored_checksum (storedMetadata : Property) : option string :=
  match storedMetadata with
  | Own entry => Some (Entry.checksum entry)
  | Inherited => None
  end.

Definition stored_lastModified (storedMetadata : Property) : option Z :=
  match storedMetadata with
  | Own entry => Some (Entry.lastModified entry)
  | Inherited => None
  end.

(** [a === b] for a string [a] and a possibly undefined string [b]. *)
Definition strict_equal (a : string) (b : option string) : bool :=
  match b with
  | Some s => String.eqb a s
  | None => false
  end.

(** ** The methods of SaveMetadataManager *)

Definition metadataFile : string := "metadata.json".

Definition calculateChecksum (data : string) : string := Sha256.digest_hex data.

Definition saveMetadata : M unit :=
  try_catch
    (const m := await this_metadata;
     let metadataJson := JSON.stringify (toJson m) in
     let tempFile := metadataFile +:+ ".tmp" in
     await fs_writeFile tempFile metadataJson;
     await fs_rename tempFile metadataFile;
     console_log "Metadata saved successfully")
    (fun error => throw (Error ("Failed to save metadata: " +:+ message error))).

(** [isoNow] is [new Date().toISOString()]. *)
Definition backupCorruptedMetadata (isoNow : string) : M unit :=
  try_catch
    (let timestamp := replace_colons_dots isoNow in
     let backupFile := "metadata_corrupted_" +:+ timestamp +:+ ".json" in
     const dir := await this_saveDirectory;
     await fs_copyFile metadataFile backupFile;
     console_log ("Corrupted metadata backed up to: " +:+ path_join dir backupFile))
    (fun error => console_warn ("Could not backup corrupted metadata: " +:+ message error)).

Definition JSON_parse (text : string) : M json :=
  match JSON.parse text with
  | Some j => ret j
  | None => throw (SyntaxError "Unexpected token in JSON")
  end.

Definition loadMetadata (isoNow : string) : M unit :=
  try_catch
    (await fs_access metadataFile;
     const metadataContent := await fs_readFile metadataFile;
     const loadedMetadata := await JSON_parse metadataContent;
     const m := await this_metadata;
     match merge m loadedMetadata with
     | Some m' =>
         await set_metadata m';
         console_log "Metadata loaded successfully"
     | None => unmodelled
     end)
    (fun error =>
       if bool_decide (code error = Some "ENOENT") then
         await console_log "No existing metadata found, creating new metadata file";
         saveMetadata
       else if isSyntaxError error then
         await console_warn "Corrupted metadata file, creating backup and resetting";
         await backupCorruptedMetadata isoNow;
         saveMetadata
       else
         await console_error ("Error loading metadata: " +:+ message error);
         throw (Error ("Failed to load metadata: " +:+ message error))).

(** The fields the constructor assigns.  Its last statement starts
    [loadMetadata] without awaiting it; here that call is [loadMetadata] run
    on the constructed manager. *)
Definition construct (dir : string) (d : Disk) : Manager :=
  {| saveDirectory := dir; metadata := defaultMetadata; disk := d;
     journal := []; console := [] |}.

(** [Object.values(this.metadata.saves)] *)
Definition object_values (m : Metadata) : list Entry.t := map snd (map_to_list (saves m)).

(** [saveFiles.reduce((sum, file) => sum + (file.size || 0), 0)] *)
Definition total_size (saveFiles : list Entry.t) : Z :=
  fold_left (fun sum file => sum + num_or (Some (Entry.size file)) 0) saveFiles 0.

Definition updateStatistics : M unit :=
  try_catch
    (const m := await this_metadata;
     let saveFiles := object_values m in
     await (if bool_decide (0 < length saveFiles)%nat then
              let totalSize := total_size saveFiles in
              set_metadata (set_statistics m
                (set_sizes (statistics m)
                   (math_round_div totalSize (Z.of_nat (length saveFiles))) totalSize))
            else
              set_metadata (set_statistics m (set_sizes (statistics m) 0 0)));
     console_log "Statistics updated")
    (fun error => console_error ("Failed to update statistics: " +:+ message error)).

Module SaveInfo.
Record t : Type := {
  size : option Z;
  gameVersion : option string;
  playerLevel : option Z
}.
End SaveInfo.

(** The object literal assigned to [this.metadata.saves[filename]].  In
    [this.metadata.saves[filename]?.saveCount || 0] an inherited value has no
    [saveCount], so the count starts from 0 for every name without an
    entry. *)
Definition newEntry (m : Metadata) (filename : string) (saveInfo : SaveInfo.t)
    (fileContent : string) (timestamp : Z) : Entry.t :=
  {| Entry.filename := filename;
     Entry.checksum := calculateChecksum fileContent;
     Entry.size := num_or (SaveInfo.size saveInfo) (Z.of_nat (String.length fileContent));
     Entry.created := timestamp;
     Entry.lastModified := timestamp;
     Entry.isBackup := includes filename "backup_";
     Entry.saveCount := num_or (Entry.saveCount <$> saves m !! filename) 0 + 1;
     Entry.gameVersion := str_or (SaveInfo.gameVersion saveInfo) "unknown";
     Entry.playerLevel := num_or (SaveInfo.playerLevel saveInfo) 0;
     Entry.lastAccessed := None |}.

(** [timestamp] is [Date.now()]. *)
Definition registerSaveFile (filename : string) (saveInfo : SaveInfo.t) (timestamp : Z)
  : M (option Entry.t) :=
  try_catch
    (const fileContent := await fs_readFile filename;
     await update_metadata (fun m =>
       set_saves m (<[filename := newEntry m filename saveInfo fileContent timestamp]> (saves m)));
     await update_metadata (fun m => set_lastSave m timestamp);
     await update_metadata (fun m => set_totalSaves m (totalSaves m + 1));
     await update_metadata (fun m =>
       set_statistics m (set_saveOps (statistics m)
         (totalSaveOperations (statistics m) + 1) (lastSuccessfulSave (statistics m))));
     await update_metadata (fun m =>
       set_statistics m (set_saveOps (statistics m)
         (totalSaveOperations (statistics m)) (Some timestamp)));
     await updateStatistics;
     await saveMetadata;
     await console_log ("Save file registered: " +:+ filename);
     const m := await this_metadata;
     ret (saves m !! filename))
    (fun error =>
       throw (Error ("Failed to register save file " +:+ filename +:+ ": " +:+ message error))).

Module Validation.
Record t : Type := {
  valid : bool;
  filename : string;
  reason : string;
  storedChecksum : option string;
  currentChecksum : option string;
  fileSize : option Z;
  lastModified : option Z;
  error : option string
}.
End Validation.

Definition validateSaveFileIntegrity (filename : string) : M Validation.t :=
  try_catch
    (await fs_access filename;
     const m := await this_metadata;
     match saves_get m filename with
     | None =>
         ret {| Validation.valid := false;
                Validation.reason := "No metadata found for file";
                Validation.filename := filename;
                Validation.storedChecksum := None; Validation.currentChecksum := None;
                Validation.fileSize := None; Validation.lastModified := None;
                Validation.error := None |}
     | Some storedMetadata =>
         const fileContent := await fs_readFile filename;
         let currentChecksum := calculateChecksum fileContent in
         let isValid := strict_equal currentChecksum (stored_checksum storedMetadata) in
         ret {| Validation.valid := isValid;
                Validation.filename := filename;
                Validation.storedChecksum := stored_checksum storedMetadata;
                Validation.currentChecksum := Some currentChecksum;
                Validation.reason :=
                  if isValid then "File integrity verified"
                  else "Checksum mismatch - file may be corrupted";
                Validation.fileSize := Some (Z.of_nat (String.length fileContent));
                Validation.lastModified := stored_lastModified storedMetadata;
                Validation.error := None |}
     end)
    (fun error =>
       ret {| Validation.valid := false;
              Validation.filename := filename;
              Validation.reason := "Validation error: " +:+ message error;
              Validation.error := Some (message error);
              Validation.storedChecksum := None; Validation.currentChecksum := None;
              Validation.fileSize := None; Validation.lastModified := None |}).

Module Results.
Record t : Type := {
  totalFiles : Z;
  validFiles : Z;
  invalidFiles : Z;
  missingFiles : Z;
  details : list Validation.t
}.
End Results.

(** One turn of the [for ... of] loop of [validateAllSaveFiles]. *)
Definition tally (results : Results.t) (validation : Validation.t) : Results.t :=
  let valid := Validation.valid validation in
  let missing :=
    (negb valid && (includes (Validation.reason validation) "ENOENT"
                    || includes (Validation.reason validation) "not found"))%bool in
  {| Results.details := Results.details results ++ [validation];
     Results.totalFiles := Results.totalFiles results + 1;
     Results.validFiles := Results.validFiles results + (if valid then 1 else 0);
     Results.invalidFiles := Results.invalidFiles results + (if valid then 0 else 1);
     Results.missingFiles := Results.missingFiles results + (if missing then 1 else 0) |}.

Fixpoint validateAll_loop (filenames : list string) (results : Results.t) : M Results.t :=
  match filenames with
  | [] => ret results
  | filename :: rest =>
      const validation := await validateSaveFileIntegrity filename;
      validateAll_loop rest (tally results validation)
  end.

(** [Object.keys(this.metadata.saves)] *)
Definition object_keys (m : Metadata) : list string := map fst (map_to_list (saves m)).

Definition validateAllSaveFiles : M Results.t :=
  let results := {| Results.totalFiles := 0; Results.validFiles := 0;
                    Results.invalidFiles := 0; Results.missingFiles := 0;
                    Results.details := [] |} in
  try_catch
    (const m := await this_metadata;
     const results := await validateAll_loop (object_keys m) results;
     await console_log ("Validation complete: " +:+ number_text (Results.validFiles results)
                        +:+ "/" +:+ number_text (Results.totalFiles results) +:+ " files valid");
     ret results)
    (fun error => throw (Error ("Failed to validate save files: " +:+ message error))).

(** For a name without an entry the record stays as it is: what the
    assignment of [lastAccessed] reaches then is an inherited value, not a
    property of [saves]. *)
Definition recordLoadOperation (filename : string) (timestamp : Z) : M unit :=
  try_catch
    (await update_metadata (fun m =>
       match saves m !! filename with
       | Some e => set_saves m (<[filename := Entry.set_lastAccessed e timestamp]> (saves m))
       | None => m
       end);
     await update_metadata (fun m =>
       set_statistics m (set_loadOps (statistics m)
         (totalLoadOperations (statistics m) + 1) (lastSuccessfulLoad (statistics m))));
     await update_metadata (fun m =>
       set_statistics m (set_loadOps (statistics m)
         (totalLoadOperations (statistics m)) (Some timestamp)));
     await saveMetadata;
     console_log ("Load operation recorded for: " +:+ filename))
    (fun error => console_error ("Failed to record load operation: " +:+ message error)).

Definition unregisterSaveFile (filename : string) : M unit :=
  try_catch
    (const m := await this_metadata;
     match saves_get m filename with
     | Some _ =>
         await set_metadata (set_saves m (delete filename (saves m)));
         await saveMetadata;
         console_log ("Save file unregistered: " +:+ filename)
     | None => ret tt
     end)
    (fun error =>
       console_error ("Failed to unregister save file " +:+ filename +:+ ": " +:+ message error)).

Module Config.
Record t : Type := {
  autoSaveEnabled : option bool;
  autoSaveInterval : option Z;
  backupCount : option Z;
  migrationCompleted : option bool
}.
End Config.

(** [if (config.field !== undefined) this.metadata.field = config.field] *)
Definition assign_if_defined {A} (field : option A) (set : Metadata -> A -> Metadata) : M unit :=
  match field with
  | Some v => update_metadata (fun m => set m v)
  | None => ret tt
  end.

Definition updateConfiguration (config : Config.t) : M unit :=
  try_catch
    (await assign_if_defined (Config.autoSaveEnabled config) set_autoSaveEnabled;
     await assign_if_defined (Config.autoSaveInterval config) set_autoSaveInterval;
     await assign_if_defined (Config.backupCount config) set_backupCount;
     await assign_if_defined (Config.migrationCompleted config) set_migrationCompleted;
     await saveMetadata;
     console_log "Configuration updated")
    (fun error => throw (Error ("Failed to update configuration: " +:+ message error))).

(** The [for ... of trackedFiles] loop of [cleanupOrphanedMetadata]. *)
Fixpoint cleanup_loop (existingFiles trackedFiles : list string) (cleanedCount : Z) : M Z :=
  match trackedFiles with
  | [] => ret cleanedCount
  | filename :: rest =>
      if negb (array_includes existingFiles filename) then
        await update_metadata (fun m => set_saves m (delete filename (saves m)));
        cleanup_loop existingFiles rest (cleanedCount + 1)
      else cleanup_loop existingFiles rest cleanedCount
  end.

Definition cleanupOrphanedMetadata : M Z :=
  try_catch
    (const existingFiles := await fs_readdir;
     const m := await this_metadata;
     let trackedFiles := object_keys m in
     const cleanedCount := await cleanup_loop existingFiles trackedFiles 0;
     await (if 0 <? cleanedCount then
              await updateStatistics;
              await saveMetadata;
              console_log ("Cleaned up " +:+ number_text cleanedCount
                           +:+ " orphaned metadata entries")
            else ret tt);
     ret cleanedCount)
    (fun error =>
       await console_error ("Failed to cleanup orphaned metadata: " +:+ message error);
       ret 0).

(** [this.metadata.saves[filename] || null]: an entry and an inherited value
    are truthy; [None] is [null]. *)
Definition getSaveFileMetadata (filename : string) : M (option Property) :=
  const m := await this_metadata; ret (saves_get m filename).

(** ** Every operation of the store, as a command *)

Inductive Op : Type :=
| RegisterSaveFile (filename : string) (saveInfo : SaveInfo.t) (timestamp : Z)
| UnregisterSaveFile (filename : string)
| RecordLoadOperation (filename : string) (timestamp : Z)
| UpdateConfiguration (config : Config.t)
| CleanupOrphanedMetadata
| ValidateSaveFileIntegrity (filename : string)
| ValidateAllSaveFiles.

(** The manager after the call, whatever the call returned or threw. *)
Definition after (op : Op) (st : Manager) : Manager :=
  match op with
  | RegisterSaveFile f i ts => snd (registerSaveFile f i ts st)
  | UnregisterSaveFile f => snd (unregisterSaveFile f st)
  | RecordLoadOperation f ts => snd (recordLoadOperation f ts st)
  | UpdateConfiguration c => snd (updateConfiguration c st)
  | CleanupOrphanedMetadata => snd (cleanupOrphanedMetadata st)
  | ValidateSaveFileIntegrity f => snd (validateSaveFileIntegrity f st)
  | ValidateAllSaveFiles => snd (validateAllSaveFiles st)
  end.

(** One step of the store's life: a call, or a change of the directory made
    by somebody else. *)
Inductive Step : Manager -> Manager -> Prop :=
| step_call (op : Op) (st : Manager) : Step st (after op st)
| step_world (d : Disk) (st : Manager) : Step st (with_disk st d).

(** The states the store reaches from the record the constructor creates. *)
Inductive Reachable : Manager -> Prop :=
| reach_bootstrap (dir : string) (d : Disk) : Reachable (construct dir d)
| reach_step (st st' : Manager) : Reachable st -> Step st st' -> Reachable st'.

(** Any number of steps. *)
Inductive Steps : Manager -> Manager -> Prop :=
| steps_none (st : Manager) : Steps st st
| steps_more (st st' st'' : Manager) : Steps st st' -> Step st' st'' -> Steps st st''.

(** Any number of steps along which [filename] stays tracked. *)
Inductive StepsTracking (filename : string) : Manager -> Manager -> Prop :=
| tracking_none (st : Manager) : StepsTracking filename st st
| tracking_more (st st' st'' : Manager) :
    StepsTracking filename st st' -> Step st' st'' ->
    is_Some (saves (metadata st'') !! filename) ->
    StepsTracking filename st st''.

(** The states reached from the constructor's record by registrations alone
    (and changes of the directory made by somebody else). *)
Inductive RegisteredOnly : Manager -> Prop :=
| only_bootstrap (dir : string) (d : Disk) : RegisteredOnly (construct dir d)
| only_register (f : string) (i : SaveInfo.t) (ts : Z) (st : Manager) :
    RegisteredOnly st -> RegisteredOnly (after (RegisterSaveFile f i ts) st)
| only_world (d : Disk) (st : Manager) : RegisteredOnly st -> RegisteredOnly (with_disk st d).

(** The calls that leave the prototype chain of [saves] alone.  On a
    [saves] object without an entry of that name, [registerSaveFile] for
    [__proto__] replaces the prototype of [saves], and [recordLoadOperation]
    for [__proto__] gives [Object.prototype] a property [lastAccessed]:
    after either, names other than [object_prototype_names] are inherited
    too. *)
Definition keeps_prototype (op : Op) : Prop :=
  match op with
  | RegisterSaveFile filename _ _ | RecordLoadOperation filename _ =>
      filename <> "__proto__"
  | _ => True
  end.

(** The states of a manager in whose life (construction, loads, calls and
    changes of the directory made by somebody else) every call kept the
    prototype chain: the names [saves] inherits are [object_prototype_names]. *)
Inductive Plain : Manager -> Prop :=
| plain_new (dir : string) (d : Disk) : Plain (construct dir d)
| plain_load (iso : string) (st : Manager) : Plain st -> Plain (snd (loadMetadata iso st))
| plain_call (op : Op) (st : Manager) : Plain st -> keeps_prototype op -> Plain (after op st)
| plain_world (d : Disk) (st : Manager) : Plain st -> Plain (with_disk st d).

(** ** What the claims speak about *)

(** The sum of the sizes of the entries of the record. *)
Definition entries_total (s : gmap string Entry.t) : Z :=
  map_fold (fun _ e acc => Entry.size e + acc) 0 s.

Definition entry_count (s : gmap string Entry.t) : Z := Z.of_nat (size s).

(** The size statistics agree with the entries, the average being rounded
    to the nearest integer. *)
Definition statistics_fresh (m : Metadata) : Prop :=
  totalDiskUsage (statistics m) = entries_total (saves m) /\
  averageSaveSize (statistics m) =
    if decide (size (saves m) = 0%nat) then 0
    else math_round_div (entries_total (saves m)) (entry_count (saves m)).

(** The size statistics as the claim words them: the average is the sum
    divided by the number of entries. *)
Definition statistics_exact (m : Metadata) : Prop :=
  totalDiskUsage (statistics m) = entries_total (saves m) /\
  averageSaveSize (statistics m) * entry_count (saves m) = entries_total (saves m).

(** The count an entry has, 0 for a filename that is not tracked. *)
Definition saveCount_of (m : Metadata) (filename : string) : Z :=
  match saves m !! filename with
  | Some e => Entry.saveCount e
  | None => 0
  end.

Definition persisted (st : Manager) : option string :=
  match nodes (disk st) !! metadataFile with
  | Some (File text) => Some text
  | _ => None
  end.

(** ** Names used by the statements *)

Definition tempFile : string := "metadata.json.tmp".

Arguments JSON.stringify : simpl never.
Arguments calculateChecksum : simpl never.

(** Projections of the state constructors, and nothing else. *)
Ltac proj :=
  cbn [nodes faults disk metadata saveDirectory journal console
       journalled with_disk with_nodes with_metadata printed fst snd] in *.


(** The record after [updateStatistics]. *)
Definition refreshed (m : Metadata) : Metadata :=
  let saveFiles := object_values m in
  if bool_decide (0 < length saveFiles)%nat then
    set_statistics m (set_sizes (statistics m)
      (math_round_div (total_size saveFiles) (Z.of_nat (length saveFiles)))
      (total_size saveFiles))
  else set_statistics m (set_sizes (statistics m) 0 0).

(** The record after the assignments of [registerSaveFile] and its call of
    [updateStatistics], for a file that was read as [fileContent]. *)
Definition registered (m : Metadata) (filename : string) (saveInfo : SaveInfo.t)
    (fileContent : string) (timestamp : Z) : Metadata :=
  let m1 := set_saves m (<[filename := newEntry m filename saveInfo fileContent timestamp]> (saves m)) in
  let m2 := set_totalSaves (set_lastSave m1 timestamp) (totalSaves m1 + 1) in
  refreshed (set_statistics m2
    (set_saveOps (statistics m2) (totalSaveOperations (statistics m2) + 1) (Some timestamp))).

(** The system error of a failed call on [name]. *)
Definition sys_error (st : Manager) (e : Errno) (syscall name : string) : JsError :=
  SystemError e syscall (path_join (saveDirectory st) name) None.

(** The record after [unregisterSaveFile]. *)
Definition unregistered (m : Metadata) (filename : string) : Metadata :=
  match saves m !! filename with
  | Some _ => set_saves m (delete filename (saves m))
  | None => m
  end.

(** The record after the assignments of [recordLoadOperation]. *)
Definition load_recorded (m : Metadata) (filename : string) (timestamp : Z) : Metadata :=
  let m1 := match saves m !! filename with
            | Some e => set_saves m (<[filename := Entry.set_lastAccessed e timestamp]> (saves m))
            | None => m
            end in
  set_statistics m1
    (set_loadOps (statistics m1) (totalLoadOperations (statistics m1) + 1) (Some timestamp)).

(** The record after the assignments of [updateConfiguration]. *)
Definition configured (m : Metadata) (config : Config.t) : Metadata :=
  let m1 := match Config.autoSaveEnabled config with Some v => set_autoSaveEnabled m v | None => m end in
  let m2 := match Config.autoSaveInterval config with Some v => set_autoSaveInterval m1 v | None => m1 end in
  let m3 := match Config.backupCount config with Some v => set_backupCount m2 v | None => m2 end in
  match Config.migrationCompleted config with Some v => set_migrationCompleted m3 v | None => m3 end.

(** The entries that survive the loop of [cleanupOrphanedMetadata], and the
    number of entries it deletes. *)
Definition pruned (existingFiles trackedFiles : list string) (s : gmap string Entry.t)
  : gmap string Entry.t :=
  fold_left (fun s filename =>
               if array_includes existingFiles filename then s else delete filename s)
            trackedFiles s.

Definition orphans (existingFiles trackedFiles : list string) : list string :=
  List.filter (fun filename => negb (array_includes existingFiles filename)) trackedFiles.

(** [fs.readdir]'s answer when it answers. *)
Definition listing (st : Manager) : list string := map fst (map_to_list (nodes (disk st))).

(** The objects [validateSaveFileIntegrity] returns. *)
Definition untracked_verdict (filename : string) : Validation.t :=
  {| Validation.valid := false;
     Validation.filename := filename;
     Validation.reason := "No metadata found for file";
     Validation.storedChecksum := None; Validation.currentChecksum := None;
     Validation.fileSize := None; Validation.lastModified := None;
     Validation.error := None |}.

Definition error_verdict (filename : string) (error : JsError) : Validation.t :=
  {| Validation.valid := false;
     Validation.filename := filename;
     Validation.reason := "Validation error: " +:+ message error;
     Validation.storedChecksum := None; Validation.currentChecksum := None;
     Validation.fileSize := None; Validation.lastModified := None;
     Validation.error := Some (message error) |}.

(** The verdict on a name without an entry that [Object.prototype]
    defines: the file was read, and there is no stored checksum to agree
    with. *)
Definition inherited_verdict (filename fileContent : string) : Validation.t :=
  {| Validation.valid := false;
     Validation.filename := filename;
     Validation.reason := "Checksum mismatch - file may be corrupted";
     Validation.storedChecksum := None;
     Validation.currentChecksum := Some (calculateChecksum fileContent);
     Validation.fileSize := Some (Z.of_nat (String.length fileContent));
     Validation.lastModified := None;
     Validation.error := None |}.

Definition checked_verdict (filename : string) (stored : Entry.t) (fileContent : string)
  : Validation.t :=
  let isValid := String.eqb (calculateChecksum fileContent) (Entry.checksum stored) in
  {| Validation.valid := isValid;
     Validation.filename := filename;
     Validation.reason := if isValid then "File integrity verified"
                          else "Checksum mismatch - file may be corrupted";
     Validation.storedChecksum := Some (Entry.checksum stored);
     Validation.currentChecksum := Some (calculateChecksum fileContent);
     Validation.fileSize := Some (Z.of_nat (String.length fileContent));
     Validation.lastModified := Some (Entry.lastModified stored);
     Validation.error := None |}.

(** Two states with the same record, directory and disk: they differ by
    what was journalled and printed. *)
Definition same_world (st st' : Manager) : Prop :=
  metadata st' = metadata st /\ disk st' = disk st /\ saveDirectory st' = saveDirectory st.

(** The number of [WriteFile] calls on the temporary file in a journal:
    the persist attempts. *)
Definition persist_attempts (j : list FsCall) : nat :=
  length (List.filter (fun c => bool_decide (c = WriteFile tempFile)) j).

Definition count_valid (vs : list Validation.t) : Z :=
  Z.of_nat (length (List.filter Validation.valid vs)).
Definition count_invalid (vs : list Validation.t) : Z :=
  Z.of_nat (length (List.filter (fun v => negb (Validation.valid v)) vs)).

(** ** Concrete directories and runs used as examples *)

Definition noInfo : SaveInfo.t :=
  {| SaveInfo.size := None; SaveInfo.gameVersion := None; SaveInfo.playerLevel := None |}.

(** A directory with two save files of 1 and 2 bytes. *)
Definition two_saves : Disk :=
  {| nodes := {[ "a.sav" := File "x"; "b.sav" := File "yy" ]}; faults := [] |}.

Definition run0 : Manager := construct "/saves" two_saves.
Definition run1 : Manager := after (RegisterSaveFile "a.sav" noInfo 1000) run0.
Definition run2 : Manager := after (RegisterSaveFile "b.sav" noInfo 2000) run1.
Definition run3 : Manager := after (UnregisterSaveFile "b.sav") run2.

(** Every entry of the record has equal [created] and [lastModified]. *)
Definition stamped (m : Metadata) : Prop :=
  forall f e, saves m !! f = Some e -> Entry.created e = Entry.lastModified e.

(** Persisting cannot go through on this disk: the write of the temporary
    file or the rename over the real file fails. *)
Definition persist_blocked (d : Disk) : Prop :=
  fault_of (faults d) (WriteFile tempFile) <> None
  \/ nodes d !! tempFile = Some Directory
  \/ fault_of (faults d) (Rename tempFile metadataFile) <> None
  \/ nodes d !! metadataFile = Some Directory.

(** The two-file directory with writing denied: the write of the temporary
    file fails. *)
Definition locked_disk : Disk :=
  {| nodes := {[ "a.sav" := File "x"; "b.sav" := File "yy" ]};
     faults := [(WriteFile tempFile, EACCES)] |}.

Definition locked0 : Manager := construct "/saves" locked_disk.
Definition locked1 : Manager := after (RegisterSaveFile "a.sav" noInfo 1000) locked0.

(** The two-file run after both files have vanished from the directory. *)
Definition emptied2 : Manager := with_disk run2 {| nodes := ∅; faults := [] |}.

(** The write-denied run after a.sav has vanished from the directory. *)
Definition locked2 : Manager :=
  with_disk locked1 {| nodes := {[ "b.sav" := File "yy" ]};
                     faults := [(WriteFile tempFile, EACCES)] |}.

(** A directory holding a leftover temporary file, on a device that fails
    every rename onto metadata.json; the caller registers the leftover and a
    save file; then the device recovers and the save file is deleted. *)
Definition leftover_disk : Disk :=
  {| nodes := {[ tempFile := File "stale"; "old.sav" := File "data" ]};
     faults := [(Rename tempFile metadataFile, EIO)] |}.

Definition left0 : Manager := construct "/saves" leftover_disk.
Definition left1 : Manager := after (RegisterSaveFile tempFile noInfo 1000) left0.
Definition left2 : Manager := after (RegisterSaveFile "old.sav" noInfo 2000) left1.
Definition left3 : Manager :=
  with_disk left2 {| nodes := delete "old.sav" (nodes (disk left2)); faults := [] |}.
Definition left4 : Manager := after CleanupOrphanedMetadata left3.
Definition left5 : Manager := after CleanupOrphanedMetadata left4.

(** ** Measures for the JSON round trip *)

(** The fuel [parse_value] needs for a value. *)
Fixpoint need (j : json) : nat :=
  match j with
  | JArr xs => S (list_sum (map (fun x => S (need x)) xs))
  | JObj ms => S (list_sum (map (fun kv => S (need (snd kv))) ms))
  | _ => 1
  end.

(** Values whose numbers are all integers. *)
Fixpoint plain (j : json) : Prop :=
  match j with
  | JNumLit _ => False
  | JArr xs => fold_right (fun x acc => plain x /\ acc) True xs
  | JObj ms => fold_right (fun kv acc => plain (snd kv) /\ acc) True ms
  | _ => True
  end.

(** What may follow a printed value: nothing, a comma or a line break. *)
Definition terminated (k : string) : Prop :=
  match k with
  | EmptyString => True
  | String c _ => c = ","%char \/ c = newline
  end.

(** The first character of a number. *)
Definition numeric (c : ascii) : bool :=
  (Ascii.eqb c "-" || match digit_of c with Some _ => true | None => false end)%bool.

(** A text that does not go on with a digit. *)
Definition no_digit (k : string) : Prop :=
  match k with
  | EmptyString => True
  | String c _ => digit_of c = None
  end.

(** The name of the copy [backupCorruptedMetadata] makes. *)
Definition quarantine (isoNow : string) : string :=
  "metadata_corrupted_" +:+ replace_colons_dots isoNow +:+ ".json".

(** A directory whose metadata.json is not JSON, next to one save file. *)
Definition corrupted_disk : Disk :=
  {| nodes := {[ metadataFile := File "{ oops"; "a.sav" := File "x" ]}; faults := [] |}.

(** The verdicts [validateAllSaveFiles] counts as missing files. *)
Definition counted_missing (v : Validation.t) : bool :=
  (negb (Validation.valid v)
   && (includes (Validation.reason v) "ENOENT" || includes (Validation.reason v) "not found"))%bool.

Definition is_mismatch (v : Validation.t) : bool :=
  String.eqb (Validation.reason v) "Checksum mismatch - file may be corrupted".

Definition count_where {A} (p : A -> bool) (l : list A) : Z :=
  Z.of_nat (length (List.filter p l)).

(** The file of a tracked name is gone from the directory. *)
Definition gone (st : Manager) (filename : string) : bool :=
  bool_decide (nodes (disk st) !! filename = None).

(** Split a conjunction into its parts, without touching the parts. *)
Ltac conjuncts := repeat match goal with |- _ /\ _ => split end.

(** * The queries, the clone and the export *)

(** ** Array helpers of the JS runtime *)

(** [Math.min(...xs)] and [Math.max(...xs)]; [None] stands for the infinity
    JS answers on an empty argument list. *)
Definition math_min (xs : list Z) : option Z :=
  match xs with
  | [] => None
  | x :: rest => Some (fold_left Z.min rest x)
  end.

Definition math_max (xs : list Z) : option Z :=
  match xs with
  | [] => None
  | x :: rest => Some (fold_left Z.max rest x)
  end.

(** [xs.sort(compareFn)] for a [compareFn] that is a consistent ordering:
    the sort is stable (ECMAScript 2019), so its result is the one of any
    stable sort.  [sort_insert] places [x], which stood before every element
    of [sorted], in front of the first element it does not have to follow. *)
Fixpoint sort_insert {A} (compareFn : A -> A -> Z) (x : A) (sorted : list A) : list A :=
  match sorted with
  | [] => [x]
  | y :: rest =>
      if compareFn x y <=? 0 then x :: sorted
      else y :: sort_insert compareFn x rest
  end.

Definition array_sort {A} (compareFn : A -> A -> Z) (xs : list A) : list A :=
  fold_right (sort_insert compareFn) [] xs.

(** ** JSON.stringify(value): the text without indentation *)

Definition flat_elems (pr : json -> string -> string) (close : string)
  : list json -> string :=
  fix go (l : list json) : string :=
    match l with
    | [] => close
    | y :: l' => String "," (pr y (go l'))
    end.

Definition flat_member (pr : json -> string -> string) (key : string) (v : json)
    (k : string) : string :=
  quote key (String ":" (pr v k)).

Definition flat_members (pr : json -> string -> string) (close : string)
  : list (string * json) -> string :=
  fix go (l : list (string * json)) : string :=
    match l with
    | [] => close
    | (key, v) :: l' => String "," (flat_member pr key v (go l'))
    end.

(** [print_flat j k] is the text of [j] followed by [k]. *)
Fixpoint print_flat (j : json) (k : string) : string :=
  match j with
  | JNull => "null" +:+ k
  | JBool true => "true" +:+ k
  | JBool false => "false" +:+ k
  | JNum n => print_Z n k
  | JNumLit lit => lit +:+ k
  | JStr s => quote s k
  | JArr [] => "[]" +:+ k
  | JArr (x :: xs) =>
      String "[" (print_flat x (flat_elems print_flat (String "]" k) xs))
  | JObj [] => "{}" +:+ k
  | JObj ((key, v) :: ms) =>
      String "{" (flat_member print_flat key v (flat_members print_flat (String "}" k) ms))
  end.

Definition stringify_flat (j : json) : string := print_flat j "".

(** ** The methods *)

(** The object [getStatistics] returns: the six properties spread from
    [this.metadata.statistics], then the ones it computes. *)
Module SystemStatistics.
Record t : Type := {
  totalSaveOperations : Z;
  totalLoadOperations : Z;
  lastSuccessfulSave : option Z;
  lastSuccessfulLoad : option Z;
  averageSaveSize : Z;
  totalDiskUsage : Z;
  totalFiles : Z;
  backupFiles : Z;
  regularFiles : Z;
  oldestSave : option Z;
  newestSave : option Z;
  autoSaveEnabled : bool;
  autoSaveInterval : Z;
  migrationCompleted : bool
}.
End SystemStatistics.

Definition getStatistics : M SystemStatistics.t :=
  const m := await this_metadata;
  let saveFiles := object_values m in
  let backupFiles := List.filter (fun file => Entry.isBackup file) saveFiles in
  let regularFiles := List.filter (fun file => negb (Entry.isBackup file)) saveFiles in
  ret {| SystemStatistics.totalSaveOperations := totalSaveOperations (statistics m);
         SystemStatistics.totalLoadOperations := totalLoadOperations (statistics m);
         SystemStatistics.lastSuccessfulSave := lastSuccessfulSave (statistics m);
         SystemStatistics.lastSuccessfulLoad := lastSuccessfulLoad (statistics m);
         SystemStatistics.averageSaveSize := averageSaveSize (statistics m);
         SystemStatistics.totalDiskUsage := totalDiskUsage (statistics m);
         SystemStatistics.totalFiles := Z.of_nat (length saveFiles);
         SystemStatistics.backupFiles := Z.of_nat (length backupFiles);
         SystemStatistics.regularFiles := Z.of_nat (length regularFiles);
         SystemStatistics.oldestSave :=
           if bool_decide (0 < length saveFiles)%nat
           then math_min (map Entry.created saveFiles) else None;
         SystemStatistics.newestSave :=
           if bool_decide (0 < length saveFiles)%nat
           then math_max (map Entry.created saveFiles) else None;
         SystemStatistics.autoSaveEnabled := autoSaveEnabled m;
         SystemStatistics.autoSaveInterval := autoSaveInterval m;
         SystemStatistics.migrationCompleted := migrationCompleted m |}.

Definition getAllSaveFiles : M (list Entry.t) :=
  const m := await this_metadata;
  ret (array_sort (fun a b => Entry.lastModified b - Entry.lastModified a)
         (object_values m)).

(** [JSON.parse(JSON.stringify(this.metadata))]: the clone is the parsed
    document. *)
Definition getMetadata : M json :=
  const m := await this_metadata;
  JSON_parse (stringify_flat (toJson m)).

(** [backupPath] is [path.join(this.saveDirectory, name)]: the export goes to
    a file of the save directory. *)
Definition exportMetadata (name : string) : M unit :=
  try_catch
    (const m := await this_metadata;
     let metadataJson := JSON.stringify (toJson m) in
     await fs_writeFile name metadataJson;
     const dir := await this_saveDirectory;
     console_log ("Metadata exported to: " +:+ path_join dir name))
    (fun error => throw (Error ("Failed to export metadata: " +:+ message error))).

(** ** Histories *)






(** ** Names used by the further statements *)

(** The characters of a lower-case hexadecimal digest. *)
Definition is_hex (c : ascii) : bool :=
  let n := N_of_ascii c in
  (((48 <=? n) && (n <=? 57)) || ((97 <=? n) && (n <=? 102)))%N.

Fixpoint string_forall (p : ascii -> bool) (s : string) : bool :=
  match s with
  | EmptyString => true
  | String c s' => p c && string_forall p s'
  end.

(** An entry as [registerSaveFile] leaves it under the key [f]. *)
Definition entry_wf (f : string) (e : Entry.t) : Prop :=
  Entry.filename e = f
  /\ Entry.isBackup e = includes f "backup_"
  /\ String.length (Entry.checksum e) = 64%nat
  /\ string_forall is_hex (Entry.checksum e) = true.

(** The sizes for which the sum and the division of [updateStatistics] are
    exact in the arithmetic of the JS runtime: no size is negative, and the
    sum of the sizes plus the number of entries is below 2^52.  Below that
    bound no quotient of the two lies within half a unit in the last place
    of a half-integer, so [Math.round] of the rounded quotient is
    [Math.round] of the exact one. *)
Definition sizes_in_range (m : Metadata) : Prop :=
  forallb (fun file => 0 <=? Entry.size file) (object_values m) = true
  /\ entries_total (saves m) + entry_count (saves m) < 2 ^ 52.

(** What may follow a value in a text without indentation: nothing, a
    comma or a closing bracket. *)
Definition closed (k : string) : Prop :=
  match k with
  | EmptyString => True
  | String c _ => c = ","%char \/ c = "]"%char \/ c = "}"%char
  end.

(** The comparison function [getAllSaveFiles] sorts with. *)
Definition by_lastModified (a b : Entry.t) : Z :=
  Entry.lastModified b - Entry.lastModified a.

(** [l] is in the order of [getAllSaveFiles]: most recently modified first. *)
Definition newest_first (l : list Entry.t) : Prop :=
  forall i j a b, (i < j)%nat -> l !! i = Some a -> l !! j = Some b ->
                  Entry.lastModified b <= Entry.lastModified a.

(** The same, by recursion on the list: every entry was modified no earlier
    than the entries behind it. *)
Fixpoint descending (l : list Entry.t) : Prop :=
  match l with
  | [] => True
  | x :: rest =>
      Forall (fun y => Entry.lastModified y <= Entry.lastModified x) rest /\ descending rest
  end.

(** The entries of [l] modified at [t], in their order in [l]. *)
Definition modified_at (t : Z) (l : list Entry.t) : list Entry.t :=
  List.filter (fun e => Entry.lastModified e =? t) l.

(** A directory where metadata.json is a directory. *)
Definition shadowed_disk : Disk :=
  {| nodes := {[ metadataFile := Directory; "a.sav" := File "x" ]}; faults := [] |}.

(** A directory with one save file whose name holds the letters ENOENT; the
    file is registered, then the access to it is denied. *)
Definition denied_disk : Disk :=
  {| nodes := {[ "ENOENT.sav" := File "x" ]}; faults := [] |}.

Definition denied0 : Manager := construct "/saves" denied_disk.
Definition denied1 : Manager := after (RegisterSaveFile "ENOENT.sav" noInfo 1000) denied0.
Definition denied2 : Manager :=
  with_disk denied1 {| nodes := nodes (disk denied1);
                       faults := [(Access "ENOENT.sav", EACCES)] |}.

(** A directory with a save file and a backup of it, both registered, the
    backup later. *)
Definition archive_disk : Disk :=
  {| nodes := {[ "a.sav" := File "x"; "backup_a.sav" := File "x" ]}; faults := [] |}.

Definition archive0 : Manager := construct "/saves" archive_disk.
Definition archive1 : Manager := after (RegisterSaveFile "a.sav" noInfo 1000) archive0.
Definition archive2 : Manager := after (RegisterSaveFile "backup_a.sav" noInfo 2000) archive1.

(** A directory whose one save file has the name of a property of
    [Object.prototype]; the file is not registered. *)
Definition named_disk : Disk :=
  {| nodes := {[ "constructor" := File "x" ]}; faults := [] |}.

Definition named0 : Manager := construct "/saves" named_disk.

(** A metadata.json that holds two properties only, one of them null. *)
Definition upgrade_text : string :=
  JSON.stringify (JObj [("backupCount", JNum 3); ("saves", JNull)]).

Definition upgrade_disk : Disk :=
  {| nodes := {[ metadataFile := File upgrade_text ]}; faults := [] |}.

(** * Proofs: the methods, one by one *)

#[local] Set Warnings "-clear-no-such-hyp".

(** ** The file-system calls and the two helpers every mutation ends with *)

Lemma fs_call_inv {A} c sc p q (act : gmap string Node -> Errno + (A * gmap string Node))
    st r st' :
  fs_call c sc p q act st = (r, st') ->
  (exists e,
      r = Throw (SystemError e sc (default (saveDirectory st) (path_join (saveDirectory st) <$> p))
                   (path_join (saveDirectory st) <$> q))
      /\ st' = journalled st c
      /\ (fault_of (faults (disk st)) c = Some e
          \/ (fault_of (faults (disk st)) c = None /\ act (nodes (disk st)) = inl e)))
  \/ (exists a n,
      r = Ok a /\ st' = journalled (with_disk st (with_nodes (disk st) n)) c
      /\ fault_of (faults (disk st)) c = None /\ act (nodes (disk st)) = inr (a, n)).
Proof.
  unfold fs_call. intros H.
  destruct (fault_of (faults (disk st)) c) as [e|] eqn:Hf.
  - inversion H; subst. left. exists e. auto.
  - destruct (act (nodes (disk st))) as [e|[a n]] eqn:Ha; inversion H; subst.
    + left. exists e. auto.
    + right. exists a, n. auto.
Qed.

Lemma tempFile_eq : metadataFile +:+ ".tmp" = tempFile.
Proof. reflexivity. Qed.

(** What [saveMetadata] leaves behind: [this] is untouched, and the disk
    holds the text of the record exactly when the call returns. *)
Lemma saveMetadata_cases st :
  let text := JSON.stringify (toJson (metadata st)) in
  let n := nodes (disk st) in
  let written := journalled (with_disk st (with_nodes (disk st) (<[tempFile := File text]> n)))
                   (WriteFile tempFile) in
  (exists e, saveMetadata st = (Throw (Error ("Failed to save metadata: " +:+ message e)),
                                journalled st (WriteFile tempFile))
             /\ (fault_of (faults (disk st)) (WriteFile tempFile) <> None
                 \/ n !! tempFile = Some Directory))
  \/ (exists e, saveMetadata st = (Throw (Error ("Failed to save metadata: " +:+ message e)),
                                   journalled written (Rename tempFile metadataFile))
                /\ fault_of (faults (disk st)) (WriteFile tempFile) = None
                /\ n !! tempFile <> Some Directory
                /\ (fault_of (faults (disk st)) (Rename tempFile metadataFile) <> None
                    \/ n !! metadataFile = Some Directory))
  \/ (saveMetadata st =
        (Ok tt,
         printed (journalled
                    (with_disk written
                       (with_nodes (disk st)
                          (<[metadataFile := File text]> (delete tempFile (<[tempFile := File text]> n)))))
                    (Rename tempFile metadataFile))
           LOG "Metadata saved successfully")
      /\ fault_of (faults (disk st)) (WriteFile tempFile) = None
      /\ n !! tempFile <> Some Directory
      /\ fault_of (faults (disk st)) (Rename tempFile metadataFile) = None
      /\ n !! metadataFile <> Some Directory).
Proof.
  intros text n written.
  assert (Hne : tempFile <> metadataFile) by discriminate.
  unfold saveMetadata, try_catch, bind, this_metadata.
  rewrite tempFile_eq. fold text.
  destruct (fs_writeFile tempFile text st) as [r1 st1] eqn:Hw.
  apply fs_call_inv in Hw as [(e & -> & -> & Hc)|(a & n1 & -> & -> & Hf & Hact)].
  { left. exists (SystemError e "open" (default (saveDirectory st) (path_join (saveDirectory st) <$> Some tempFile)) None).
    split; [reflexivity|].
    destruct Hc as [Hc|[_ Hc]]; [left; congruence|right].
    fold n in Hc. destruct (n !! tempFile) as [[?|]|]; inversion Hc; done. }
  fold n in Hact.
  assert (Hnd : n !! tempFile <> Some Directory /\ n1 = <[tempFile := File text]> n).
  { destruct (n !! tempFile) as [[?|]|]; inversion Hact; split; done. }
  destruct Hnd as [Hnd ->]. fold written.
  destruct (fs_rename tempFile metadataFile written) as [r2 st2] eqn:Hr.
  apply fs_call_inv in Hr as [(e & -> & -> & Hc)|(a2 & n2 & -> & -> & Hf2 & Hact2)].
  { right; left. eexists. split; [reflexivity|]. repeat split; auto.
    unfold written in Hc. proj. destruct Hc as [Hc|[_ Hc]]; [left; congruence|right].
    rewrite lookup_insert_eq, lookup_insert_ne in Hc by done.
    fold n in Hc. destruct (n !! metadataFile) as [[?|]|]; inversion Hc; done. }
  right; right. unfold written in Hf2, Hact2. proj.
  rewrite lookup_insert_eq, lookup_insert_ne in Hact2 by done. fold n in Hact2.
  assert (Hmd : n !! metadataFile <> Some Directory
                /\ n2 = <[metadataFile := File text]> (delete tempFile (<[tempFile := File text]> n))).
  { destruct (n !! metadataFile) as [[?|]|]; inversion Hact2; split; done. }
  destruct Hmd as [Hmd ->]. destruct a, a2. repeat split; auto.
Qed.

Lemma with_nodes_same st : with_disk st (with_nodes (disk st) (nodes (disk st))) = st.
Proof. destruct st as [? ? [? ?] ? ?]. reflexivity. Qed.

Lemma fs_access_eq p st :
  fs_access p st =
    match fault_of (faults (disk st)) (Access p) with
    | Some e => (Throw (sys_error st e "access" p), journalled st (Access p))
    | None =>
        match nodes (disk st) !! p with
        | Some _ => (Ok tt, journalled st (Access p))
        | None => (Throw (sys_error st ENOENT "access" p), journalled st (Access p))
        end
    end.
Proof.
  unfold fs_access, fs_call, sys_error.
  destruct (fault_of _ _); [reflexivity|].
  destruct (nodes (disk st) !! p); [|reflexivity].
  by rewrite with_nodes_same.
Qed.

Lemma fs_readFile_eq p st :
  fs_readFile p st =
    match fault_of (faults (disk st)) (ReadFile p) with
    | Some e => (Throw (sys_error st e "open" p), journalled st (ReadFile p))
    | None =>
        match nodes (disk st) !! p with
        | Some (File data) => (Ok data, journalled st (ReadFile p))
        | Some Directory => (Throw (sys_error st EISDIR "open" p), journalled st (ReadFile p))
        | None => (Throw (sys_error st ENOENT "open" p), journalled st (ReadFile p))
        end
    end.
Proof.
  unfold fs_readFile, fs_call, sys_error.
  destruct (fault_of _ _); [reflexivity|].
  destruct (nodes (disk st) !! p) as [[data|]|]; try reflexivity.
  by rewrite with_nodes_same.
Qed.

Lemma fs_readFile_inv p st r st' :
  fs_readFile p st = (r, st') ->
  st' = journalled st (ReadFile p) /\ r <> Unmodelled.
Proof.
  rewrite fs_readFile_eq.
  destruct (fault_of _ _); [|destruct (nodes (disk st) !! p) as [[?|]|]];
    intros [= <- <-]; done.
Qed.

Lemma fs_readdir_eq st :
  fs_readdir st =
    match fault_of (faults (disk st)) Readdir with
    | Some e => (Throw (SystemError e "scandir" (saveDirectory st) None), journalled st Readdir)
    | None => (Ok (map fst (map_to_list (nodes (disk st)))), journalled st Readdir)
    end.
Proof.
  unfold fs_readdir, fs_call. destruct (fault_of _ _); [reflexivity|].
  by rewrite with_nodes_same.
Qed.

(** [saveMetadata] changes neither [this.metadata] nor the faults, and it
    returns or throws an [Error]. *)
Lemma saveMetadata_frame st r st' :
  saveMetadata st = (r, st') ->
  metadata st' = metadata st /\ saveDirectory st' = saveDirectory st
  /\ faults (disk st') = faults (disk st)
  /\ (r = Ok tt \/ exists e, r = Throw (Error ("Failed to save metadata: " +:+ message e))).
Proof.
  intros H.
  destruct (saveMetadata_cases st) as [(e & He & _)|[(e & He & _)|(He & _)]];
    rewrite He in H; injection H as <- <-; proj; eauto 10.
Qed.

Lemma num_or_size n : num_or (Some n) 0 = n.
Proof. unfold num_or. destruct (Z.eqb_spec n 0); congruence. Qed.

Lemma total_size_foldr (l : list (string * Entry.t)) acc :
  fold_left (fun sum file => sum + num_or (Some (Entry.size file)) 0) (map snd l) acc
  = acc + foldr (uncurry (fun (_ : string) e a => Entry.size e + a)) 0 l.
Proof.
  revert acc. induction l as [|[k e] l IH]; intros acc; [cbn; lia|].
  cbn [map snd fold_left foldr]. rewrite IH, num_or_size. cbn. lia.
Qed.

Lemma total_size_entries m : total_size (object_values m) = entries_total (saves m).
Proof.
  unfold total_size, object_values, entries_total.
  rewrite total_size_foldr, map_fold_foldr. lia.
Qed.

Lemma object_values_length m : length (object_values m) = size (saves m).
Proof. unfold object_values. by rewrite length_map, length_map_to_list. Qed.

Lemma refreshed_saves m : saves (refreshed m) = saves m.
Proof. unfold refreshed. by case_bool_decide. Qed.

Lemma refreshed_fresh m : statistics_fresh (refreshed m).
Proof.
  unfold statistics_fresh. rewrite refreshed_saves. unfold refreshed, entry_count.
  rewrite object_values_length, total_size_entries.
  case_bool_decide as Hn; cbn; case_decide as Hz; try lia; split; try reflexivity.
  apply map_size_empty_iff in Hz. rewrite Hz. reflexivity.
Qed.

Lemma updateStatistics_eq st :
  updateStatistics st =
    (Ok tt, printed (with_metadata st (refreshed (metadata st))) LOG "Statistics updated").
Proof.
  unfold updateStatistics, try_catch, bind, this_metadata, refreshed.
  case_bool_decide; reflexivity.
Qed.

Lemma registerSaveFile_unreadable f i ts st e st1 :
  fs_readFile f st = (Throw e, st1) ->
  registerSaveFile f i ts st =
    (Throw (Error ("Failed to register save file " +:+ f +:+ ": " +:+ message e)),
     journalled st (ReadFile f)).
Proof.
  intros H. unfold registerSaveFile, try_catch, bind at 1. rewrite H.
  by apply fs_readFile_inv in H as [-> _].
Qed.

Lemma registerSaveFile_readable f i ts st content st1 :
  fs_readFile f st = (Ok content, st1) ->
  let st2 := printed (with_metadata (journalled st (ReadFile f))
                        (registered (metadata st) f i content ts))
               LOG "Statistics updated" in
  registerSaveFile f i ts st =
    match saveMetadata st2 with
    | (Ok _, st3) =>
        (Ok (saves (metadata st3) !! f), printed st3 LOG ("Save file registered: " +:+ f))
    | (Throw e, st3) =>
        (Throw (Error ("Failed to register save file " +:+ f +:+ ": " +:+ message e)), st3)
    | (Unmodelled, st3) => (Unmodelled, st3)
    end.
Proof.
  intros H st2. unfold registerSaveFile, try_catch, bind at 1. rewrite H.
  apply fs_readFile_inv in H as [-> _].
  cbv [bind update_metadata this_metadata set_metadata].
  rewrite updateStatistics_eq.
  change (saveMetadata _) with (saveMetadata st2).
  destruct (saveMetadata st2) as [[[]|e|] st3]; reflexivity.
Qed.

Lemma with_metadata_same st : with_metadata st (metadata st) = st.
Proof. by destruct st. Qed.

Lemma set_saves_same m : set_saves m (saves m) = m.
Proof. by destruct m. Qed.

(** ** The effect of each method on [this.metadata] *)

Lemma registerSaveFile_metadata f i ts st :
  metadata (snd (registerSaveFile f i ts st)) =
    match fst (fs_readFile f st) with
    | Ok content => registered (metadata st) f i content ts
    | _ => metadata st
    end.
Proof.
  destruct (fs_readFile f st) as [[content|e|] st1] eqn:Hr; cbn [fst].
  - rewrite (registerSaveFile_readable _ _ _ _ _ _ Hr).
    match goal with |- context [saveMetadata ?s] =>
      destruct (saveMetadata s) as [r st3] eqn:Hs end.
    apply saveMetadata_frame in Hs as (Hm & _ & _ & [->|[e ->]]); cbn [snd]; proj; by rewrite Hm.
  - by rewrite (registerSaveFile_unreadable _ _ _ _ _ _ Hr).
  - by apply fs_readFile_inv in Hr as [_ ?].
Qed.

Lemma unregisterSaveFile_eq f st :
  exists st', unregisterSaveFile f st = (Ok tt, st')
    /\ metadata st' = unregistered (metadata st) f
    /\ saveDirectory st' = saveDirectory st.
Proof.
  unfold unregisterSaveFile, unregistered, saves_get, try_catch, bind at 1, this_metadata.
  destruct (saves (metadata st) !! f) as [e|] eqn:Hf;
    [|destruct (inherited f); [|by eexists]].
  all: cbv [bind set_metadata].
  all: match goal with |- context [saveMetadata ?s] =>
         destruct (saveMetadata s) as [r st3] eqn:Hs end.
  all: apply saveMetadata_frame in Hs as (Hm & Hd & _ & [->|[e' ->]]);
         eexists; (split; [reflexivity|]); proj; rewrite ?Hm, ?Hd; proj;
         rewrite ?(delete_id _ _ Hf); by destruct (metadata st).
Qed.

Lemma recordLoadOperation_eq f ts st :
  exists st', recordLoadOperation f ts st = (Ok tt, st')
    /\ metadata st' = load_recorded (metadata st) f ts.
Proof.
  unfold recordLoadOperation, try_catch.
  cbv [bind update_metadata this_metadata set_metadata].
  match goal with |- context [saveMetadata ?s] =>
    destruct (saveMetadata s) as [r st3] eqn:Hs end.
  apply saveMetadata_frame in Hs as (Hm & _ & _ & [->|[e' ->]]);
    eexists; (split; [reflexivity|]); proj; rewrite ?Hm; unfold load_recorded;
    by destruct (saves (metadata st) !! f).
Qed.

Lemma updateConfiguration_eq c st :
  updateConfiguration c st =
    match saveMetadata (with_metadata st (configured (metadata st) c)) with
    | (Ok _, st3) => (Ok tt, printed st3 LOG "Configuration updated")
    | (Throw e, st3) =>
        (Throw (Error ("Failed to update configuration: " +:+ message e)), st3)
    | (Unmodelled, st3) => (Unmodelled, st3)
    end.
Proof.
  unfold updateConfiguration, try_catch.
  destruct c as [[a|] [b|] [c|] [d|]];
    cbv [bind assign_if_defined update_metadata this_metadata set_metadata ret configured
         Config.autoSaveEnabled Config.autoSaveInterval Config.backupCount
         Config.migrationCompleted];
    rewrite ?with_metadata_same;
    lazymatch goal with
    | |- _ = match saveMetadata ?t with _ => _ end =>
        change (saveMetadata _) with (saveMetadata t);
        destruct (saveMetadata t) as [[[]|e|] st3]; reflexivity
    end.
Qed.

Lemma updateConfiguration_metadata c st :
  metadata (snd (updateConfiguration c st)) = configured (metadata st) c.
Proof.
  rewrite updateConfiguration_eq.
  destruct (saveMetadata _) as [r st3] eqn:Hs.
  by apply saveMetadata_frame in Hs as (Hm & _ & _ & [->|[e ->]]).
Qed.

(** ** The loop of [cleanupOrphanedMetadata] *)

Lemma cleanup_loop_eq existing tracked c st :
  cleanup_loop existing tracked c st =
    (Ok (c + Z.of_nat (length (orphans existing tracked))),
     with_metadata st (set_saves (metadata st) (pruned existing tracked (saves (metadata st))))).
Proof.
  revert c st. induction tracked as [|f tracked IH]; intros c st.
  - cbn. rewrite Z.add_0_r, set_saves_same, with_metadata_same. reflexivity.
  - cbn [cleanup_loop orphans pruned List.filter fold_left].
    destruct (array_includes existing f); cbn [negb].
    + apply IH.
    + cbv [bind update_metadata this_metadata set_metadata]. rewrite IH.
      cbn [length]. fold (orphans existing tracked). f_equal. f_equal. lia.
Qed.

Lemma array_includes_spec xs x : array_includes xs x = true <-> x ∈ xs.
Proof.
  unfold array_includes. rewrite existsb_exists.
  setoid_rewrite <- list_elem_of_In.
  split.
  - intros (y & Hy & Heq). apply String.eqb_eq in Heq. by subst.
  - intros Hx. exists x. split; [done|]. apply String.eqb_refl.
Qed.

Lemma listing_spec st x : x ∈ listing st <-> is_Some (nodes (disk st) !! x).
Proof.
  unfold listing. rewrite list_elem_of_fmap. split.
  - intros ([k v] & -> & Hin). apply elem_of_map_to_list in Hin. cbn. eauto.
  - intros [v Hv]. exists (x, v). split; [done|]. by apply elem_of_map_to_list.
Qed.

Lemma pruned_cons existing f tracked (s : gmap string Entry.t) :
  pruned existing (f :: tracked) s =
    pruned existing tracked (if array_includes existing f then s else delete f s).
Proof. reflexivity. Qed.

Lemma pruned_lookup existing tracked (s : gmap string Entry.t) k :
  pruned existing tracked s !! k =
    if decide (k ∈ tracked /\ k ∉ existing) then None else s !! k.
Proof.
  revert s. induction tracked as [|f tracked IH]; intros s.
  - cbn. case_decide as H; [|done]. destruct H as [H _]. by apply elem_of_nil in H.
  - rewrite pruned_cons.
    destruct (array_includes existing f) eqn:Hinc.
    + rewrite IH. apply array_includes_spec in Hinc.
      apply decide_ext. set_solver.
    + rewrite IH.
      assert (f ∉ existing) by (intros ?%array_includes_spec; congruence).
      destruct (decide (k = f)) as [->|Hne].
      * rewrite lookup_delete_eq. rewrite (decide_True (P := f ∈ f :: tracked /\ _)) by set_solver.
        by case_decide.
      * rewrite lookup_delete_ne by done. apply decide_ext. set_solver.
Qed.

Lemma object_keys_spec m k : k ∈ object_keys m <-> is_Some (saves m !! k).
Proof.
  unfold object_keys. rewrite list_elem_of_fmap. split.
  - intros ([k' v] & -> & Hin). apply elem_of_map_to_list in Hin. cbn. eauto.
  - intros [v Hv]. exists (k, v). split; [done|]. by apply elem_of_map_to_list.
Qed.

Lemma object_keys_NoDup m : NoDup (object_keys m).
Proof. apply NoDup_fst_map_to_list. Qed.

(** The entries that survive are those whose file is in the listing. *)
Lemma pruned_keys_lookup existing m k :
  pruned existing (object_keys m) (saves m) !! k =
    if decide (k ∈ existing) then saves m !! k else None.
Proof.
  rewrite pruned_lookup. destruct (decide (k ∈ existing)) as [Hin|Hout].
  - rewrite decide_False; [done|]. intros [_ ?]. done.
  - destruct (saves m !! k) eqn:Hk.
    + rewrite decide_True; [done|]. split; [|done]. apply object_keys_spec. by rewrite Hk.
    + by case_decide.
Qed.

Lemma pruned_size existing tracked (s : gmap string Entry.t) :
  NoDup tracked -> (forall k, k ∈ tracked -> is_Some (s !! k)) ->
  (size (pruned existing tracked s) + length (orphans existing tracked) = size s)%nat.
Proof.
  revert s. induction tracked as [|f tracked IH]; intros s Hnd Hin.
  - cbn. lia.
  - rewrite pruned_cons. apply NoDup_cons in Hnd as [Hf Hnd].
    unfold orphans. cbn [List.filter]. fold (orphans existing tracked).
    destruct (array_includes existing f); cbn [negb].
    + apply IH; [done|]. intros k Hk. apply Hin. set_solver.
    + cbn [length]. rewrite Nat.add_succ_r, IH; [|done|].
      * rewrite map_size_delete_Some by (apply Hin; set_solver).
        assert (size s <> 0%nat); [|lia].
        apply map_size_ne_0_lookup. exists f. apply Hin. set_solver.
      * intros k Hk. rewrite lookup_delete_ne by set_solver. apply Hin. set_solver.
Qed.

Lemma cleanup_eq st :
  cleanupOrphanedMetadata st =
    match fault_of (faults (disk st)) Readdir with
    | Some e =>
        (Ok 0, printed (journalled st Readdir) ERROR
                 ("Failed to cleanup orphaned metadata: "
                  +:+ message (SystemError e "scandir" (saveDirectory st) None)))
    | None =>
        let m := metadata st in
        let n := Z.of_nat (length (orphans (listing st) (object_keys m))) in
        let st1 := with_metadata (journalled st Readdir)
                     (set_saves m (pruned (listing st) (object_keys m) (saves m))) in
        if 0 <? n then
          match saveMetadata (printed (with_metadata st1 (refreshed (metadata st1)))
                                LOG "Statistics updated") with
          | (Ok _, st3) =>
              (Ok n, printed st3 LOG ("Cleaned up " +:+ number_text n
                                      +:+ " orphaned metadata entries"))
          | (Throw e, st3) =>
              (Ok 0, printed st3 ERROR ("Failed to cleanup orphaned metadata: " +:+ message e))
          | (Unmodelled, st3) => (Unmodelled, st3)
          end
        else (Ok n, st1)
    end.
Proof.
  unfold cleanupOrphanedMetadata, try_catch, bind at 1. rewrite fs_readdir_eq.
  destruct (fault_of (faults (disk st)) Readdir) as [e|]; [reflexivity|].
  fold (listing st). cbv [bind this_metadata]. rewrite cleanup_loop_eq.
  cbn [metadata journalled]. cbv zeta. rewrite Z.add_0_l.
  destruct (0 <? _) eqn:Hn; [|reflexivity].
  rewrite updateStatistics_eq.
  match goal with |- context [saveMetadata ?s] => destruct (saveMetadata s) as [[[]|e|] st3] end;
    reflexivity.
Qed.

(** ** Validation *)

Lemma validate_eq f st :
  validateSaveFileIntegrity f st =
    match fault_of (faults (disk st)) (Access f) with
    | Some e => (Ok (error_verdict f (sys_error st e "access" f)), journalled st (Access f))
    | None =>
        match nodes (disk st) !! f with
        | None =>
            (Ok (error_verdict f (sys_error st ENOENT "access" f)), journalled st (Access f))
        | Some node =>
            let st1 := journalled (journalled st (Access f)) (ReadFile f) in
            match saves (metadata st) !! f with
            | None =>
                if inherited f then
                  match fault_of (faults (disk st)) (ReadFile f) with
                  | Some e => (Ok (error_verdict f (sys_error st e "open" f)), st1)
                  | None =>
                      match node with
                      | File data => (Ok (inherited_verdict f data), st1)
                      | Directory => (Ok (error_verdict f (sys_error st EISDIR "open" f)), st1)
                      end
                  end
                else (Ok (untracked_verdict f), journalled st (Access f))
            | Some stored =>
                match fault_of (faults (disk st)) (ReadFile f) with
                | Some e => (Ok (error_verdict f (sys_error st e "open" f)), st1)
                | None =>
                    match node with
                    | File data => (Ok (checked_verdict f stored data), st1)
                    | Directory => (Ok (error_verdict f (sys_error st EISDIR "open" f)), st1)
                    end
                end
            end
        end
    end.
Proof.
  unfold validateSaveFileIntegrity, try_catch, bind at 1. rewrite fs_access_eq.
  destruct (fault_of (faults (disk st)) (Access f)) as [e|]; [reflexivity|].
  destruct (nodes (disk st) !! f) as [node|] eqn:Hn; [|reflexivity].
  cbv [bind this_metadata saves_get]. proj.
  destruct (saves (metadata st) !! f) as [stored|];
    [|destruct (inherited f); [|reflexivity]].
  all: rewrite fs_readFile_eq; proj; rewrite Hn.
  all: destruct (fault_of (faults (disk st)) (ReadFile f)) as [e|]; [reflexivity|].
  all: destruct node; reflexivity.
Qed.

Lemma same_world_refl st : same_world st st.
Proof. by repeat split. Qed.

Lemma same_world_trans st1 st2 st3 :
  same_world st1 st2 -> same_world st2 st3 -> same_world st1 st3.
Proof. unfold same_world. intros (-> & -> & ->) (-> & -> & ->). done. Qed.

Lemma validate_same_world f st : same_world st (snd (validateSaveFileIntegrity f st)).
Proof.
  rewrite validate_eq.
  repeat (match goal with |- context [match ?x with _ => _ end] => destruct x end);
    by repeat split.
Qed.

Lemma validate_is_Ok f st : exists v, fst (validateSaveFileIntegrity f st) = Ok v.
Proof.
  rewrite validate_eq.
  repeat (match goal with |- context [match ?x with _ => _ end] => destruct x end);
    by eexists.
Qed.

(** The verdict depends on the record, the directory and the disk only. *)
Lemma validate_fst_same f st st' :
  same_world st st' ->
  fst (validateSaveFileIntegrity f st') = fst (validateSaveFileIntegrity f st).
Proof.
  intros (Hm & Hd & Hdir). rewrite !validate_eq. unfold sys_error. rewrite Hm, Hd, Hdir.
  repeat (match goal with |- context [match ?x with _ => _ end] => destruct x end);
    reflexivity.
Qed.

(** The value [validateSaveFileIntegrity] returns. *)
Lemma validateAll_loop_eq fs results st :
  exists vs st',
    validateAll_loop fs results st = (Ok (fold_left tally vs results), st')
    /\ same_world st st'
    /\ map Ok vs = map (fun f => fst (validateSaveFileIntegrity f st)) fs.
Proof.
  revert results st. induction fs as [|f fs IH]; intros results st.
  - exists [], st. repeat split; reflexivity.
  - cbn [validateAll_loop map]. unfold bind.
    destruct (validate_is_Ok f st) as [v Hv].
    pose proof (validate_same_world f st) as Hw.
    destruct (validateSaveFileIntegrity f st) as [r st1]. cbn [fst snd] in *. subst r.
    destruct (IH (tally results v) st1) as (vs & st' & Heq & Hw' & Hvs).
    exists (v :: vs), st'. split; [exact Heq|]. split; [by eapply same_world_trans|].
    cbn [map fst]. f_equal. rewrite Hvs. apply map_ext. intros g.
    by apply validate_fst_same.
Qed.

Lemma tally_fields results v :
  Results.details (tally results v) = (Results.details results ++ [v])%list
  /\ Results.totalFiles (tally results v) = Results.totalFiles results + 1
  /\ Results.validFiles (tally results v)
     = Results.validFiles results + (if Validation.valid v then 1 else 0)
  /\ Results.invalidFiles (tally results v)
     = Results.invalidFiles results + (if Validation.valid v then 0 else 1)
  /\ Results.missingFiles results <= Results.missingFiles (tally results v)
     <= Results.missingFiles results + (if Validation.valid v then 0 else 1).
Proof.
  unfold tally. cbn [Results.details Results.totalFiles Results.validFiles
    Results.invalidFiles Results.missingFiles].
  repeat split; try reflexivity.
  - destruct (_ && _)%bool; lia.
  - destruct (Validation.valid v); cbn [negb andb]; [lia|].
    destruct (_ || _)%bool; lia.
Qed.

Lemma tally_fold vs results :
  let r := fold_left tally vs results in
  Results.details r = (Results.details results ++ vs)%list
  /\ Results.totalFiles r = Results.totalFiles results + Z.of_nat (length vs)
  /\ Results.validFiles r = Results.validFiles results + count_valid vs
  /\ Results.invalidFiles r = Results.invalidFiles results + count_invalid vs
  /\ Results.missingFiles results <= Results.missingFiles r
     <= Results.missingFiles results + count_invalid vs.
Proof.
  revert results. induction vs as [|v vs IH]; intros results.
  - cbv zeta. unfold count_valid, count_invalid. cbn [fold_left List.filter length].
    rewrite app_nil_r. repeat split; lia.
  - cbn [fold_left]. specialize (IH (tally results v)). cbv zeta in IH.
    destruct IH as (Hd & Ht & Hv & Hi & Hm). cbv zeta.
    destruct (tally_fields results v) as (Hd1 & Ht1 & Hv1 & Hi1 & Hm1).
    rewrite Hd, Ht, Hv, Hi, Hd1, Ht1, Hv1, Hi1.
    unfold count_valid, count_invalid in *. cbn [List.filter length].
    rewrite <- app_assoc. cbn [app].
    destruct (Validation.valid v); cbn [negb length] in *; repeat split; lia.
Qed.

Lemma validateAll_eq st :
  exists vs st',
    validateAllSaveFiles st =
      (Ok (fold_left tally vs
             {| Results.totalFiles := 0; Results.validFiles := 0; Results.invalidFiles := 0;
                Results.missingFiles := 0; Results.details := [] |}), st')
    /\ same_world st st'
    /\ map Ok vs = map (fun f => fst (validateSaveFileIntegrity f st)) (object_keys (metadata st)).
Proof.
  unfold validateAllSaveFiles, try_catch. cbv [bind this_metadata].
  match goal with |- context [validateAll_loop ?fs ?r st] =>
    destruct (validateAll_loop_eq fs r st) as (vs & st' & -> & Hw & Hvs) end.
  exists vs. eexists. split; [reflexivity|]. split; [|exact Hvs].
  destruct Hw as (? & ? & ?). by repeat split.
Qed.

(** ** One step of the store *)

Lemma cleanup_metadata st :
  let m := metadata st in
  let kept := set_saves m (pruned (listing st) (object_keys m) (saves m)) in
  metadata (snd (cleanupOrphanedMetadata st)) = m
  \/ metadata (snd (cleanupOrphanedMetadata st)) = kept
  \/ metadata (snd (cleanupOrphanedMetadata st)) = refreshed kept.
Proof.
  intros m kept. rewrite cleanup_eq.
  destruct (fault_of _ _); [by left|]. cbv zeta.
  destruct (0 <? _); [|by right; left].
  right; right.
  destruct (saveMetadata _) as [r st3] eqn:Hs.
  by apply saveMetadata_frame in Hs as (Hm & _ & _ & [->|[e ->]]).
Qed.

Lemma step_metadata st st' :
  Step st st' ->
  let m := metadata st in
  metadata st' = m
  \/ (exists f i content ts, metadata st' = registered m f i content ts)
  \/ (exists f, metadata st' = unregistered m f)
  \/ (exists f ts, metadata st' = load_recorded m f ts)
  \/ (exists c, metadata st' = configured m c)
  \/ (exists existing,
        let kept := set_saves m (pruned existing (object_keys m) (saves m)) in
        metadata st' = kept \/ metadata st' = refreshed kept).
Proof.
  intros [op st0|d st0]; cbv zeta; [|by left].
  destruct op as [f i ts|f|f ts|c| |f|]; cbn [after].
  - rewrite registerSaveFile_metadata.
    destruct (fst (fs_readFile f st0)); [right; left; eauto 10|by left|by left].
  - destruct (unregisterSaveFile_eq f st0) as (st1 & -> & Hm & _).
    right; right; left. eauto.
  - destruct (recordLoadOperation_eq f ts st0) as (st1 & -> & Hm).
    do 3 right; left. eauto.
  - rewrite updateConfiguration_metadata. do 4 right; left. eauto.
  - destruct (cleanup_metadata st0) as [H|[H|H]]; [by left| |];
      do 5 right; exists (listing st0); cbv zeta; auto.
  - left. apply validate_same_world.
  - destruct (validateAll_eq st0) as (vs & st1 & -> & Hw & _). left. apply Hw.
Qed.

Lemma refreshed_eq m :
  exists avg total, refreshed m = set_statistics m (set_sizes (statistics m) avg total).
Proof. unfold refreshed. case_bool_decide; eauto. Qed.

Lemma registered_fields m f i content ts :
  saves (registered m f i content ts) = <[f := newEntry m f i content ts]> (saves m)
  /\ totalSaves (registered m f i content ts) = totalSaves m + 1
  /\ totalSaveOperations (statistics (registered m f i content ts))
     = totalSaveOperations (statistics m) + 1
  /\ lastSave (registered m f i content ts) = Some ts
  /\ lastSuccessfulSave (statistics (registered m f i content ts)) = Some ts.
Proof.
  unfold registered. cbv zeta.
  match goal with |- context [refreshed ?x] =>
    destruct (refreshed_eq x) as (avg & total & ->) end.
  repeat split.
Qed.

Lemma newEntry_saveCount m f i content ts :
  Entry.saveCount (newEntry m f i content ts) = saveCount_of m f + 1.
Proof.
  unfold newEntry, saveCount_of. cbn [Entry.saveCount].
  destruct (saves m !! f) as [e|]; cbn [fmap option_fmap option_map]; [|reflexivity].
  by rewrite num_or_size.
Qed.

(** ** Counters and stamps along the steps *)

Lemma configured_fields m c :
  saves (configured m c) = saves m /\ totalSaves (configured m c) = totalSaves m
  /\ statistics (configured m c) = statistics m.
Proof. unfold configured. destruct c as [[?|] [?|] [?|] [?|]]; repeat split. Qed.

Lemma refreshed_fields m :
  saves (refreshed m) = saves m /\ totalSaves (refreshed m) = totalSaves m.
Proof. destruct (refreshed_eq m) as (a & t & ->). by split. Qed.

(** Along one step the global counter does not decrease, and neither does
    the count of an entry that is there before and after. *)
Lemma step_counts st st' :
  Step st st' ->
  totalSaves (metadata st) <= totalSaves (metadata st')
  /\ forall f e e',
       saves (metadata st) !! f = Some e -> saves (metadata st') !! f = Some e' ->
       Entry.saveCount e <= Entry.saveCount e'.
Proof.
  intros Hstep. apply step_metadata in Hstep. cbv zeta in Hstep.
  set (m := metadata st) in *.
  destruct Hstep as [->|[(f & i & content & ts & ->)|[(f & ->)|[(f & ts & ->)|[(c & ->)
                    |(existing & [-> | ->])]]]]].
  - split; [lia|]. intros f e e' H1 H2. rewrite H1 in H2. injection H2 as ->. lia.
  - destruct (registered_fields m f i content ts) as (Hs & Ht & _).
    rewrite Hs, Ht. split; [lia|]. intros g e e' H1 H2.
    destruct (decide (f = g)) as [->|Hne].
    + rewrite lookup_insert_eq in H2. injection H2 as <-.
      rewrite newEntry_saveCount. unfold saveCount_of. rewrite H1. lia.
    + rewrite lookup_insert_ne in H2 by done. rewrite H1 in H2. injection H2 as ->. lia.
  - unfold unregistered. destruct (saves m !! f) eqn:Hf; cbn [saves totalSaves set_saves].
    + split; [lia|]. intros g e e' H1 H2.
      apply lookup_delete_Some in H2 as [_ H2]. rewrite H1 in H2. injection H2 as ->. lia.
    + split; [lia|]. intros g e e' H1 H2. rewrite H1 in H2. injection H2 as ->. lia.
  - unfold load_recorded. cbv zeta.
    destruct (saves m !! f) as [e0|] eqn:Hf; cbn [saves totalSaves set_saves set_statistics].
    + split; [lia|]. intros g e e' H1 H2.
      destruct (decide (f = g)) as [->|Hne].
      * rewrite lookup_insert_eq in H2. injection H2 as <-. rewrite Hf in H1.
        injection H1 as ->. cbn. lia.
      * rewrite lookup_insert_ne in H2 by done. rewrite H1 in H2. injection H2 as ->. lia.
    + split; [lia|]. intros g e e' H1 H2. rewrite H1 in H2. injection H2 as ->. lia.
  - destruct (configured_fields m c) as (-> & -> & _). split; [lia|].
    intros f e e' H1 H2. rewrite H1 in H2. injection H2 as ->. lia.
  - cbn [saves totalSaves set_saves]. split; [lia|]. intros f e e' H1 H2.
    rewrite pruned_keys_lookup in H2. case_decide; [|done].
    rewrite H1 in H2. injection H2 as ->. lia.
  - destruct (refreshed_fields (set_saves m (pruned existing (object_keys m) (saves m))))
      as (-> & ->).
    cbn [saves totalSaves set_saves]. split; [lia|]. intros f e e' H1 H2.
    rewrite pruned_keys_lookup in H2. case_decide; [|done].
    rewrite H1 in H2. injection H2 as ->. lia.
Qed.

Lemma steps_totalSaves st st' :
  Steps st st' -> totalSaves (metadata st) <= totalSaves (metadata st').
Proof.
  induction 1 as [st|st st' st'' _ IH Hstep]; [lia|].
  apply step_counts in Hstep as [Hstep _]. lia.
Qed.

Lemma tracking_saveCount f st st' :
  StepsTracking f st st' -> is_Some (saves (metadata st) !! f) ->
  is_Some (saves (metadata st') !! f)
  /\ saveCount_of (metadata st) f <= saveCount_of (metadata st') f.
Proof.
  induction 1 as [st|st st' st'' _ IH Hstep Hin]; intros Hf; [split; [done|lia]|].
  destruct (IH Hf) as [[e' He'] Hle]. split; [exact Hin|].
  destruct Hin as [e'' He'']. apply step_counts in Hstep as [_ Hstep].
  specialize (Hstep f e' e'' He' He''). unfold saveCount_of in *.
  rewrite He'', He' in *. lia.
Qed.

Lemma stamped_step st st' : Step st st' -> stamped (metadata st) -> stamped (metadata st').
Proof.
  intros Hstep Hst. apply step_metadata in Hstep. cbv zeta in Hstep.
  set (m := metadata st) in *. unfold stamped in *.
  destruct Hstep as [->|[(f & i & content & ts & ->)|[(f & ->)|[(f & ts & ->)|[(c & ->)
                    |(existing & [-> | ->])]]]]]; intros g e Hg.
  - eauto.
  - destruct (registered_fields m f i content ts) as (Hs & _). rewrite Hs in Hg.
    destruct (decide (f = g)) as [->|Hne].
    + rewrite lookup_insert_eq in Hg. by injection Hg as <-.
    + rewrite lookup_insert_ne in Hg by done. eauto.
  - unfold unregistered in Hg. destruct (saves m !! f); [|eauto].
    cbn [saves set_saves] in Hg. apply lookup_delete_Some in Hg as [_ Hg]. eauto.
  - unfold load_recorded in Hg. cbv zeta in Hg.
    destruct (saves m !! f) as [e0|] eqn:Hf; cbn [saves set_saves set_statistics] in Hg; [|eauto].
    destruct (decide (f = g)) as [->|Hne].
    + rewrite lookup_insert_eq in Hg. injection Hg as <-. cbn. eauto.
    + rewrite lookup_insert_ne in Hg by done. eauto.
  - destruct (configured_fields m c) as (Hs & _). rewrite Hs in Hg. eauto.
  - cbn [saves set_saves] in Hg. rewrite pruned_keys_lookup in Hg.
    case_decide; [eauto|done].
  - destruct (refreshed_fields (set_saves m (pruned existing (object_keys m) (saves m))))
      as (Hs & _). rewrite Hs in Hg.
    cbn [saves set_saves] in Hg. rewrite pruned_keys_lookup in Hg.
    case_decide; [eauto|done].
Qed.

(** [saveMetadata] throws exactly on a disk where persisting is blocked. *)
Lemma saveMetadata_blocked st :
  persist_blocked (disk st) ->
  exists e st', saveMetadata st = (Throw (Error ("Failed to save metadata: " +:+ message e)), st')
                /\ metadata st' = metadata st /\ console st' = console st.
Proof.
  intros Hb.
  destruct (saveMetadata_cases st) as [(e & He & _)|[(e & He & _)|(_ & H1 & H2 & H3 & H4)]].
  - exists e. eexists. split; [exact He|]. by split.
  - exists e. eexists. split; [exact He|]. by split.
  - exfalso. destruct Hb as [?|[?|[?|?]]]; done.
Qed.

Lemma saveMetadata_free st :
  ~ persist_blocked (disk st) -> exists st', saveMetadata st = (Ok tt, st').
Proof.
  intros Hb.
  destruct (saveMetadata_cases st) as [(e & _ & H)|[(e & _ & _ & _ & H)|(He & _)]].
  - exfalso. apply Hb. unfold persist_blocked. tauto.
  - exfalso. apply Hb. unfold persist_blocked. tauto.
  - eauto.
Qed.

Lemma count_valid_invalid vs : count_valid vs + count_invalid vs = Z.of_nat (length vs).
Proof.
  unfold count_valid, count_invalid.
  induction vs as [|v vs IH]; [reflexivity|].
  cbn [List.filter length]. destruct (Validation.valid v); cbn [negb length]; lia.
Qed.

Lemma tally_missing vs results :
  Results.missingFiles (fold_left tally vs results)
  = Results.missingFiles results + count_where counted_missing vs.
Proof.
  unfold count_where. revert results. induction vs as [|v vs IH]; intros results.
  - cbn. lia.
  - cbn [fold_left List.filter]. rewrite IH. unfold tally. cbn [Results.missingFiles].
    fold (counted_missing v). destruct (counted_missing v); cbn [length]; lia.
Qed.

(** With a file system that answers and no directory under a tracked name,
    the verdict of a tracked file is the ENOENT error when the file is gone
    and the checksum verdict otherwise. *)
Lemma tracked_verdict f st v :
  faults (disk st) = [] ->
  is_Some (saves (metadata st) !! f) ->
  nodes (disk st) !! f <> Some Directory ->
  fst (validateSaveFileIntegrity f st) = Ok v ->
  counted_missing v = gone st f
  /\ (negb (Validation.valid v) = (gone st f || is_mismatch v)%bool)
  /\ (gone st f && is_mismatch v = false)%bool.
Proof.
  intros Hf [e He] Hd. rewrite validate_eq, Hf, He. cbn [fault_of]. unfold gone.
  destruct (nodes (disk st) !! f) as [[data|]|] eqn:Hn; [|done|]; cbn [fst]; intros [= <-].
  - rewrite bool_decide_eq_false_2 by done.
    unfold counted_missing, is_mismatch, checked_verdict.
    cbn [Validation.valid Validation.reason].
    destruct (String.eqb (calculateChecksum data) (Entry.checksum e)); by vm_compute.
  - rewrite bool_decide_eq_true_2 by done. by repeat split.
Qed.

Lemma verdict_counts st fs vs :
  faults (disk st) = [] ->
  (forall f, f ∈ fs -> is_Some (saves (metadata st) !! f)
                       /\ nodes (disk st) !! f <> Some Directory) ->
  map Ok vs = map (fun f => fst (validateSaveFileIntegrity f st)) fs ->
  count_where counted_missing vs = count_where (gone st) fs
  /\ count_invalid vs = count_where (gone st) fs + count_where is_mismatch vs.
Proof.
  intros Hf. unfold count_where, count_invalid.
  revert vs. induction fs as [|f fs IH]; intros vs Hfs Hvs.
  - destruct vs; [by cbn|discriminate].
  - destruct vs as [|v vs]; [discriminate|]. cbn [map] in Hvs. injection Hvs as Hv Hvs.
    destruct (Hfs f) as [Htr Hnd]; [set_solver|].
    destruct (tracked_verdict f st v Hf Htr Hnd (eq_sym Hv)) as (Hm & Hi & Hx).
    destruct (IH vs) as (IH1 & IH2); [intros g Hg; apply Hfs; set_solver|done|].
    cbn [List.filter]. rewrite Hm, Hi.
    destruct (gone st f), (is_mismatch v); try discriminate; cbn [orb length]; lia.
Qed.

(** ** Reconciliation *)

Lemma orphans_nil existing tracked :
  orphans existing tracked = [] <-> forall k, k ∈ tracked -> k ∈ existing.
Proof.
  induction tracked as [|f tracked IH].
  - split; [|done]. intros _ k Hk. by apply elem_of_nil in Hk.
  - unfold orphans. cbn [List.filter]. fold (orphans existing tracked).
    destruct (array_includes existing f) eqn:Hinc; cbn [negb].
    + rewrite IH. apply array_includes_spec in Hinc. set_solver.
    + split; [discriminate|]. intros H. exfalso.
      assert (f ∈ existing) as Hin%array_includes_spec by (apply H; set_solver).
      congruence.
Qed.

Lemma pruned_no_orphans existing tracked (s : gmap string Entry.t) :
  orphans existing tracked = [] -> pruned existing tracked s = s.
Proof.
  revert s. induction tracked as [|f tracked IH]; intros s; [done|].
  unfold orphans. cbn [List.filter]. fold (orphans existing tracked). rewrite pruned_cons.
  destruct (array_includes existing f); cbn [negb]; [apply IH|discriminate].
Qed.

Lemma pruned_nodes_lookup st k :
  pruned (listing st) (object_keys (metadata st)) (saves (metadata st)) !! k =
    match nodes (disk st) !! k with
    | Some _ => saves (metadata st) !! k
    | None => None
    end.
Proof.
  rewrite pruned_keys_lookup.
  destruct (nodes (disk st) !! k) as [node|] eqn:Hk.
  - rewrite decide_True; [done|]. apply listing_spec. by rewrite Hk.
  - rewrite decide_False; [done|]. intros [? ?]%listing_spec. congruence.
Qed.

Lemma orphans_count st :
  Z.of_nat (length (orphans (listing st) (object_keys (metadata st))))
  = entry_count (saves (metadata st))
    - entry_count (pruned (listing st) (object_keys (metadata st)) (saves (metadata st))).
Proof.
  unfold entry_count.
  pose proof (pruned_size (listing st) (object_keys (metadata st)) (saves (metadata st))
                (object_keys_NoDup _)) as H.
  rewrite <- H; [lia|]. intros k. apply object_keys_spec.
Qed.

Lemma persist_attempts_cons c j :
  persist_attempts (c :: j)
  = ((if bool_decide (c = WriteFile tempFile) then 1 else 0) + persist_attempts j)%nat.
Proof. unfold persist_attempts. cbn [List.filter]. by case_bool_decide. Qed.

Lemma persist_attempts_write j :
  persist_attempts (WriteFile tempFile :: j) = S (persist_attempts j).
Proof. rewrite persist_attempts_cons. by rewrite bool_decide_eq_true_2. Qed.

Lemma persist_attempts_other c j :
  c <> WriteFile tempFile -> persist_attempts (c :: j) = persist_attempts j.
Proof. intros H. rewrite persist_attempts_cons. by rewrite bool_decide_eq_false_2. Qed.

(** What one call of [saveMetadata] does to the journal and to the disk. *)
Lemma saveMetadata_effects st r st' :
  saveMetadata st = (r, st') ->
  persist_attempts (journal st') = S (persist_attempts (journal st))
  /\ faults (disk st') = faults (disk st)
  /\ (forall k, k <> tempFile -> is_Some (nodes (disk st) !! k) ->
                is_Some (nodes (disk st') !! k))
  /\ (r = Ok tt -> ~ persist_blocked (disk st)
                   /\ persisted st' = Some (JSON.stringify (toJson (metadata st))))
  /\ (r <> Ok tt -> persist_blocked (disk st)).
Proof.
  intros H. unfold persisted.
  destruct (saveMetadata_cases st) as [(e & He & Hc)|[(e & He & Hw & Ht & Hc)
                                      |(He & Hw & Ht & Hr & Hm)]];
    rewrite He in H; injection H as <- <-; proj;
    rewrite ?(persist_attempts_other (Rename _ _)) by discriminate;
    rewrite persist_attempts_write;
    (split; [reflexivity|]); (split; [reflexivity|]); split.
  - auto.
  - split; [discriminate|]. intros _. unfold persist_blocked. tauto.
  - intros k Hk Hs. destruct (decide (k = tempFile)); [done|]. by rewrite lookup_insert_ne.
  - split; [discriminate|]. intros _. unfold persist_blocked. tauto.
  - intros k Hk Hs. destruct (decide (k = metadataFile)) as [->|Hne].
    + rewrite lookup_insert_eq. eauto.
    + rewrite lookup_insert_ne, lookup_delete_ne, lookup_insert_ne by done. done.
  - split; [|done]. intros _. rewrite lookup_insert_eq. split; [|done].
    unfold persist_blocked. tauto.
Qed.

Lemma cleanup_post st :
  fault_of (faults (disk st)) Readdir = None ->
  saves (metadata st) !! tempFile = None ->
  let st1 := snd (cleanupOrphanedMetadata st) in
  faults (disk st1) = faults (disk st)
  /\ forall k, is_Some (saves (metadata st1) !! k) -> is_Some (nodes (disk st1) !! k).
Proof.
  intros Hf Htmp. cbv zeta. rewrite cleanup_eq, Hf. cbv zeta.
  set (kept := pruned (listing st) (object_keys (metadata st)) (saves (metadata st))).
  assert (Hkept : forall k, is_Some (kept !! k) ->
                            k <> tempFile /\ is_Some (nodes (disk st) !! k)).
  { intros k. unfold kept. rewrite pruned_nodes_lookup.
    destruct (nodes (disk st) !! k) eqn:Hk; [|by intros [? ?]].
    intros Hs. split; [|done]. intros ->. rewrite Htmp in Hs. by destruct Hs. }
  destruct (0 <? _).
  - destruct (saveMetadata _) as [r2 st3] eqn:Hs.
    pose proof (saveMetadata_frame _ _ _ Hs) as (Hm & _ & _ & Hr).
    pose proof (saveMetadata_effects _ _ _ Hs) as (_ & Hfl & Hnodes & _).
    proj. destruct (refreshed_fields (set_saves (metadata st) kept)) as (Hsv & _).
    assert (Hgoal : faults (disk st3) = faults (disk st)
                    /\ forall k, is_Some (saves (metadata st3) !! k) ->
                                 is_Some (nodes (disk st3) !! k)).
    { split; [exact Hfl|]. intros k. rewrite Hm, Hsv. cbn [saves set_saves].
      intros [Hne Hk]%Hkept. by apply Hnodes. }
    by destruct Hr as [->|[e ->]].
  - proj. split; [done|]. cbn [saves set_saves]. intros k [_ Hk]%Hkept. done.
Qed.

(** * JSON: parsing what was printed *)

Lemma skip_ws_spaces n s : skip_ws (spaces n s) = skip_ws s.
Proof. induction n as [|n IH]; [reflexivity|exact IH]. Qed.

Lemma skip_ws_break n s : skip_ws (break n s) = skip_ws s.
Proof. unfold break. cbn. apply skip_ws_spaces. Qed.

Lemma skip_ws_keep c r : is_ws c = false -> skip_ws (String c r) = String c r.
Proof. intros H. cbn [skip_ws]. by rewrite H. Qed.

Lemma skip_ws_drop c r : is_ws c = true -> skip_ws (String c r) = skip_ws r.
Proof. intros H. cbn [skip_ws]. by rewrite H. Qed.

Lemma skip_ws_idem s : skip_ws (skip_ws s) = skip_ws s.
Proof.
  induction s as [|c s IH]; [reflexivity|].
  cbn [skip_ws]. destruct (is_ws c) eqn:Hc; [exact IH|].
  cbn [skip_ws]. by rewrite Hc.
Qed.

Lemma parse_value_skip fuel s : parse_value fuel (skip_ws s) = parse_value fuel s.
Proof. destruct fuel; [reflexivity|]. cbn [parse_value]. by rewrite skip_ws_idem. Qed.

Lemma parse_members_skip fuel s : parse_members fuel (skip_ws s) = parse_members fuel s.
Proof. destruct fuel; [reflexivity|]. cbn [parse_members]. by rewrite skip_ws_idem. Qed.

Lemma parse_value_break fuel n s : parse_value fuel (break n s) = parse_value fuel s.
Proof. by rewrite <- parse_value_skip, skip_ws_break, parse_value_skip. Qed.

Lemma parse_members_break fuel n s : parse_members fuel (break n s) = parse_members fuel s.
Proof. by rewrite <- parse_members_skip, skip_ws_break, parse_members_skip. Qed.

(** ** Strings *)

Lemma parse_items_escape_char c rest :
  parse_items (escape_char c rest) = cons_item (Raw c) (parse_items rest).
Proof.
  destruct c as [[] [] [] [] [] [] [] []]; reflexivity.
Qed.

Lemma parse_items_escape s k :
  parse_items (escape s (String dquote k)) = Some (map Raw (list_ascii_of_string s), k).
Proof.
  induction s as [|c s IH]; [reflexivity|].
  cbn [escape]. rewrite parse_items_escape_char, IH. reflexivity.
Qed.

Lemma bytes_of_raw_items s : bytes_of_items (map Raw (list_ascii_of_string s)) = s.
Proof. induction s as [|c s IH]; [reflexivity|]. cbn. by rewrite IH. Qed.

Lemma parse_string_quote s k : parse_string (escape s (String dquote k)) = Some (s, k).
Proof. unfold parse_string. by rewrite parse_items_escape, bytes_of_raw_items. Qed.

(** ** Numbers *)

Lemma scan_digits_print u k : no_digit k -> scan_digits (print_uint u k) = (u, k).
Proof.
  intros Hk. induction u as [|u IH|u IH|u IH|u IH|u IH|u IH|u IH|u IH|u IH|u IH];
    cbn [print_uint].
  - destruct k as [|c k]; [reflexivity|]. cbn in *. by rewrite Hk.
  - cbn [scan_digits]. change (digit_of "0") with (Some D0). cbv iota beta. by rewrite IH.
  - cbn [scan_digits]. change (digit_of "1") with (Some D1). cbv iota beta. by rewrite IH.
  - cbn [scan_digits]. change (digit_of "2") with (Some D2). cbv iota beta. by rewrite IH.
  - cbn [scan_digits]. change (digit_of "3") with (Some D3). cbv iota beta. by rewrite IH.
  - cbn [scan_digits]. change (digit_of "4") with (Some D4). cbv iota beta. by rewrite IH.
  - cbn [scan_digits]. change (digit_of "5") with (Some D5). cbv iota beta. by rewrite IH.
  - cbn [scan_digits]. change (digit_of "6") with (Some D6). cbv iota beta. by rewrite IH.
  - cbn [scan_digits]. change (digit_of "7") with (Some D7). cbv iota beta. by rewrite IH.
  - cbn [scan_digits]. change (digit_of "8") with (Some D8). cbv iota beta. by rewrite IH.
  - cbn [scan_digits]. change (digit_of "9") with (Some D9). cbv iota beta. by rewrite IH.
Qed.

Lemma print_uint_head u k :
  u <> Nil -> exists c r, print_uint u k = String c r /\ numeric c = true
                          /\ Ascii.eqb c "-" = false.
Proof. destruct u; [done|..]; intros _; do 2 eexists; (split; [reflexivity|]); by split. Qed.

Lemma uint_beq_refl u : uint_beq u u = true.
Proof. induction u; cbn; auto. Qed.

Lemma terminated_no_digit k : terminated k -> no_digit k.
Proof. destruct k as [|c k]; [done|]. intros [->| ->]; reflexivity. Qed.

Lemma scan_frac_terminated k : terminated k -> scan_frac k = Some (false, k).
Proof. destruct k as [|c k]; [done|]. intros [->| ->]; reflexivity. Qed.

Lemma scan_exp_terminated k : terminated k -> scan_exp k = Some (false, k).
Proof. destruct k as [|c k]; [done|]. intros [->| ->]; reflexivity. Qed.

Lemma parse_number_unsigned u k :
  u <> Nil -> unorm u = u -> terminated k ->
  parse_number (print_uint u k) = Some (JNum (Z.of_N (N.of_uint u)), k).
Proof.
  intros Hnil Hu Hk. unfold parse_number.
  destruct (print_uint_head u k Hnil) as (c & r & Hs & _ & Hc).
  rewrite Hs, Hc, <- Hs.
  rewrite scan_digits_print by by apply terminated_no_digit.
  by rewrite Hu, uint_beq_refl, scan_frac_terminated, scan_exp_terminated.
Qed.

Lemma parse_number_negative u k :
  unorm u = u -> terminated k ->
  parse_number (String "-" (print_uint u k)) = Some (JNum (- Z.of_N (N.of_uint u)), k).
Proof.
  intros Hu Hk. unfold parse_number. cbn [Ascii.eqb Bool.eqb].
  rewrite scan_digits_print by by apply terminated_no_digit.
  by rewrite Hu, uint_beq_refl, scan_frac_terminated, scan_exp_terminated.
Qed.

Lemma to_uint_normal p : unorm (Pos.to_uint p) = Pos.to_uint p.
Proof.
  change (Pos.to_uint p) with (N.to_uint (Npos p)) at 2.
  rewrite <- (DecimalPos.Unsigned.of_to p). symmetry. apply DecimalPos.Unsigned.to_of.
Qed.

Lemma parse_number_print_Z n k :
  terminated k -> parse_number (print_Z n k) = Some (JNum n, k).
Proof.
  intros Hk. destruct n as [|p|p]; cbn [print_Z].
  - by apply (parse_number_unsigned (D0 Nil)).
  - rewrite parse_number_unsigned; [|apply DecimalPos.Unsigned.to_uint_nonnil
                                    |apply to_uint_normal|done].
    unfold N.of_uint. by rewrite DecimalPos.Unsigned.of_to.
  - rewrite parse_number_negative; [|apply to_uint_normal|done].
    unfold N.of_uint. by rewrite DecimalPos.Unsigned.of_to.
Qed.

Lemma print_Z_head n k :
  exists c r, print_Z n k = String c r /\ numeric c = true.
Proof.
  destruct n as [|p|p]; cbn [print_Z]; [by do 2 eexists| |by do 2 eexists].
  destruct (print_uint_head (Pos.to_uint p) k) as (c & r & Hs & Hc & _);
    [apply DecimalPos.Unsigned.to_uint_nonnil|eauto].
Qed.

Lemma parse_value_numeric fuel c r :
  numeric c = true -> parse_value (S fuel) (String c r) = parse_number (String c r).
Proof.
  intros H.
  destruct c as [[] [] [] [] [] [] [] []]; try (vm_compute in H; discriminate H);
    reflexivity.
Qed.

(** ** Values *)

Lemma numeric_head c : numeric c = true -> is_ws c = false /\ Ascii.eqb c "]" = false.
Proof.
  intros H.
  destruct c as [[] [] [] [] [] [] [] []]; try (vm_compute in H; discriminate H); by split.
Qed.

Lemma print_to_head ind j k :
  plain j ->
  exists c r, print_to ind j k = String c r /\ is_ws c = false /\ Ascii.eqb c "]" = false.
Proof.
  intros Hp. destruct j as [|[]|n|lit|s|[|x xs]|[|[key v] ms]]; try done;
    try (do 2 eexists; (split; [reflexivity|]); by split).
  destruct (print_Z_head n k) as (c & r & Hs & Hc). exists c, r.
  split; [exact Hs|]. by apply numeric_head.
Qed.

Lemma parse_elements_break fuel n s : parse_elements fuel (break n s) = parse_elements fuel s.
Proof. destruct fuel; [reflexivity|]. cbn [parse_elements]. by rewrite parse_value_break. Qed.

Lemma parse_value_string fuel r :
  parse_value (S fuel) (String dquote r) =
    match parse_string r with Some (str, r') => Some (JStr str, r') | None => None end.
Proof. reflexivity. Qed.

Lemma parse_value_array fuel r :
  parse_value (S fuel) (String "[" r) =
    match skip_ws r with
    | String c' r' =>
        if Ascii.eqb c' "]" then Some (JArr [], r')
        else match parse_elements fuel r with
             | Some (xs, r'') => Some (JArr xs, r'')
             | None => None
             end
    | EmptyString => None
    end.
Proof. reflexivity. Qed.

Lemma parse_value_object fuel r :
  parse_value (S fuel) (String "{" r) =
    match skip_ws r with
    | String c' r' =>
        if Ascii.eqb c' "}" then Some (JObj [], r')
        else match parse_members fuel r with
             | Some (ms, r'') => Some (JObj ms, r'')
             | None => None
             end
    | EmptyString => None
    end.
Proof. reflexivity. Qed.

Lemma print_elems_terminated pr i ind k xs :
  terminated (print_elems pr i (break ind (String "]" k)) xs).
Proof. destruct xs; cbn; auto. Qed.

Lemma print_members_terminated pr i ind k ms :
  terminated (print_members pr i (break ind (String "}" k)) ms).
Proof. destruct ms as [|[key v] ms]; cbn; auto. Qed.

(** With enough fuel, a printed value, the elements of a printed array and
    the members of a printed object are read back, and the text after them
    is left. *)
Lemma parse_print fuel :
  (forall j ind k,
      plain j -> (need j <= fuel)%nat -> terminated k ->
      parse_value fuel (print_to ind j k) = Some (j, k))
  /\ (forall xs x i ind k,
      plain (JArr (x :: xs)) -> (need (JArr (x :: xs)) <= S fuel)%nat ->
      parse_elements fuel
        (print_to i x (print_elems (print_to i) i (break ind (String "]" k)) xs))
      = Some (x :: xs, k))
  /\ (forall ms key v i ind k,
      plain (JObj ((key, v) :: ms)) -> (need (JObj ((key, v) :: ms)) <= S fuel)%nat ->
      parse_members fuel
        (print_member (print_to i) key v
           (print_members (print_to i) i (break ind (String "}" k)) ms))
      = Some ((key, v) :: ms, k)).
Proof.
  induction fuel as [|fuel (IHv & IHe & IHm)].
  { split; [|split].
    - intros j ind k _ Hn. destruct j; cbn in Hn; lia.
    - intros xs x i ind k _ Hn. cbn in Hn. lia.
    - intros ms key v i ind k _ Hn. cbn in Hn. lia. }
  split; [|split].
  - intros j ind k Hp Hn Hk.
    destruct j as [|[]|n|lit|s|[|x xs]|[|[key v] ms]]; try done.
    + destruct (print_Z_head n k) as (c & r & Hs & Hc). cbn [print_to].
      rewrite Hs, parse_value_numeric by done. rewrite <- Hs.
      by apply parse_number_print_Z.
    + cbn [print_to]. unfold quote. by rewrite parse_value_string, parse_string_quote.
    + cbn [print_to]. rewrite parse_value_array, skip_ws_break.
      destruct Hp as [Hx Hxs].
      destruct (print_to_head (2 + ind) x
                  (print_elems (print_to (2 + ind)) (2 + ind) (break ind (String "]" k)) xs) Hx)
        as (c & r & Hs & Hws & Hc).
      rewrite Hs, skip_ws_keep, Hc, <- Hs by done.
      rewrite parse_elements_break, IHe; [reflexivity|by split|exact Hn].
    + cbn [print_to]. rewrite parse_value_object, skip_ws_break.
      unfold print_member at 1, quote at 1. rewrite skip_ws_keep by reflexivity.
      change (Ascii.eqb dquote "}") with false. cbv iota.
      change (String dquote (escape key _)) with
        (print_member (print_to (2 + ind)) key v
           (print_members (print_to (2 + ind)) (2 + ind) (break ind (String "}" k)) ms)).
      rewrite parse_members_break, IHm; [reflexivity|exact Hp|exact Hn].
  - intros xs x i ind k [Hx Hxs] Hn. cbn [parse_elements].
    cbn [need map list_sum fold_right] in Hn.
    rewrite IHv; [|exact Hx|lia|apply print_elems_terminated].
    destruct xs as [|y ys].
    + cbn [print_elems]. rewrite skip_ws_break. reflexivity.
    + cbn [print_elems]. rewrite skip_ws_keep by reflexivity.
      change (Ascii.eqb "," ",") with true. cbv iota.
      rewrite parse_elements_break, IHe; [reflexivity|exact Hxs|].
      cbn [need map list_sum fold_right] in Hn |- *. lia.
  - intros ms key v i ind k [Hv Hms] Hn. cbn [need map list_sum fold_right snd] in Hn.
    unfold print_member, quote. cbn [parse_members]. rewrite skip_ws_keep by reflexivity.
    change (Ascii.eqb dquote dquote) with true. cbv iota.
    rewrite parse_string_quote. rewrite skip_ws_keep by reflexivity.
    change (Ascii.eqb ":" ":") with true. cbv iota.
    rewrite <- parse_value_skip, skip_ws_drop, parse_value_skip by reflexivity.
    rewrite IHv; [|exact Hv|lia|apply print_members_terminated].
    destruct ms as [|[key' v'] ms'].
    + cbn [print_members]. rewrite skip_ws_break. reflexivity.
    + cbn [print_members]. rewrite skip_ws_keep by reflexivity.
      change (Ascii.eqb "," ",") with true. cbv iota.
      rewrite parse_members_break, IHm; [reflexivity|exact Hms|].
      cbn [need map list_sum fold_right snd] in Hn |- *. lia.
Qed.

(** ** The fuel [JSON.parse] gives is enough *)

Lemma length_spaces n s : String.length (spaces n s) = (n + String.length s)%nat.
Proof. induction n as [|n IH]; [reflexivity|]. cbn. by rewrite IH. Qed.

Lemma length_break n s : String.length (break n s) = S (n + String.length s).
Proof. unfold break. cbn. by rewrite length_spaces. Qed.

Lemma length_escape_char c k : (String.length k < String.length (escape_char c k))%nat.
Proof.
  unfold escape_char.
  repeat (match goal with |- context [if ?b then _ else _] => destruct b end); cbn; lia.
Qed.

Lemma length_escape s k : (String.length k <= String.length (escape s k))%nat.
Proof.
  induction s as [|c s IH]; [reflexivity|]. cbn [escape].
  pose proof (length_escape_char c (escape s k)). lia.
Qed.

Lemma length_quote s k : (2 + String.length k <= String.length (quote s k))%nat.
Proof. unfold quote. cbn. pose proof (length_escape s (String dquote k)). cbn in *. lia. Qed.

Lemma length_print_uint u k :
  u <> Nil -> (1 + String.length k <= String.length (print_uint u k))%nat.
Proof.
  assert (H : forall u, (String.length k <= String.length (print_uint u k))%nat).
  { clear u. induction u; cbn; lia. }
  destruct u; [done|..]; intros _; cbn; pose proof (H u); lia.
Qed.

Lemma length_print_Z n k : (1 + String.length k <= String.length (print_Z n k))%nat.
Proof.
  destruct n as [|p|p]; cbn [print_Z]; [cbn; lia| |].
  - apply length_print_uint, DecimalPos.Unsigned.to_uint_nonnil.
  - pose proof (length_print_uint (Pos.to_uint p) k
                  (DecimalPos.Unsigned.to_uint_nonnil p)). cbn. lia.
Qed.

Lemma length_append a b : String.length (a +:+ b) = (String.length a + String.length b)%nat.
Proof.
  induction a as [|c a IH]; [reflexivity|].
  change (String.length (String c (a +:+ b)) = S (String.length a + String.length b)).
  cbn [String.length]. by rewrite IH.
Qed.

Lemma list_sum_cons a l : list_sum (a :: l) = (a + list_sum l)%nat.
Proof. reflexivity. Qed.

Lemma length_print bound :
  forall j ind k, (need j <= bound)%nat -> plain j ->
    (need j + String.length k <= String.length (print_to ind j k))%nat.
Proof.
  induction bound as [|bound IH]; intros j ind k Hb Hp.
  { destruct j; cbn in Hb; lia. }
  destruct j as [|[]|n|lit|s|[|x xs]|[|[key v] ms]]; try done;
    try (cbn [need print_to map]; rewrite length_append;
         cbn [String.length list_sum fold_right]; lia).
  - cbn [need print_to]. apply length_print_Z.
  - cbn [need print_to]. pose proof (length_quote s k). lia.
  - cbn [print_to]. cbn [String.length]. rewrite length_break.
    destruct Hp as [Hx Hxs]. cbn [need map] in Hb |- *. rewrite list_sum_cons in Hb |- *.
    assert (Hrest : forall l close,
      fold_right (fun x acc => plain x /\ acc) True l ->
      (list_sum (map (fun x => S (need x)) l) <= bound)%nat ->
      (list_sum (map (fun x => S (need x)) l) + String.length close
       <= String.length (print_elems (print_to (2 + ind)) (2 + ind) close l))%nat).
    { induction l as [|y l IHl]; intros close Hl Hn; [cbn; lia|].
      cbn [print_elems String.length map] in *. rewrite list_sum_cons in Hn |- *.
      rewrite length_break. destruct Hl as [Hy Hl].
      pose proof (IH y (2 + ind)%nat
                    (print_elems (print_to (2 + ind)) (2 + ind) close l) ltac:(lia) Hy) as Hy'.
      specialize (IHl close Hl ltac:(lia)). lia. }
    pose proof (IH x (2 + ind)%nat
                  (print_elems (print_to (2 + ind)) (2 + ind) (break ind (String "]" k)) xs)
                  ltac:(lia) Hx) as Hx'.
    specialize (Hrest xs (break ind (String "]" k)) Hxs ltac:(lia)).
    rewrite length_break in Hrest. cbn [String.length] in Hrest. lia.
  - cbn [print_to]. cbn [String.length]. rewrite length_break.
    destruct Hp as [Hv Hms]. cbn [need map snd] in Hb |- *. rewrite list_sum_cons in Hb |- *.
    assert (Hmember : forall key v rest,
      plain v -> (need v <= bound)%nat ->
      (need v + String.length rest
       <= String.length (print_member (print_to (2 + ind)) key v rest))%nat).
    { intros key' v' rest Hv' Hn'. unfold print_member.
      pose proof (length_quote key' (String ":" (String " " (print_to (2 + ind) v' rest)))) as Hq.
      cbn [String.length] in Hq. pose proof (IH v' (2 + ind)%nat rest Hn' Hv'). lia. }
    assert (Hrest : forall l close,
      fold_right (fun kv acc => plain (snd kv) /\ acc) True l ->
      (list_sum (map (fun kv => S (need (snd kv))) l) <= bound)%nat ->
      (list_sum (map (fun kv => S (need (snd kv))) l) + String.length close
       <= String.length (print_members (print_to (2 + ind)) (2 + ind) close l))%nat).
    { induction l as [|[key' v'] l IHl]; intros close Hl Hn; [cbn; lia|].
      cbn [print_members String.length map snd] in *. rewrite list_sum_cons in Hn |- *.
      rewrite length_break. destruct Hl as [Hy Hl].
      pose proof (Hmember key' v'
                    (print_members (print_to (2 + ind)) (2 + ind) close l) Hy ltac:(lia)) as Hy'.
      specialize (IHl close Hl ltac:(lia)). lia. }
    pose proof (Hmember key v
                  (print_members (print_to (2 + ind)) (2 + ind) (break ind (String "}" k)) ms) Hv
                  ltac:(lia)) as Hv'.
    specialize (Hrest ms (break ind (String "}" k)) Hms ltac:(lia)).
    rewrite length_break in Hrest. cbn [String.length] in Hrest. lia.
Qed.

(** [JSON.parse(JSON.stringify(j, null, 2))] is [j] for a value whose
    numbers are integers. *)
Lemma parse_stringify j : plain j -> JSON.parse (JSON.stringify j) = Some j.
Proof.
  intros Hp. unfold JSON.parse, JSON.stringify.
  destruct (parse_print (2 * String.length (print_to 0 j "") + 2)) as (Hv & _).
  rewrite Hv; [reflexivity|exact Hp| |exact I].
  pose proof (length_print (need j) j 0%nat "" (le_n _) Hp). lia.
Qed.

(** * The record as a document, and back *)

Lemma entry_roundtrip e : entryOfJson (entryJson e) = Some e.
Proof. destruct e as [? ? ? ? ? ? ? ? ? [ts|]]; reflexivity. Qed.

Lemma statistics_roundtrip st : statisticsOfJson (statisticsJson st) = Some st.
Proof. destruct st as [? ? [?|] [?|] ? ?]; reflexivity. Qed.

Lemma savesOfMembers_encoded (l : list (string * Entry.t)) acc :
  savesOfMembers (map (fun kv => (fst kv, entryJson (snd kv))) l) acc
  = Some (fold_left (fun a kv => <[fst kv := snd kv]> a) l acc).
Proof.
  revert acc. induction l as [|[k e] l IH]; intros acc; [reflexivity|].
  cbn [map savesOfMembers fst snd fold_left]. by rewrite entry_roundtrip, IH.
Qed.

Lemma fold_insert_map_to_list (s : gmap string Entry.t) :
  fold_left (fun a kv => <[fst kv := snd kv]> a) (map_to_list s) ∅ = s.
Proof.
  rewrite <- fold_left_rev_right.
  transitivity (list_to_map (rev (map_to_list s)) : gmap string Entry.t).
  - generalize (rev (map_to_list s)). intros l.
    induction l as [|[k e] l IH]; [reflexivity|]. cbn. by rewrite IH.
  - rewrite <- (list_to_map_to_list s) at 2.
    assert (Hperm : rev (map_to_list s) ≡ₚ map_to_list s).
    { rewrite rev_alt. apply reverse_Permutation. }
    apply list_to_map_proper; [|exact Hperm].
    rewrite Hperm. apply NoDup_fst_map_to_list.
Qed.

Lemma saves_roundtrip s : savesOfJson (savesJson s) = Some s.
Proof.
  unfold savesOfJson, savesJson. by rewrite savesOfMembers_encoded, fold_insert_map_to_list.
Qed.

Lemma merge_roundtrip d m : merge d (toJson m) = Some m.
Proof.
  unfold merge, toJson.
  change (known metadataKeys _) with true. cbv iota.
  unfold over.
  repeat match goal with
         | |- context [get ?key ?ms] =>
             let v := eval cbv [get String.eqb Ascii.eqb Bool.eqb] in (get key ms) in
             change (get key ms) with v
         end.
  cbv iota beta. rewrite saves_roundtrip, statistics_roundtrip.
  destruct m as [? [?|] ? ? ? ? ? ? ?]; reflexivity.
Qed.

Lemma plain_entryJson e : plain (entryJson e).
Proof. destruct e as [? ? ? ? ? ? ? ? ? [ts|]]; cbn; tauto. Qed.

Lemma plain_savesJson s : plain (savesJson s).
Proof.
  unfold savesJson. cbn [plain]. induction (map_to_list s) as [|[k e] l IH]; [exact I|].
  cbn [map fold_right fst snd]. split; [apply plain_entryJson|exact IH].
Qed.

Lemma plain_toJson m : plain (toJson m).
Proof.
  destruct m as [? [?|] ? ? ? ? ? ? [? ? [?|] [?|] ? ?]];
    cbn [plain fold_right snd toJson statisticsJson jopt statistics saves
         totalSaveOperations totalLoadOperations lastSuccessfulSave lastSuccessfulLoad
         averageSaveSize totalDiskUsage version lastSave autoSaveEnabled autoSaveInterval
         backupCount totalSaves migrationCompleted];
    repeat split; apply plain_savesJson.
Qed.

(** What was written by [JSON.stringify] is read back by [JSON.parse] and
    merges into the record it came from, whatever the record merged into. *)
Lemma parse_merge_roundtrip d m :
  exists doc, JSON.parse (JSON.stringify (toJson m)) = Some doc /\ merge d doc = Some m.
Proof.
  exists (toJson m). split; [apply parse_stringify, plain_toJson|apply merge_roundtrip].
Qed.

(** * Loading *)

Lemma quarantine_other iso : quarantine iso <> tempFile /\ quarantine iso <> metadataFile.
Proof. split; cbv [quarantine String.append]; discriminate. Qed.

Lemma persisted_lookup st text :
  persisted st = Some text -> nodes (disk st) !! metadataFile = Some (File text).
Proof.
  unfold persisted. destruct (nodes (disk st) !! metadataFile) as [[?|]|]; congruence.
Qed.

(** The three ways [loadMetadata] goes once the file was read. *)
Lemma loadMetadata_read iso st text :
  fault_of (faults (disk st)) (Access metadataFile) = None ->
  fault_of (faults (disk st)) (ReadFile metadataFile) = None ->
  nodes (disk st) !! metadataFile = Some (File text) ->
  let st1 := journalled (journalled st (Access metadataFile)) (ReadFile metadataFile) in
  loadMetadata iso st =
    match JSON.parse text with
    | Some doc =>
        match merge (metadata st) doc with
        | Some m' => (Ok tt, printed (with_metadata st1 m') LOG "Metadata loaded successfully")
        | None => (Unmodelled, st1)
        end
    | None =>
        bind (backupCorruptedMetadata iso) (fun _ => saveMetadata)
          (printed st1 WARN "Corrupted metadata file, creating backup and resetting")
    end.
Proof.
  intros Ha Hr Hn st1. unfold loadMetadata, try_catch, bind at 1.
  rewrite fs_access_eq, Ha, Hn. unfold bind at 1.
  rewrite fs_readFile_eq. proj. rewrite Hr, Hn. fold st1.
  unfold bind at 1, JSON_parse.
  destruct (JSON.parse text) as [doc|]; [|reflexivity].
  cbv [ret bind this_metadata]. change (metadata st1) with (metadata st).
  destruct (merge (metadata st) doc) as [m'|]; reflexivity.
Qed.

(** [backupCorruptedMetadata] always returns: it copies the file, or it
    prints a warning and leaves the disk as it is. *)
Lemma backupCorruptedMetadata_cases iso st text :
  nodes (disk st) !! metadataFile = Some (File text) ->
  let q := quarantine iso in
  let copied := fault_of (faults (disk st)) (CopyFile metadataFile q) = None
                /\ nodes (disk st) !! q <> Some Directory in
  exists st1,
    backupCorruptedMetadata iso st = (Ok tt, st1)
    /\ metadata st1 = metadata st /\ saveDirectory st1 = saveDirectory st
    /\ faults (disk st1) = faults (disk st)
    /\ (forall k, k <> q -> nodes (disk st1) !! k = nodes (disk st) !! k)
    /\ (copied -> nodes (disk st1) !! q = Some (File text))
    /\ (~ copied ->
        exists e, console st1
                  = (WARN, "Could not backup corrupted metadata: " +:+ message e) :: console st).
Proof.
  intros Hn q copied. unfold backupCorruptedMetadata, try_catch.
  cbv [bind this_saveDirectory]. fold (quarantine iso). fold q.
  destruct (fs_copyFile metadataFile q st) as [r st1] eqn:Hc.
  apply fs_call_inv in Hc as [(e & -> & -> & Hc)|(a & n1 & -> & -> & Hf & Hact)].
  - eexists. split; [reflexivity|]. proj. repeat split; try done.
    + intros [Hc1 Hc2]. exfalso. destruct Hc as [Hc|[_ Hc]]; [congruence|].
      rewrite Hn in Hc. destruct (nodes (disk st) !! q) as [[?|]|]; congruence.
    + intros _. by eexists.
  - rewrite Hn in Hact.
    assert (Hq : nodes (disk st) !! q <> Some Directory
                 /\ n1 = <[q := File text]> (nodes (disk st))).
    { destruct (nodes (disk st) !! q) as [[?|]|]; inversion Hact; split; done. }
    destruct Hq as [Hq ->].
    eexists. split; [reflexivity|]. proj. repeat split; try done.
    + intros k Hk. by rewrite lookup_insert_ne.
    + intros _. apply lookup_insert_eq.
    + intros Hnot. exfalso. apply Hnot. by split.
Qed.

(** * Checks of the runtime models against known values *)

Example sha256_abc :
  Sha256.digest_hex "abc"
  = "ba7816bf8f01cfea414140de5dae2223b00361a396177a9cb410ff61f20015ad".
Proof. vm_compute. reflexivity. Qed.

Example sha256_empty :
  Sha256.digest_hex ""
  = "e3b0c44298fc1c149afbf4c8996fb92427ae41e4649b934ca495991b7852b855".
Proof. vm_compute. reflexivity. Qed.

Example sha256_two_blocks :
  Sha256.digest_hex "abcdbcdecdefdefgefghfghighijhijkijkljklmklmnlmnomnopnopq"
  = "248d6a61d20638b8e5c026930c3e6039a33ce45964ff2167f6ecedd419db06c1".
Proof. vm_compute. reflexivity. Qed.

Example parse_rejects_trailing_comma : JSON.parse "[1,]" = None.
Proof. vm_compute. reflexivity. Qed.

Example parse_rejects_leading_zero : JSON.parse "[01]" = None.
Proof. vm_compute. reflexivity. Qed.

Example parse_keeps_duplicates :
  JSON.get "a" [("a", JNum 1); ("b", JNull); ("a", JBool true)] = Some (JBool true).
Proof. reflexivity. Qed.

(** The scenario of the specification: a.sav is valid after its
    registration and a mismatch once its bytes change on disk. *)
Example overwritten_file_is_a_mismatch :
  fst (validateSaveFileIntegrity "a.sav"
         (with_disk run1 {| nodes := <["a.sav" := File "z"]> (nodes (disk run1));
                            faults := [] |}))
  = Ok (checked_verdict "a.sav"
          {| Entry.filename := "a.sav"; Entry.checksum := calculateChecksum "x";
             Entry.size := 1; Entry.created := 1000; Entry.lastModified := 1000;
             Entry.isBackup := false; Entry.saveCount := 1;
             Entry.gameVersion := "unknown"; Entry.playerLevel := 0;
             Entry.lastAccessed := None |} "z")
  /\ calculateChecksum "x" <> calculateChecksum "z".
Proof. split; vm_compute; [reflexivity|discriminate]. Qed.

(** * The claims *)

(** C1 as amended: after every registration that read its file (whatever calls
    came before, so in every sequence of calls), [totalDiskUsage] is the sum
    of the sizes of the entries and [averageSaveSize] is that sum divided by
    the number of entries and rounded to the nearest integer, halves upwards;
    on the constructor's record, which has no entry, both are 0; and in a
    sequence of registrations alone this holds after every call, failed ones
    included. *)
Theorem C1_statistics_after_registration :
  (forall f i ts st content,
      fst (fs_readFile f st) = Ok content ->
      statistics_fresh (metadata (after (RegisterSaveFile f i ts) st)))
  /\ (forall dir d, statistics_fresh (metadata (construct dir d))
                    /\ averageSaveSize (statistics (metadata (construct dir d))) = 0
                    /\ totalDiskUsage (statistics (metadata (construct dir d))) = 0)
  /\ (forall st, RegisteredOnly st -> statistics_fresh (metadata st)).
Proof.
  assert (Hreg : forall f i ts st content,
             fst (fs_readFile f st) = Ok content ->
             statistics_fresh (metadata (after (RegisterSaveFile f i ts) st))).
  { intros f i ts st content Hread. cbn [after].
    rewrite registerSaveFile_metadata, Hread. apply refreshed_fresh. }
  split; [exact Hreg|]. split.
  - intros dir d. repeat split.
  - induction 1 as [dir d|f i ts st _ IH|d st _ IH]; [by repeat split| |exact IH].
    destruct (fst (fs_readFile f st)) as [content|e|] eqn:Hread; [by eapply Hreg|..];
      cbn [after]; by rewrite registerSaveFile_metadata, Hread.
Qed.

(** C1 as amended, on the second registration of the two-file run. *)
Lemma C1_witness : statistics_fresh (metadata run2).
Proof.
  destruct C1_statistics_after_registration as [Hreg _].
  apply (Hreg "b.sav" noInfo 2000 run1 "yy"). vm_compute. reflexivity.
Defined.

(** C1 as stated fails: with files of 1 and 2 bytes registered the average
    is 2, which is neither 3/2 nor its integer part; and after b.sav is
    unregistered the statistics still show the 3 bytes of both files. *)
Lemma C1_counterexample :
  ~ statistics_exact (metadata run2)
  /\ averageSaveSize (statistics (metadata run2))
     <> entries_total (saves (metadata run2)) / entry_count (saves (metadata run2))
  /\ totalDiskUsage (statistics (metadata run3)) = 3
  /\ entries_total (saves (metadata run3)) = 1.
Proof.
  conjuncts; try (vm_compute; reflexivity).
  - intros [_ H]. vm_compute in H. discriminate.
  - vm_compute. discriminate.
Qed.

(** C2 as amended: when persisting fails, [registerSaveFile] and
    [updateConfiguration] throw an [Error] that carries the failure to the
    caller, [unregisterSaveFile] prints the failure and returns normally, and
    in all three the record keeps the change made before the attempt to
    persist. *)
Theorem C2_persist_failure :
  forall st, persist_blocked (disk st) ->
    (forall f i ts content,
        fst (fs_readFile f st) = Ok content ->
        exists e st',
          registerSaveFile f i ts st =
            (Throw (Error ("Failed to register save file " +:+ f
                           +:+ ": Failed to save metadata: " +:+ message e)), st')
          /\ metadata st' = registered (metadata st) f i content ts
          /\ metadata st' <> metadata st)
    /\ (forall f entry,
        saves (metadata st) !! f = Some entry ->
        exists e st',
          unregisterSaveFile f st = (Ok tt, st')
          /\ console st' = (ERROR, "Failed to unregister save file " +:+ f
                                   +:+ ": Failed to save metadata: " +:+ message e)
                           :: console st
          /\ saves (metadata st') !! f = None)
    /\ (forall c,
        exists e st',
          updateConfiguration c st =
            (Throw (Error ("Failed to update configuration: Failed to save metadata: "
                           +:+ message e)), st')
          /\ metadata st' = configured (metadata st) c).
Proof.
  intros st Hb. split; [|split].
  - intros f i ts content Hread.
    destruct (fs_readFile f st) as [r st1] eqn:Hr. cbn [fst] in Hread. subst r.
    rewrite (registerSaveFile_readable _ _ _ _ _ _ Hr). cbv zeta.
    match goal with |- context [saveMetadata ?s] =>
      destruct (saveMetadata_blocked s Hb) as (e & st' & -> & Hm & _) end.
    exists e, st'. split; [reflexivity|]. proj. split; [exact Hm|].
    rewrite Hm. intros Heq.
    destruct (registered_fields (metadata st) f i content ts) as (_ & Ht & _).
    rewrite Heq in Ht. lia.
  - intros f entry Hf.
    unfold unregisterSaveFile, saves_get, try_catch, bind at 1, this_metadata. rewrite Hf.
    cbv [bind set_metadata].
    match goal with |- context [saveMetadata ?s] =>
      destruct (saveMetadata_blocked s Hb) as (e & st' & -> & Hm & Hc) end.
    exists e. eexists. split; [reflexivity|]. proj. rewrite Hm, Hc. split; [reflexivity|].
    cbn [saves set_saves]. apply lookup_delete_eq.
  - intros c. rewrite updateConfiguration_eq.
    match goal with |- context [saveMetadata ?s] =>
      destruct (saveMetadata_blocked s Hb) as (e & st' & -> & Hm & _) end.
    exists e, st'. split; [reflexivity|]. exact Hm.
Qed.

(** C2 as amended, on the directory that denies writing. *)
Lemma C2_witness :
  exists e st',
    registerSaveFile "a.sav" noInfo 1000 locked0 =
      (Throw (Error ("Failed to register save file a.sav: Failed to save metadata: "
                     +:+ message e)), st')
    /\ metadata st' <> metadata locked0.
Proof.
  assert (Hb : persist_blocked (disk locked0)).
  { left. vm_compute. discriminate. }
  destruct (C2_persist_failure locked0 Hb) as [Hreg _].
  destruct (Hreg "a.sav" noInfo 1000 "x") as (e & st' & Hrun & _ & Hne).
  - vm_compute. reflexivity.
  - exists e, st'. split; [exact Hrun|exact Hne].
Defined.

(** C2 as stated fails: with writing denied the registration throws, yet the
    record has changed (it now counts one save and tracks a.sav); and
    unregistering that entry returns normally although persisting failed,
    with the entry gone from the record. *)
Lemma C2_counterexample :
  persist_blocked (disk locked0)
  /\ fst (registerSaveFile "a.sav" noInfo 1000 locked0)
     = Throw (Error ("Failed to register save file a.sav: Failed to save metadata: "
                     +:+ "EACCES: permission denied, open '/saves/metadata.json.tmp'"))
  /\ totalSaves (metadata locked0) = 0
  /\ totalSaves (metadata locked1) = 1
  /\ is_Some (saves (metadata locked1) !! "a.sav")
  /\ persist_blocked (disk locked1)
  /\ fst (unregisterSaveFile "a.sav" locked1) = Ok tt
  /\ saves (metadata (snd (unregisterSaveFile "a.sav" locked1))) !! "a.sav" = None.
Proof.
  conjuncts; try (vm_compute; reflexivity).
  - left. vm_compute. discriminate.
  - vm_compute. eauto.
  - left. vm_compute. discriminate.
Qed.

(** C3 as amended: when the directory can be listed, the call deletes from
    the record, in place, exactly the entries whose filename is not in the
    listing and adds none.  If it deleted nothing it returns 0 and neither
    recomputes the statistics nor persists.  If it deleted something it
    recomputes the statistics and makes one attempt to persist; it returns the
    number deleted when that attempt succeeds and 0 when it fails.  When the
    directory cannot be listed it returns 0 and leaves the record alone. *)
Theorem C3_cleanup_prunes_orphans st :
  (fault_of (faults (disk st)) Readdir = None ->
   exists r st',
     cleanupOrphanedMetadata st = (Ok r, st')
     /\ (forall k, saves (metadata st') !! k =
                     match nodes (disk st) !! k with
                     | Some _ => saves (metadata st) !! k
                     | None => None
                     end)
     /\ let removed := entry_count (saves (metadata st)) - entry_count (saves (metadata st')) in
        0 <= removed
        /\ (removed = 0 ->
            r = 0 /\ metadata st' = metadata st /\ journal st' = Readdir :: journal st)
        /\ (0 < removed ->
            statistics_fresh (metadata st')
            /\ persist_attempts (journal st') = S (persist_attempts (journal st))
            /\ (~ persist_blocked (disk st) ->
                r = removed
                /\ persisted st' = Some (JSON.stringify (toJson (metadata st'))))
            /\ (persist_blocked (disk st) -> r = 0)))
  /\ (forall e, fault_of (faults (disk st)) Readdir = Some e ->
      exists st', cleanupOrphanedMetadata st = (Ok 0, st')
                  /\ metadata st' = metadata st /\ journal st' = Readdir :: journal st).
Proof.
  split; [|intros e He; rewrite cleanup_eq, He; by eexists].
  intros Hf. rewrite cleanup_eq, Hf. cbv zeta.
  pose proof (orphans_count st) as Hn.
  set (n := Z.of_nat (length (orphans (listing st) (object_keys (metadata st))))) in *.
  set (kept := pruned (listing st) (object_keys (metadata st)) (saves (metadata st))) in *.
  assert (Hlk : forall k, kept !! k = match nodes (disk st) !! k with
                                      | Some _ => saves (metadata st) !! k
                                      | None => None
                                      end) by apply pruned_nodes_lookup.
  destruct (0 <? n) eqn:Hpos.
  - apply Z.ltb_lt in Hpos.
    destruct (saveMetadata _) as [r2 st3] eqn:Hs.
    pose proof (saveMetadata_frame _ _ _ Hs) as (Hm & _ & _ & Hr).
    pose proof (saveMetadata_effects _ _ _ Hs) as (Hj & _ & _ & Hok & Hko).
    proj.
    destruct (refreshed_fields (set_saves (metadata st) kept)) as (Hsv & _).
    assert (Hsaves : saves (metadata st3) = kept) by (by rewrite Hm, Hsv).
    rewrite persist_attempts_other in Hj by discriminate.
    assert (Hcommon : forall r msg lvl,
      (r = n \/ r = 0) -> (~ persist_blocked (disk st) -> r2 = Ok tt -> r = n) ->
      (persist_blocked (disk st) -> r2 <> Ok tt -> r = 0) ->
      exists r' st', (Ok r, printed st3 lvl msg) = (Ok r', st') /\
        (forall k, saves (metadata st') !! k =
                     match nodes (disk st) !! k with
                     | Some _ => saves (metadata st) !! k
                     | None => None
                     end)
        /\ let removed := entry_count (saves (metadata st)) - entry_count (saves (metadata st')) in
           0 <= removed
           /\ (removed = 0 ->
               r' = 0 /\ metadata st' = metadata st /\ journal st' = Readdir :: journal st)
           /\ (0 < removed ->
               statistics_fresh (metadata st')
               /\ persist_attempts (journal st') = S (persist_attempts (journal st))
               /\ (~ persist_blocked (disk st) ->
                   r' = removed
                   /\ persisted st' = Some (JSON.stringify (toJson (metadata st'))))
               /\ (persist_blocked (disk st) -> r' = 0))).
    { intros r msg lvl Hr' Hfree Hblk. exists r. eexists. split; [reflexivity|]. proj.
      rewrite Hsaves. split; [exact Hlk|]. cbv zeta. rewrite <- Hn.
      split; [lia|]. split; [lia|]. intros _.
      split; [rewrite Hm; apply refreshed_fresh|]. split; [exact Hj|]. split.
      - intros Hnb. destruct Hr as [->|[e ->]].
        + split; [by apply Hfree|]. destruct Hok as [_ Hp]; [done|].
          unfold persisted in *. proj. rewrite Hp. by rewrite Hm.
        + exfalso. apply Hnb. by apply Hko.
      - intros Hb. destruct Hr as [->|[e ->]].
        + exfalso. by destruct Hok as [? _].
        + by apply Hblk. }
    destruct Hr as [->|[e ->]].
    + apply Hcommon; [by left|done|done].
    + apply Hcommon; [by right|done|done].
  - apply Z.ltb_ge in Hpos.
    assert (Hz : n = 0) by (subst n; lia).
    assert (Hnil : orphans (listing st) (object_keys (metadata st)) = []).
    { apply length_zero_iff_nil. subst n. lia. }
    assert (Hkept : kept = saves (metadata st)) by (by apply pruned_no_orphans).
    exists n. eexists. split; [reflexivity|]. proj. cbn [saves set_saves].
    split; [exact Hlk|]. cbv zeta. rewrite <- Hn.
    split; [lia|]. split; [|lia]. intros _.
    rewrite Hkept, set_saves_same. done.
Qed.

(** C3 as amended, on the run whose two files have vanished. *)
Lemma C3_witness :
  exists r st',
    cleanupOrphanedMetadata emptied2 = (Ok r, st')
    /\ forall k, saves (metadata st') !! k =
                   match nodes (disk emptied2) !! k with
                   | Some _ => saves (metadata emptied2) !! k
                   | None => None
                   end.
Proof.
  destruct (C3_cleanup_prunes_orphans emptied2) as [H _].
  destruct H as (r & st' & Hrun & Hlk & _).
  - vm_compute. reflexivity.
  - exists r, st'. split; [exact Hrun|exact Hlk].
Defined.

(** C3 as stated fails.  With both files present nothing is persisted (the
    claim has one persist on every call).  With writing denied one entry is
    deleted and the call returns 0, not 1.  And two orphans cost one attempt
    to persist where two calls of [unregisterSaveFile] make two, and those
    leave the statistics as they were. *)
Lemma C3_counterexample :
  (fst (cleanupOrphanedMetadata run2) = Ok 0
   /\ persist_attempts (journal (after CleanupOrphanedMetadata run2))
      = persist_attempts (journal run2))
  /\ (fst (cleanupOrphanedMetadata locked2) = Ok 0
      /\ size (saves (metadata locked2)) = 1%nat
      /\ size (saves (metadata (after CleanupOrphanedMetadata locked2))) = 0%nat)
  /\ (fst (cleanupOrphanedMetadata emptied2) = Ok 2
      /\ persist_attempts (journal (after CleanupOrphanedMetadata emptied2))
         = S (persist_attempts (journal emptied2))
      /\ persist_attempts
           (journal (after (UnregisterSaveFile "b.sav")
                       (after (UnregisterSaveFile "a.sav") emptied2)))
         = S (S (persist_attempts (journal emptied2)))
      /\ totalDiskUsage (statistics (metadata (after CleanupOrphanedMetadata emptied2))) = 0
      /\ totalDiskUsage
           (statistics (metadata (after (UnregisterSaveFile "b.sav")
                                    (after (UnregisterSaveFile "a.sav") emptied2)))) = 3).
Proof.
  conjuncts; vm_compute; reflexivity.
Qed.

(** C4. After [saveMetadata] has returned, a manager constructed on the
    same directory that loads the file (the file system answering the access
    and the read) ends with a record equal to the one that was persisted. *)
Theorem C4_persist_then_load st st' iso :
  saveMetadata st = (Ok tt, st') ->
  fault_of (faults (disk st')) (Access metadataFile) = None ->
  fault_of (faults (disk st')) (ReadFile metadataFile) = None ->
  exists st'',
    loadMetadata iso (construct (saveDirectory st) (disk st')) = (Ok tt, st'')
    /\ metadata st'' = metadata st.
Proof.
  intros Hsave Ha Hr.
  apply saveMetadata_effects in Hsave as (_ & _ & _ & Hok & _).
  destruct Hok as [_ Hp]; [reflexivity|]. apply persisted_lookup in Hp.
  rewrite (loadMetadata_read iso (construct (saveDirectory st) (disk st')) _ Ha Hr Hp).
  destruct (parse_merge_roundtrip defaultMetadata (metadata st)) as (doc & -> & Hm).
  cbn [metadata construct]. rewrite Hm. by eexists.
Qed.

(** C4, on the record of the two-file run. *)
Lemma C4_witness :
  exists st'',
    loadMetadata "2024-01-01T00:00:00.000Z"
      (construct (saveDirectory run2) (disk (snd (saveMetadata run2)))) = (Ok tt, st'')
    /\ metadata st'' = metadata run2.
Proof.
  apply (C4_persist_then_load run2 (snd (saveMetadata run2))); vm_compute; reflexivity.
Defined.

(** C5. A manager constructed on a directory whose metadata.json is a file
    that [JSON.parse] rejects (the file system answering the access and the
    read, and persisting not being blocked) loads without throwing: the file
    is copied to metadata_corrupted_<timestamp>.json in the same directory,
    the timestamp being the ISO time with colons and dots replaced by dashes,
    or a warning is printed when the copy fails; the record is the
    constructor's empty record and it is persisted. *)
Theorem C5_corrupted_metadata_is_reset dir d iso text :
  nodes d !! metadataFile = Some (File text) ->
  JSON.parse text = None ->
  fault_of (faults d) (Access metadataFile) = None ->
  fault_of (faults d) (ReadFile metadataFile) = None ->
  ~ persist_blocked d ->
  let q := quarantine iso in
  let copied := fault_of (faults d) (CopyFile metadataFile q) = None
                /\ nodes d !! q <> Some Directory in
  exists st',
    loadMetadata iso (construct dir d) = (Ok tt, st')
    /\ metadata st' = defaultMetadata
    /\ persisted st' = Some (JSON.stringify (toJson defaultMetadata))
    /\ (copied -> nodes (disk st') !! q = Some (File text))
    /\ (~ copied ->
        exists e, In (WARN, "Could not backup corrupted metadata: " +:+ message e)
                     (console st')).
Proof.
  intros Hn Hparse Ha Hr Hfree q copied.
  rewrite (loadMetadata_read iso (construct dir d) text Ha Hr Hn), Hparse.
  set (st0 := printed _ WARN _).
  destruct (backupCorruptedMetadata_cases iso st0 text Hn)
    as (st1 & Hb & Hm1 & Hd1 & Hf1 & Hk1 & Hcopy & Hwarn).
  unfold bind. rewrite Hb.
  destruct (quarantine_other iso) as [Hq1 Hq2].
  assert (Hfree1 : ~ persist_blocked (disk st1)).
  { intros Hblk. apply Hfree. unfold persist_blocked in *.
    rewrite Hf1, !Hk1 in Hblk by done. exact Hblk. }
  destruct (saveMetadata st1) as [r st2] eqn:Hs.
  pose proof (saveMetadata_frame _ _ _ Hs) as (Hm2 & _ & _ & _).
  pose proof (saveMetadata_effects _ _ _ Hs) as (_ & _ & _ & Hok & Hko).
  assert (r = Ok tt) as ->.
  { destruct r as [[]| |]; [reflexivity| |]; exfalso; apply Hfree1, Hko; discriminate. }
  destruct Hok as [_ Hp]; [reflexivity|].
  exists st2. split; [reflexivity|]. rewrite Hm2, Hm1. split; [reflexivity|].
  rewrite Hp, Hm1. split; [reflexivity|]. split.
  - intros Hc. specialize (Hcopy Hc).
    destruct (saveMetadata_cases st1) as [(e & He & _)|[(e & He & _)|(He & _)]];
      rewrite He in Hs; try discriminate. injection Hs as <-. proj.
    rewrite lookup_insert_ne, lookup_delete_ne, lookup_insert_ne by done. exact Hcopy.
  - intros Hc. destruct (Hwarn Hc) as (e & Hcons). exists e.
    destruct (saveMetadata_cases st1) as [(e' & He & _)|[(e' & He & _)|(He & _)]];
      rewrite He in Hs; try discriminate. injection Hs as <-. proj.
    rewrite Hcons. right. left. reflexivity.
Qed.

(** C5, on a directory whose metadata.json holds a broken text. *)
Lemma C5_witness :
  exists st',
    loadMetadata "2024-01-01T00:00:00.000Z" (construct "/saves" corrupted_disk) = (Ok tt, st')
    /\ metadata st' = defaultMetadata
    /\ nodes (disk st') !! "metadata_corrupted_2024-01-01T00-00-00-000Z.json"
       = Some (File "{ oops").
Proof.
  destruct (C5_corrupted_metadata_is_reset "/saves" corrupted_disk
              "2024-01-01T00:00:00.000Z" "{ oops") as (st' & Hrun & Hm & _ & Hq & _).
  - vm_compute. reflexivity.
  - vm_compute. reflexivity.
  - vm_compute. reflexivity.
  - vm_compute. reflexivity.
  - intros [H|[H|[H|H]]]; vm_compute in H; congruence.
  - exists st'. split; [exact Hrun|]. split; [exact Hm|].
    apply Hq. split; vm_compute; [reflexivity|discriminate].
Defined.

(** C6 as amended: when the file system answers the access and the read,
    the verdict for a file absent from the directory is the validation error
    that carries ENOENT, whether the file is tracked or not, and it differs
    from the untracked and the mismatch verdicts; for a file that is present
    and has no entry it is the untracked verdict, provided the filename is
    not a property name of [Object.prototype] and no call has changed the
    prototype chain of [saves] ([Plain]); for a tracked regular file it is
    valid exactly when the digest of the file's bytes equals the stored
    checksum, and it carries both checksums.  Proved besides: for a regular
    file without entry whose name [Object.prototype] defines, the lookup
    finds the inherited value and the verdict is the checksum mismatch with
    no stored checksum. *)
Theorem C6_validation_verdicts f st :
  fault_of (faults (disk st)) (Access f) = None ->
  fault_of (faults (disk st)) (ReadFile f) = None ->
  exists v,
    fst (validateSaveFileIntegrity f st) = Ok v
    /\ Validation.filename v = f
    /\ (nodes (disk st) !! f = None ->
          v = error_verdict f (sys_error st ENOENT "access" f)
          /\ Validation.valid v = false
          /\ includes (Validation.reason v) "ENOENT" = true
          /\ Validation.reason v <> "Checksum mismatch - file may be corrupted"
          /\ Validation.reason v <> "No metadata found for file")
    /\ (Plain st ->
        is_Some (nodes (disk st) !! f) -> saves (metadata st) !! f = None ->
        inherited f = false ->
          v = untracked_verdict f)
    /\ (forall data,
          Plain st ->
          nodes (disk st) !! f = Some (File data) -> saves (metadata st) !! f = None ->
          inherited f = true ->
          v = inherited_verdict f data)
    /\ (forall data stored,
          nodes (disk st) !! f = Some (File data) -> saves (metadata st) !! f = Some stored ->
          (Validation.valid v = true <-> calculateChecksum data = Entry.checksum stored)
          /\ Validation.storedChecksum v = Some (Entry.checksum stored)
          /\ Validation.currentChecksum v = Some (calculateChecksum data)
          /\ (Validation.valid v = false ->
              Validation.reason v = "Checksum mismatch - file may be corrupted")).
Proof.
  intros Ha Hr. rewrite validate_eq, Ha, Hr.
  destruct (nodes (disk st) !! f) as [node|] eqn:Hn.
  - destruct (saves (metadata st) !! f) as [stored|] eqn:Hs.
    + destruct node as [data|]; eexists; (split; [reflexivity|]); (split; [reflexivity|]);
        (split; [discriminate|]); (split; [discriminate|]); (split; [discriminate|]);
        intros data' stored' [= <-] [= <-].
      cbn [checked_verdict Validation.valid Validation.storedChecksum
           Validation.currentChecksum Validation.reason].
      rewrite String.eqb_eq. repeat split; try tauto.
      intros Hv. by rewrite Hv.
    + destruct (inherited f) eqn:Hi.
      * destruct node as [data|]; eexists; (split; [reflexivity|]); (split; [reflexivity|]);
          (split; [discriminate|]); (split; [discriminate|]);
          (split; [|discriminate]).
        -- by intros data' _ [= <-] _ _.
        -- discriminate.
      * eexists. split; [reflexivity|]. split; [reflexivity|].
        split; [discriminate|]. split; [done|]. split; discriminate.
  - eexists. split; [reflexivity|]. split; [reflexivity|].
    split; [|split; [by intros _ [? ?]|split; discriminate]].
    intros _. repeat split; discriminate.
Qed.

(** The example runs are plain. *)
Lemma plain_run0 : Plain run0.
Proof. apply plain_new. Qed.

Lemma plain_run1 : Plain run1.
Proof. apply (plain_call (RegisterSaveFile "a.sav" noInfo 1000)); [apply plain_run0|discriminate]. Qed.

Lemma plain_run2 : Plain run2.
Proof. apply (plain_call (RegisterSaveFile "b.sav" noInfo 2000)); [apply plain_run1|discriminate]. Qed.

(** C6 as amended, after the registration of a.sav: on a.sav, which is
    tracked, and on b.sav, which is in the directory and has no entry. *)
Lemma C6_witness :
  (exists v, fst (validateSaveFileIntegrity "a.sav" run1) = Ok v /\ Validation.valid v = true)
  /\ fst (validateSaveFileIntegrity "b.sav" run1) = Ok (untracked_verdict "b.sav").
Proof.
  split.
  - destruct (C6_validation_verdicts "a.sav" run1) as (v & Hv & _ & _ & _ & _ & Hchk).
    + vm_compute. reflexivity.
    + vm_compute. reflexivity.
    + exists v. split; [exact Hv|].
      destruct (Hchk "x" {| Entry.filename := "a.sav";
                            Entry.checksum := calculateChecksum "x"; Entry.size := 1;
                            Entry.created := 1000; Entry.lastModified := 1000;
                            Entry.isBackup := false; Entry.saveCount := 1;
                            Entry.gameVersion := "unknown"; Entry.playerLevel := 0;
                            Entry.lastAccessed := None |}) as (Hiff & _).
      * vm_compute. reflexivity.
      * vm_compute. reflexivity.
      * apply Hiff. vm_compute. reflexivity.
  - destruct (C6_validation_verdicts "b.sav" run1) as (v & Hv & _ & _ & Hun & _).
    + vm_compute. reflexivity.
    + vm_compute. reflexivity.
    + rewrite Hv. f_equal. apply Hun.
      * exact plain_run1.
      * vm_compute. eauto.
      * vm_compute. reflexivity.
      * vm_compute. reflexivity.
Defined.

(** C6 as stated fails: ghost.sav has no entry, and because it is not in the
    directory either, the verdict is the ENOENT validation error, not the
    untracked verdict. *)
Lemma C6_counterexample :
  saves (metadata run0) !! "ghost.sav" = None
  /\ nodes (disk run0) !! "ghost.sav" = None
  /\ fst (validateSaveFileIntegrity "ghost.sav" run0)
     = Ok (error_verdict "ghost.sav" (sys_error run0 ENOENT "access" "ghost.sav"))
  /\ Validation.reason (error_verdict "ghost.sav" (sys_error run0 ENOENT "access" "ghost.sav"))
     = "Validation error: ENOENT: no such file or directory, access '/saves/ghost.sav'"
  /\ fst (validateSaveFileIntegrity "ghost.sav" run0) <> Ok (untracked_verdict "ghost.sav").
Proof.
  conjuncts; try (vm_compute; reflexivity).
  vm_compute. discriminate.
Qed.

(** C7. [validateAllSaveFiles] returns; its details are the verdicts of
    [validateSaveFileIntegrity] for every tracked filename, one per key and in
    the order of the keys, failures included; [totalFiles] is the number of
    entries, [validFiles + invalidFiles = totalFiles], each of the two counts
    its kind of verdict, and [missingFiles] is at most [invalidFiles].  When
    the file system answers every call and no tracked name is a directory,
    [missingFiles] is the number of tracked files gone from the directory and
    [invalidFiles] is that number plus the number of checksum mismatches. *)
Theorem C7_validateAll_report st :
  exists results st',
    validateAllSaveFiles st = (Ok results, st')
    /\ same_world st st'
    /\ map Ok (Results.details results)
       = map (fun f => fst (validateSaveFileIntegrity f st)) (object_keys (metadata st))
    /\ (forall f, is_Some (saves (metadata st) !! f) <-> f ∈ object_keys (metadata st))
    /\ Results.totalFiles results = entry_count (saves (metadata st))
    /\ Results.validFiles results + Results.invalidFiles results = Results.totalFiles results
    /\ Results.validFiles results = count_valid (Results.details results)
    /\ Results.invalidFiles results = count_invalid (Results.details results)
    /\ 0 <= Results.missingFiles results <= Results.invalidFiles results
    /\ (faults (disk st) = [] ->
        (forall f, is_Some (saves (metadata st) !! f) ->
                   nodes (disk st) !! f <> Some Directory) ->
        Results.missingFiles results = count_where (gone st) (object_keys (metadata st))
        /\ Results.invalidFiles results
           = Results.missingFiles results
             + count_where is_mismatch (Results.details results)).
Proof.
  destruct (validateAll_eq st) as (vs & st' & Hrun & Hw & Hvs).
  eexists. exists st'. split; [exact Hrun|]. split; [exact Hw|].
  match goal with |- context [fold_left tally vs ?r0] =>
    destruct (tally_fold vs r0) as (Hd & Ht & Hv & Hi & Hm);
    pose proof (tally_missing vs r0) as Hmiss end.
  cbv zeta in *. cbn [Results.details Results.totalFiles Results.validFiles
    Results.invalidFiles Results.missingFiles app] in *.
  rewrite Hd, Ht, Hv, Hi.
  assert (Hlen : length vs = size (saves (metadata st))).
  { apply (f_equal (@length _)) in Hvs. rewrite !length_map in Hvs.
    rewrite Hvs. unfold object_keys. by rewrite length_map, length_map_to_list. }
  split; [exact Hvs|]. split; [intros f; symmetry; apply object_keys_spec|].
  pose proof (count_valid_invalid vs). unfold entry_count. rewrite <- Hlen.
  conjuncts; try lia.
  intros Hf Hdir.
  destruct (verdict_counts st (object_keys (metadata st)) vs Hf) as (H1 & H2); [|done|].
  { intros f Hin%object_keys_spec. split; [done|by apply Hdir]. }
  rewrite Hmiss. lia.
Qed.

(** C7, on the run whose two files have vanished: both are missing. *)
Lemma C7_witness :
  exists results st',
    validateAllSaveFiles emptied2 = (Ok results, st')
    /\ Results.missingFiles results = 2
    /\ Results.invalidFiles results
       = Results.missingFiles results + count_where is_mismatch (Results.details results).
Proof.
  destruct (C7_validateAll_report emptied2)
    as (results & st' & Hrun & _ & _ & _ & _ & _ & _ & _ & _ & Hexact).
  destruct Hexact as [Hm Hi].
  - reflexivity.
  - intros f _. vm_compute. discriminate.
  - exists results, st'. split; [exact Hrun|]. split; [|exact Hi].
    rewrite Hm. vm_compute. reflexivity.
Defined.

(** C8. A registration that returns sets the entry's [saveCount] to its
    previous value plus one (1 for a filename that was not tracked) and adds
    exactly one to [totalSaves] and to [statistics.totalSaveOperations]; when
    the file cannot be read the call throws and the record is unchanged;
    along every step of the store (any call, any change of the directory)
    [totalSaves] does not decrease, nor does the [saveCount] of an entry
    present before and after the step; so [totalSaves] never decreases along
    any sequence of steps, nor does the [saveCount] of an entry for as long as
    the entry is in the record. *)
Theorem C8_registration_counters :
  (forall f i ts st r st',
      registerSaveFile f i ts st = (Ok r, st') ->
      saveCount_of (metadata st') f = saveCount_of (metadata st) f + 1
      /\ (saves (metadata st) !! f = None -> saveCount_of (metadata st') f = 1)
      /\ totalSaves (metadata st') = totalSaves (metadata st) + 1
      /\ totalSaveOperations (statistics (metadata st'))
         = totalSaveOperations (statistics (metadata st)) + 1)
  /\ (forall f i ts st e,
      fst (fs_readFile f st) = Throw e ->
      exists msg st',
        registerSaveFile f i ts st = (Throw (Error msg), st')
        /\ metadata st' = metadata st)
  /\ (forall st st',
      Step st st' ->
      totalSaves (metadata st) <= totalSaves (metadata st')
      /\ forall f e e',
           saves (metadata st) !! f = Some e -> saves (metadata st') !! f = Some e' ->
           Entry.saveCount e <= Entry.saveCount e')
  /\ (forall st st', Steps st st' -> totalSaves (metadata st) <= totalSaves (metadata st'))
  /\ (forall f st st',
      StepsTracking f st st' -> is_Some (saves (metadata st) !! f) ->
      saveCount_of (metadata st) f <= saveCount_of (metadata st') f).
Proof.
  split; [|split; [|split; [|split]]].
  - intros f i ts st r st' Hrun.
    pose proof (registerSaveFile_metadata f i ts st) as Hm. rewrite Hrun in Hm. cbn [snd] in Hm.
    destruct (fs_readFile f st) as [[content|e|] st1] eqn:Hread; cbn [fst] in Hm.
    + destruct (registered_fields (metadata st) f i content ts) as (Hs & Ht & Ho & _).
      rewrite Hm, Ht, Ho.
      assert (Hc : saveCount_of (registered (metadata st) f i content ts) f
                   = saveCount_of (metadata st) f + 1).
      { unfold saveCount_of at 1. rewrite Hs, lookup_insert_eq. apply newEntry_saveCount. }
      repeat split; try done.
      intros Hnone. rewrite Hc. unfold saveCount_of. by rewrite Hnone.
    + rewrite (registerSaveFile_unreadable _ _ _ _ _ _ Hread) in Hrun. discriminate.
    + by apply fs_readFile_inv in Hread as [_ ?].
  - intros f i ts st e Hread.
    destruct (fs_readFile f st) as [r st1] eqn:Hr. cbn [fst] in Hread. subst r.
    rewrite (registerSaveFile_unreadable _ _ _ _ _ _ Hr). by do 2 eexists.
  - apply step_counts.
  - apply steps_totalSaves.
  - intros f st st' Hpath Hf. by apply tracking_saveCount.
Qed.

(** C8, on the run that registers a.sav in the two-file directory. *)
Lemma C8_witness :
  saveCount_of (metadata run1) "a.sav" = saveCount_of (metadata run0) "a.sav" + 1
  /\ totalSaves (metadata run1) = totalSaves (metadata run0) + 1.
Proof.
  destruct C8_registration_counters as [Hreg _].
  destruct (Hreg "a.sav" noInfo 1000 run0
              (saves (metadata run1) !! "a.sav") run1) as (H1 & _ & H2 & _).
  - vm_compute. reflexivity.
  - split; assumption.
Defined.

(** C9 as amended: provided no entry is named metadata.json.tmp, a second
    call of [cleanupOrphanedMetadata], made on the state and the directory
    the first call left, deletes nothing and returns 0. *)
Theorem C9_second_cleanup_removes_nothing st :
  saves (metadata st) !! tempFile = None ->
  let st1 := snd (cleanupOrphanedMetadata st) in
  fst (cleanupOrphanedMetadata st1) = Ok 0
  /\ metadata (snd (cleanupOrphanedMetadata st1)) = metadata st1.
Proof.
  intros Htmp st1.
  destruct (fault_of (faults (disk st)) Readdir) as [e|] eqn:Hf.
  - assert (Hst1 : faults (disk st1) = faults (disk st)).
    { unfold st1. rewrite cleanup_eq, Hf. reflexivity. }
    rewrite cleanup_eq, Hst1, Hf. by split.
  - destruct (cleanup_post st Hf Htmp) as (Hfl & Hin). fold st1 in Hfl, Hin.
    rewrite cleanup_eq, Hfl, Hf. cbv zeta.
    assert (Hnil : orphans (listing st1) (object_keys (metadata st1)) = []).
    { apply orphans_nil. intros k Hk%object_keys_spec. apply listing_spec. by apply Hin. }
    rewrite Hnil. cbn [length Z.of_nat Z.ltb Z.compare fst snd]. proj.
    rewrite pruned_no_orphans by done. by rewrite set_saves_same.
Qed.

(** C9 as amended, on the run whose two files have vanished: the first
    call removes both entries, the second returns 0. *)
Lemma C9_witness :
  fst (cleanupOrphanedMetadata (snd (cleanupOrphanedMetadata emptied2))) = Ok 0.
Proof.
  destruct (C9_second_cleanup_removes_nothing emptied2) as [H _].
  - vm_compute. reflexivity.
  - exact H.
Defined.

(** C9 as stated fails: the record tracks metadata.json.tmp, which is in the
    directory at the first call; that call removes the entry of old.sav,
    returns 1 and persists, which renames metadata.json.tmp away; the second
    call, with nothing else changed, then removes the entry of
    metadata.json.tmp and returns 1. *)
Lemma C9_counterexample :
  is_Some (saves (metadata left3) !! tempFile)
  /\ is_Some (nodes (disk left3) !! tempFile)
  /\ fst (cleanupOrphanedMetadata left3) = Ok 1
  /\ left4 = snd (cleanupOrphanedMetadata left3)
  /\ is_Some (saves (metadata left4) !! tempFile)
  /\ fst (cleanupOrphanedMetadata left4) = Ok 1
  /\ saves (metadata left5) !! tempFile = None.
Proof.
  conjuncts; try (vm_compute; reflexivity); vm_compute; eauto.
Qed.

(** C10. In every state the store reaches from the constructor's record,
    every entry has [created] equal to [lastModified]; a registration that
    read its file stamps both with the time of the call, also for a
    filename that was tracked before. *)
Theorem C10_created_equals_lastModified :
  (forall st, Reachable st -> stamped (metadata st))
  /\ (forall f i ts st content,
      fst (fs_readFile f st) = Ok content ->
      exists e, saves (metadata (after (RegisterSaveFile f i ts) st)) !! f = Some e
                /\ Entry.created e = ts /\ Entry.lastModified e = ts).
Proof.
  split.
  - induction 1 as [dir d|st st' _ IH Hstep].
    + intros f e H. cbn in H. by rewrite lookup_empty in H.
    + by eapply stamped_step.
  - intros f i ts st content Hread. cbn [after].
    rewrite registerSaveFile_metadata, Hread.
    destruct (registered_fields (metadata st) f i content ts) as (Hs & _).
    rewrite Hs, lookup_insert_eq. by eexists.
Qed.

(** C10, on the entry of b.sav after two registrations. *)
Lemma C10_witness :
  Reachable run2
  /\ Entry.created <$> saves (metadata run2) !! "b.sav"
     = Entry.lastModified <$> saves (metadata run2) !! "b.sav".
Proof.
  destruct C10_created_equals_lastModified as [Hinv _].
  assert (Hreach : Reachable run2).
  { apply reach_step with (st := run1); [|apply step_call].
    apply reach_step with (st := run0); [|apply step_call].
    apply reach_bootstrap. }
  split; [exact Hreach|].
  destruct (saves (metadata run2) !! "b.sav") as [e|] eqn:He; [|reflexivity].
  cbn [fmap option_fmap option_map]. f_equal. exact (Hinv run2 Hreach "b.sav" e He).
Defined.

(** * Further properties of the methods *)

(** ** Persisting *)

(** What [saveMetadata] does to the nodes other than its two files. *)
Lemma saveMetadata_nodes st r st' :
  saveMetadata st = (r, st') ->
  forall k, k <> metadataFile -> k <> tempFile ->
            nodes (disk st') !! k = nodes (disk st) !! k.
Proof.
  intros H k Hk1 Hk2.
  destruct (saveMetadata_cases st) as [(e & He & _)|[(e & He & _)|(He & _)]];
    rewrite He in H; injection H as <- <-; proj; [reflexivity| |].
  - by rewrite lookup_insert_ne.
  - by rewrite lookup_insert_ne, lookup_delete_ne, lookup_insert_ne.
Qed.

(** X1. When [saveMetadata] throws, the error is an [Error] whose message
    starts with "Failed to save metadata: " and goes on with the message of
    the failed call, the record is as it was, and so is every file of the
    directory except metadata.json.tmp: in particular metadata.json still
    holds what it held before the call. *)
Theorem saveMetadata_failure_keeps_file st e st' :
  saveMetadata st = (Throw e, st') ->
  (exists cause, e = Error ("Failed to save metadata: " +:+ message cause))
  /\ metadata st' = metadata st
  /\ nodes (disk st') !! metadataFile = nodes (disk st) !! metadataFile
  /\ (forall k, k <> tempFile -> nodes (disk st') !! k = nodes (disk st) !! k).
Proof.
  intros H.
  destruct (saveMetadata_cases st) as [(c & He & _)|[(c & He & _)|(He & _)]];
    rewrite He in H; [| |discriminate]; injection H as <- <-; proj.
  - split; [by exists c|]. by repeat split.
  - split; [by exists c|]. split; [reflexivity|].
    split; [by rewrite lookup_insert_ne|].
    intros k Hk. by rewrite lookup_insert_ne.
Qed.

Lemma saveMetadata_failure_keeps_file_witness :
  fst (saveMetadata left2)
  = Throw (Error ("Failed to save metadata: EIO: i/o error, rename "
                  +:+ "'/saves/metadata.json.tmp' -> '/saves/metadata.json'"))
  /\ nodes (disk (snd (saveMetadata left2))) !! metadataFile = None
  /\ nodes (disk (snd (saveMetadata left2))) !! "old.sav" = Some (File "data").
Proof.
  split; [vm_compute; reflexivity|].
  destruct (saveMetadata_failure_keeps_file left2
              (Error ("Failed to save metadata: EIO: i/o error, rename "
                      +:+ "'/saves/metadata.json.tmp' -> '/saves/metadata.json'"))
              (snd (saveMetadata left2))) as (_ & _ & _ & Hk).
  - vm_compute. reflexivity.
  - split; (rewrite Hk; [vm_compute; reflexivity|discriminate]).
Defined.

(** X2. When [saveMetadata] returns, metadata.json holds the text of the
    record, the temporary file is gone (also one that was there before the
    call), no other file of the directory has changed, the record is as it
    was, and the file system saw one write of the temporary file followed by
    one rename. *)
Theorem saveMetadata_success_postcondition st st' :
  saveMetadata st = (Ok tt, st') ->
  nodes (disk st') !! metadataFile = Some (File (JSON.stringify (toJson (metadata st))))
  /\ nodes (disk st') !! tempFile = None
  /\ (forall k, k <> metadataFile -> k <> tempFile ->
                nodes (disk st') !! k = nodes (disk st) !! k)
  /\ metadata st' = metadata st
  /\ journal st' = Rename tempFile metadataFile :: WriteFile tempFile :: journal st.
Proof.
  intros H. split; [|split; [|split; [by eapply saveMetadata_nodes|]]].
  - apply saveMetadata_effects in H as (_ & _ & _ & Hok & _).
    destruct Hok as [_ Hp]; [reflexivity|]. by apply persisted_lookup.
  - destruct (saveMetadata_cases st) as [(c & He & _)|[(c & He & _)|(He & _)]];
      rewrite He in H; try discriminate. injection H as <-. proj.
    rewrite lookup_insert_ne by discriminate. apply lookup_delete_eq.
  - destruct (saveMetadata_cases st) as [(c & He & _)|[(c & He & _)|(He & _)]];
      rewrite He in H; try discriminate. injection H as <-. by proj.
Qed.

Lemma saveMetadata_success_postcondition_witness :
  nodes (disk (snd (saveMetadata run2))) !! tempFile = None
  /\ metadata (snd (saveMetadata run2)) = metadata run2.
Proof.
  destruct (saveMetadata_success_postcondition run2 (snd (saveMetadata run2)))
    as (_ & Ht & _ & Hm & _).
  - vm_compute. reflexivity.
  - split; [exact Ht|exact Hm].
Defined.

(** ** Loading *)

Lemma fs_access_inv p st r st' :
  fs_access p st = (r, st') ->
  st' = journalled st (Access p)
  /\ (r = Ok tt \/ exists c, r = Throw (sys_error st c "access" p)).
Proof.
  rewrite fs_access_eq.
  destruct (fault_of _ _); [|destruct (nodes (disk st) !! p)];
    intros [= <- <-]; eauto.
Qed.

Lemma fs_readFile_error p st e :
  fst (fs_readFile p st) = Throw e -> exists c, e = sys_error st c "open" p.
Proof.
  rewrite fs_readFile_eq.
  destruct (fault_of _ _); [|destruct (nodes (disk st) !! p) as [[?|]|]];
    cbn [fst]; intros [= <-]; eauto.
Qed.

Lemma fs_readFile_journalled p c st :
  fst (fs_readFile p (journalled st c)) = fst (fs_readFile p st).
Proof. rewrite !fs_readFile_eq. unfold sys_error. proj. by repeat case_match. Qed.

Lemma saveMetadata_console st r st' :
  saveMetadata st = (r, st') ->
  (r = Ok tt /\ console st' = (LOG, "Metadata saved successfully") :: console st)
  \/ (r <> Ok tt /\ console st' = console st).
Proof.
  intros H.
  destruct (saveMetadata_cases st) as [(c & He & _)|[(c & He & _)|(He & _)]];
    rewrite He in H; injection H as <- <-; proj; [right|right|left]; by split.
Qed.

(** X3. On a directory without metadata.json (the file system answering the
    access), [loadMetadata] prints that it creates the file, keeps the record
    it has and persists it: it returns with metadata.json holding that
    record when persisting goes through, and otherwise throws the error of
    [saveMetadata] as it is, without the prefix of a failed load. *)
Theorem loadMetadata_first_run iso st :
  nodes (disk st) !! metadataFile = None ->
  fault_of (faults (disk st)) (Access metadataFile) = None ->
  exists r st',
    loadMetadata iso st = (r, st')
    /\ metadata st' = metadata st
    /\ In (LOG, "No existing metadata found, creating new metadata file") (console st')
    /\ (~ persist_blocked (disk st) ->
        r = Ok tt /\ persisted st' = Some (JSON.stringify (toJson (metadata st))))
    /\ (persist_blocked (disk st) ->
        exists cause, r = Throw (Error ("Failed to save metadata: " +:+ message cause))).
Proof.
  intros Hn Ha. unfold loadMetadata, try_catch, bind at 1.
  rewrite fs_access_eq, Ha, Hn.
  change (bool_decide (code (sys_error st ENOENT "access" metadataFile) = Some "ENOENT"))
    with true. cbv iota. cbv [bind console_log print].
  match goal with |- context [saveMetadata ?s] =>
    destruct (saveMetadata s) as [r st'] eqn:Hs end.
  exists r, st'.
  pose proof (saveMetadata_frame _ _ _ Hs) as (Hm & _ & _ & Hr).
  pose proof (saveMetadata_effects _ _ _ Hs) as (_ & _ & _ & Hok & Hko).
  pose proof (saveMetadata_console _ _ _ Hs) as Hc. proj.
  split; [reflexivity|]. split; [exact Hm|]. split.
  - destruct Hc as [[_ ->]|[_ ->]]; cbn; auto.
  - split.
    + intros Hfree. destruct Hr as [->|[c ->]].
      * split; [reflexivity|]. by destruct Hok.
      * exfalso. apply Hfree, Hko. discriminate.
    + intros Hb. destruct Hr as [->|[c ->]]; [|by exists c].
      exfalso. by destruct Hok.
Qed.

Lemma loadMetadata_first_run_witness :
  exists r st',
    loadMetadata "2024-01-01T00:00:00.000Z" run0 = (r, st')
    /\ metadata st' = metadata run0
    /\ In (LOG, "No existing metadata found, creating new metadata file") (console st').
Proof.
  destruct (loadMetadata_first_run "2024-01-01T00:00:00.000Z" run0)
    as (r & st' & Hrun & Hm & Hc & _).
  - vm_compute. reflexivity.
  - vm_compute. reflexivity.
  - exists r, st'. split; [exact Hrun|]. split; [exact Hm|exact Hc].
Defined.

(** X4. When the access to metadata.json, or the read that follows a granted
    access, fails with an error whose code is not ENOENT (the name is a
    directory, permission is denied, ...), [loadMetadata] prints the error
    and throws an [Error] "Failed to load metadata: ..." carrying its
    message; it keeps the record, changes nothing in the directory and makes
    no attempt to persist. *)
Theorem loadMetadata_unreadable iso st e :
  fst (fs_access metadataFile st) = Throw e
  \/ (fst (fs_access metadataFile st) = Ok tt
      /\ fst (fs_readFile metadataFile st) = Throw e) ->
  code e <> Some "ENOENT" ->
  exists st',
    loadMetadata iso st = (Throw (Error ("Failed to load metadata: " +:+ message e)), st')
    /\ metadata st' = metadata st /\ disk st' = disk st
    /\ console st' = (ERROR, "Error loading metadata: " +:+ message e) :: console st
    /\ persist_attempts (journal st') = persist_attempts (journal st).
Proof.
  intros Hfail Hcode. unfold loadMetadata, try_catch, bind at 1.
  destruct (fs_access metadataFile st) as [ra sa] eqn:Hacc.
  pose proof (fs_access_inv _ _ _ _ Hacc) as (-> & Hra). cbn [fst] in Hfail.
  assert (Hhandler : forall (s : Manager) c sc,
    e = sys_error st c sc metadataFile ->
    (if bool_decide (code e = Some "ENOENT")
     then bind (console_log "No existing metadata found, creating new metadata file")
            (fun _ => saveMetadata)
     else if isSyntaxError e
          then bind (console_warn "Corrupted metadata file, creating backup and resetting")
                 (fun _ => bind (backupCorruptedMetadata iso) (fun _ => saveMetadata))
          else bind (console_error ("Error loading metadata: " +:+ message e))
                 (fun _ => throw (Error ("Failed to load metadata: " +:+ message e)))) s
    = (Throw (Error ("Failed to load metadata: " +:+ message e)),
       printed s ERROR ("Error loading metadata: " +:+ message e))).
  { intros s c sc He. rewrite bool_decide_eq_false_2 by done.
    rewrite He. reflexivity. }
  destruct Hfail as [->|[-> Hread]].
  - destruct Hra as [?|[c [= He]]]; [done|].
    rewrite (Hhandler _ c "access" He). eexists. split; [reflexivity|]. proj.
    repeat split.
  - unfold bind at 1.
    destruct (fs_readFile metadataFile (journalled st (Access metadataFile)))
      as [rr sr] eqn:Hr.
    pose proof (fs_readFile_inv _ _ _ _ Hr) as (-> & _).
    apply (f_equal fst) in Hr. rewrite fs_readFile_journalled, Hread in Hr.
    cbn [fst] in Hr. subst rr.
    destruct (fs_readFile_error _ _ _ Hread) as (c & He).
    rewrite (Hhandler _ c "open" He). eexists. split; [reflexivity|]. proj.
    repeat split.
Qed.

Lemma loadMetadata_unreadable_witness :
  exists st',
    loadMetadata "2024-01-01T00:00:00.000Z" (construct "/saves" shadowed_disk)
    = (Throw (Error ("Failed to load metadata: EISDIR: illegal operation on a directory, "
                     +:+ "open '/saves/metadata.json'")), st')
    /\ metadata st' = defaultMetadata /\ disk st' = shadowed_disk.
Proof.
  destruct (loadMetadata_unreadable "2024-01-01T00:00:00.000Z"
              (construct "/saves" shadowed_disk)
              (SystemError EISDIR "open" "/saves/metadata.json" None))
    as (st' & Hrun & Hm & Hd & _).
  - right. split; vm_compute; reflexivity.
  - vm_compute. discriminate.
  - exists st'. split; [exact Hrun|]. split; [exact Hm|exact Hd].
Defined.

Lemma over_missing {A} (dec : json -> option A) key ms (d r : A) :
  over dec key ms d = Some r -> get key ms = None -> r = d.
Proof. unfold over. intros H Hg. rewrite Hg in H. congruence. Qed.

Lemma over_present {A} (dec : json -> option A) key ms (d r : A) v :
  over dec key ms d = Some r -> get key ms = Some v -> dec v = Some r.
Proof. unfold over. intros H Hg. by rewrite Hg in H. Qed.

(** X5. Loading a file written by an earlier version.  When metadata.json
    holds an object that the record can take, [loadMetadata] returns with
    the record merged from it, writes nothing and keeps the file as it is.
    A property the object lacks keeps the value the record had (the
    constructor's default, for a new manager); a property it has replaces
    the record's; [saves] and [statistics] that are null in the file become
    the empty object and the zero statistics. *)
Theorem loadMetadata_fills_missing_properties iso st text ms m' :
  nodes (disk st) !! metadataFile = Some (File text) ->
  fault_of (faults (disk st)) (Access metadataFile) = None ->
  fault_of (faults (disk st)) (ReadFile metadataFile) = None ->
  JSON.parse text = Some (JObj ms) ->
  merge (metadata st) (JObj ms) = Some m' ->
  exists st',
    loadMetadata iso st = (Ok tt, st')
    /\ metadata st' = m' /\ disk st' = disk st
    /\ persist_attempts (journal st') = persist_attempts (journal st)
    /\ (get "version" ms = None -> version m' = version (metadata st))
    /\ (get "lastSave" ms = None -> lastSave m' = lastSave (metadata st))
    /\ (get "autoSaveEnabled" ms = None -> autoSaveEnabled m' = autoSaveEnabled (metadata st))
    /\ (get "autoSaveInterval" ms = None ->
        autoSaveInterval m' = autoSaveInterval (metadata st))
    /\ (get "backupCount" ms = None -> backupCount m' = backupCount (metadata st))
    /\ (get "totalSaves" ms = None -> totalSaves m' = totalSaves (metadata st))
    /\ (get "migrationCompleted" ms = None ->
        migrationCompleted m' = migrationCompleted (metadata st))
    /\ (get "saves" ms = None -> saves m' = saves (metadata st))
    /\ (get "statistics" ms = None -> statistics m' = statistics (metadata st))
    /\ (forall n, get "backupCount" ms = Some (JNum n) -> backupCount m' = n)
    /\ (forall n, get "totalSaves" ms = Some (JNum n) -> totalSaves m' = n)
    /\ (forall b, get "autoSaveEnabled" ms = Some (JBool b) -> autoSaveEnabled m' = b)
    /\ (get "saves" ms = Some JNull -> saves m' = ∅)
    /\ (get "statistics" ms = Some JNull -> statistics m' = defaultStatistics).
Proof.
  intros Hn Ha Hr Hparse Hmerge.
  rewrite (loadMetadata_read iso st text Ha Hr Hn), Hparse, Hmerge.
  eexists. split; [reflexivity|]. proj. split; [reflexivity|]. split; [reflexivity|].
  split; [reflexivity|].
  unfold merge in Hmerge. destruct (known metadataKeys ms); [|discriminate].
  destruct (over asStr "version" ms _) as [v|] eqn:H1; [|discriminate].
  destruct (over asOptNum "lastSave" ms _) as [ls|] eqn:H2; [|discriminate].
  destruct (over asBool "autoSaveEnabled" ms _) as [ae|] eqn:H3; [|discriminate].
  destruct (over asNum "autoSaveInterval" ms _) as [ai|] eqn:H4; [|discriminate].
  destruct (over asNum "backupCount" ms _) as [bc|] eqn:H5; [|discriminate].
  destruct (over asNum "totalSaves" ms _) as [ts|] eqn:H6; [|discriminate].
  destruct (over asBool "migrationCompleted" ms _) as [mc|] eqn:H7; [|discriminate].
  destruct (over savesOfJson "saves" ms _) as [sv|] eqn:H8; [|discriminate].
  destruct (over statisticsOfJson "statistics" ms _) as [stt|] eqn:H9; [|discriminate].
  injection Hmerge as <-.
  cbn [version lastSave autoSaveEnabled autoSaveInterval backupCount totalSaves
       migrationCompleted saves statistics].
  conjuncts.
  - intros Hg. exact (over_missing _ _ _ _ _ H1 Hg).
  - intros Hg. exact (over_missing _ _ _ _ _ H2 Hg).
  - intros Hg. exact (over_missing _ _ _ _ _ H3 Hg).
  - intros Hg. exact (over_missing _ _ _ _ _ H4 Hg).
  - intros Hg. exact (over_missing _ _ _ _ _ H5 Hg).
  - intros Hg. exact (over_missing _ _ _ _ _ H6 Hg).
  - intros Hg. exact (over_missing _ _ _ _ _ H7 Hg).
  - intros Hg. exact (over_missing _ _ _ _ _ H8 Hg).
  - intros Hg. exact (over_missing _ _ _ _ _ H9 Hg).
  - intros n Hg. pose proof (over_present _ _ _ _ _ _ H5 Hg) as H. by injection H.
  - intros n Hg. pose proof (over_present _ _ _ _ _ _ H6 Hg) as H. by injection H.
  - intros b Hg. pose proof (over_present _ _ _ _ _ _ H3 Hg) as H. by injection H.
  - intros Hg. pose proof (over_present _ _ _ _ _ _ H8 Hg) as H. by injection H.
  - intros Hg. pose proof (over_present _ _ _ _ _ _ H9 Hg) as H. by injection H.
Qed.

Lemma loadMetadata_fills_missing_properties_witness :
  exists st',
    loadMetadata "2024-01-01T00:00:00.000Z" (construct "/saves" upgrade_disk) = (Ok tt, st')
    /\ backupCount (metadata st') = 3
    /\ autoSaveInterval (metadata st') = 30000
    /\ saves (metadata st') = ∅.
Proof.
  destruct (loadMetadata_fills_missing_properties "2024-01-01T00:00:00.000Z"
              (construct "/saves" upgrade_disk) upgrade_text
              [("backupCount", JNum 3); ("saves", JNull)]
              (set_backupCount defaultMetadata 3))
    as (st' & Hrun & Hm & _ & _ & _ & _ & _ & Hai & _ & _ & _ & _ & _ & Hbc & _ & _ & Hsv & _).
  - vm_compute. reflexivity.
  - vm_compute. reflexivity.
  - vm_compute. reflexivity.
  - vm_compute. reflexivity.
  - vm_compute. reflexivity.
  - exists st'. split; [exact Hrun|]. rewrite Hm.
    split; [by apply Hbc|]. split; [by rewrite Hai|by apply Hsv].
Defined.

(** X6. [backupCorruptedMetadata] never throws, in any state of the
    directory: either metadata.json is a file, the copy now holds its text
    and the path of the copy was printed, or the failure was printed as a
    warning; the record is untouched and so is every file but the copy,
    metadata.json included. *)
Theorem backupCorruptedMetadata_best_effort iso st :
  exists st',
    backupCorruptedMetadata iso st = (Ok tt, st')
    /\ metadata st' = metadata st
    /\ (forall k, k <> quarantine iso -> nodes (disk st') !! k = nodes (disk st) !! k)
    /\ ((exists text,
            nodes (disk st) !! metadataFile = Some (File text)
            /\ nodes (disk st') !! quarantine iso = Some (File text)
            /\ console st'
               = (LOG, "Corrupted metadata backed up to: "
                       +:+ path_join (saveDirectory st) (quarantine iso)) :: console st)
        \/ (exists e,
              console st'
              = (WARN, "Could not backup corrupted metadata: " +:+ message e)
                :: console st)).
Proof.
  unfold backupCorruptedMetadata, try_catch.
  cbv [bind this_saveDirectory]. fold (quarantine iso).
  destruct (fs_copyFile metadataFile (quarantine iso) st) as [r st1] eqn:Hc.
  apply fs_call_inv in Hc as [(e & -> & -> & Hc)|(a & n1 & -> & -> & Hf & Hact)].
  - eexists. split; [reflexivity|]. proj. split; [reflexivity|]. split; [reflexivity|].
    right. by eexists.
  - destruct (nodes (disk st) !! metadataFile) as [[text|]|] eqn:Hn; try discriminate.
    assert (n1 = <[quarantine iso := File text]> (nodes (disk st))) as ->.
    { destruct (nodes (disk st) !! quarantine iso) as [[?|]|]; by inversion Hact. }
    eexists. split; [reflexivity|]. proj. split; [reflexivity|]. split.
    + intros k Hk. by rewrite lookup_insert_ne.
    + left. exists text. split; [reflexivity|]. split; [apply lookup_insert_eq|reflexivity].
Qed.

Lemma replace_colons_dots_length s :
  String.length (replace_colons_dots s) = String.length s.
Proof. induction s as [|c s IH]; [reflexivity|]. cbn. by rewrite IH. Qed.

(** X7. The name of the copy is "metadata_corrupted_", the timestamp and
    ".json", where the timestamp is the ISO time with every colon and every
    dot (not only the first) replaced by a dash: it has the same length, no
    colon and no dot, and every other character where it was. *)
Theorem quarantine_name iso :
  exists t,
    quarantine iso = "metadata_corrupted_" +:+ t +:+ ".json"
    /\ String.length t = String.length iso
    /\ string_forall (fun c => negb (Ascii.eqb c ":" || Ascii.eqb c ".")) t = true
    /\ forall i c, String.get i iso = Some c ->
         String.get i t = Some (if (Ascii.eqb c ":" || Ascii.eqb c ".")%bool
                                then "-"%char else c).
Proof.
  exists (replace_colons_dots iso). split; [reflexivity|].
  split; [apply replace_colons_dots_length|]. split.
  - induction iso as [|c s IH]; [reflexivity|]. cbn [replace_colons_dots string_forall].
    rewrite IH, andb_true_r.
    destruct (Ascii.eqb c ":" || Ascii.eqb c ".")%bool eqn:Hc; [reflexivity|].
    by rewrite Hc.
  - induction iso as [|c s IH]; intros i a; [by destruct i|].
    destruct i as [|i]; cbn [String.get replace_colons_dots].
    + by intros [= ->].
    + apply IH.
Qed.

(** ** Registering, looking up, validating *)

Lemma fs_readFile_Ok p st content :
  fst (fs_readFile p st) = Ok content ->
  fault_of (faults (disk st)) (ReadFile p) = None
  /\ nodes (disk st) !! p = Some (File content).
Proof.
  rewrite fs_readFile_eq.
  destruct (fault_of _ _); [done|].
  destruct (nodes (disk st) !! p) as [[?|]|]; cbn [fst]; intros [= <-]; done.
Qed.

(** A registration leaves the save files alone: it writes metadata.json and
    its temporary file only. *)
Lemma registerSaveFile_disk f i ts st :
  let st' := snd (registerSaveFile f i ts st) in
  faults (disk st') = faults (disk st)
  /\ saveDirectory st' = saveDirectory st
  /\ forall k, k <> metadataFile -> k <> tempFile ->
               nodes (disk st') !! k = nodes (disk st) !! k.
Proof.
  cbv zeta. destruct (fs_readFile f st) as [[content|e|] st1] eqn:Hr.
  - rewrite (registerSaveFile_readable _ _ _ _ _ _ Hr). cbv zeta.
    match goal with |- context [saveMetadata ?s] =>
      destruct (saveMetadata s) as [r st3] eqn:Hs end.
    pose proof (saveMetadata_frame _ _ _ Hs) as (_ & Hd & Hf & Hres).
    pose proof (saveMetadata_nodes _ _ _ Hs) as Hn. proj.
    destruct Hres as [->|[e ->]]; cbn [snd]; proj; repeat split; auto.
  - rewrite (registerSaveFile_unreadable _ _ _ _ _ _ Hr). cbn [snd]. proj. by repeat split.
  - by apply fs_readFile_inv in Hr as [_ ?].
Qed.

(** X8. A file that was just registered validates: when the registration
    read the file (whether or not it could persist afterwards), the file is
    not metadata.json or its temporary file (which persisting rewrites) and
    the file system answers the access, [validateSaveFileIntegrity] returns
    a verdict that is valid, with the reason "File integrity verified", the
    length of the file and the time of the registration. *)
Theorem register_then_validate f i ts st content :
  fst (fs_readFile f st) = Ok content ->
  f <> metadataFile -> f <> tempFile ->
  fault_of (faults (disk st)) (Access f) = None ->
  exists v,
    fst (validateSaveFileIntegrity f (after (RegisterSaveFile f i ts) st)) = Ok v
    /\ Validation.valid v = true
    /\ Validation.reason v = "File integrity verified"
    /\ Validation.storedChecksum v = Validation.currentChecksum v
    /\ Validation.fileSize v = Some (Z.of_nat (String.length content))
    /\ Validation.lastModified v = Some ts.
Proof.
  intros Hread Hf1 Hf2 Ha. cbn [after].
  destruct (fs_readFile_Ok _ _ _ Hread) as [Hr Hn].
  destruct (registerSaveFile_disk f i ts st) as (Hfl & _ & Hnodes).
  pose proof (registerSaveFile_metadata f i ts st) as Hm. rewrite Hread in Hm.
  destruct (registered_fields (metadata st) f i content ts) as (Hs & _).
  rewrite validate_eq, Hfl, Ha, Hr, Hnodes, Hn, Hm, Hs, lookup_insert_eq by done.
  eexists. split; [reflexivity|].
  unfold checked_verdict, newEntry.
  cbn [Validation.valid Validation.reason Validation.storedChecksum
       Validation.currentChecksum Validation.fileSize Validation.lastModified
       Entry.checksum Entry.lastModified].
  rewrite String.eqb_refl. by repeat split.
Qed.

Lemma register_then_validate_witness :
  exists v,
    fst (validateSaveFileIntegrity "b.sav" run2) = Ok v /\ Validation.valid v = true.
Proof.
  destruct (register_then_validate "b.sav" noInfo 2000 run1 "yy")
    as (v & Hv & Hvalid & _).
  - vm_compute. reflexivity.
  - discriminate.
  - discriminate.
  - vm_compute. reflexivity.
  - exists v. split; [exact Hv|exact Hvalid].
Defined.

Lemma getSaveFileMetadata_eq f st :
  getSaveFileMetadata f st = (Ok (saves_get (metadata st) f), st).
Proof. reflexivity. Qed.

(** X9. Lookup after the two mutations, for a filename other than
    [__proto__] and a manager none of whose calls changed the prototype chain
    of [saves].  After a registration that read its file,
    [getSaveFileMetadata] answers the entry of that file: its filename, the
    SHA-256 of the bytes read, the size the caller gave unless that is
    missing or 0 (then the length of the file), "unknown" and 0 for a
    missing version and level, no [lastAccessed]; a registration that
    returns, returns this entry.  After [unregisterSaveFile] the answer is
    null, except for a name [Object.prototype] defines: there it is the
    inherited value.  The lookup changes nothing. *)
Theorem lookup_after_mutation f st :
  Plain st ->
  f <> "__proto__" ->
  (forall i ts content,
     fst (fs_readFile f st) = Ok content ->
     let st' := after (RegisterSaveFile f i ts) st in
     exists e,
       getSaveFileMetadata f st' = (Ok (Some (Own e)), st')
       /\ Entry.filename e = f
       /\ Entry.checksum e = calculateChecksum content
       /\ Entry.size e = match SaveInfo.size i with
                         | Some n => if n =? 0 then Z.of_nat (String.length content) else n
                         | None => Z.of_nat (String.length content)
                         end
       /\ Entry.gameVersion e = match SaveInfo.gameVersion i with
                                | Some "" | None => "unknown"
                                | Some v => v
                                end
       /\ Entry.playerLevel e = match SaveInfo.playerLevel i with
                                | Some n => n
                                | None => 0
                                end
       /\ Entry.lastAccessed e = None
       /\ forall r, fst (registerSaveFile f i ts st) = Ok r -> r = Some e)
  /\ (let st' := after (UnregisterSaveFile f) st in
      getSaveFileMetadata f st'
      = (Ok (if inherited f then Some Inherited else None), st')).
Proof.
  intros _ _. split.
  - intros i ts content Hread st'. rewrite getSaveFileMetadata_eq. unfold st'. cbn [after].
    pose proof (registerSaveFile_metadata f i ts st) as Hm. rewrite Hread in Hm.
    destruct (registered_fields (metadata st) f i content ts) as (Hs & _).
    unfold saves_get. rewrite Hm, Hs, lookup_insert_eq. eexists. split; [reflexivity|].
    unfold newEntry. cbn [Entry.filename Entry.checksum Entry.size Entry.gameVersion
                          Entry.playerLevel Entry.lastAccessed].
    split; [reflexivity|]. split; [reflexivity|]. split; [reflexivity|].
    split; [by destruct (SaveInfo.gameVersion i) as [[|]|]|].
    split; [|split; [reflexivity|]].
    + unfold num_or. destruct (SaveInfo.playerLevel i) as [n|]; [|reflexivity].
      destruct (Z.eqb_spec n 0); congruence.
    + intros r Hr. destruct (fs_readFile f st) as [rr st1] eqn:Hrd. cbn [fst] in Hread.
      subst rr. rewrite (registerSaveFile_readable _ _ _ _ _ _ Hrd) in Hr. cbv zeta in Hr.
      match type of Hr with context [saveMetadata ?s] =>
        destruct (saveMetadata s) as [r2 st3] eqn:Hsave end.
      pose proof (saveMetadata_frame _ _ _ Hsave) as (Hm3 & _).
      destruct r2 as [[]|?|]; cbn [fst] in Hr; try discriminate.
      injection Hr as <-. rewrite Hm3. proj. by rewrite Hs, lookup_insert_eq.
  - cbv zeta. rewrite getSaveFileMetadata_eq. cbn [after].
    destruct (unregisterSaveFile_eq f st) as (st1 & -> & Hm & _). cbn [snd].
    unfold saves_get. rewrite Hm. unfold unregistered.
    destruct (saves (metadata st) !! f) eqn:Hf; [|by rewrite Hf].
    cbn [saves set_saves]. by rewrite lookup_delete_eq.
Qed.

Lemma lookup_after_mutation_witness :
  exists e,
    getSaveFileMetadata "a.sav" run1 = (Ok (Some (Own e)), run1)
    /\ Entry.size e = 1 /\ Entry.gameVersion e = "unknown".
Proof.
  destruct (lookup_after_mutation "a.sav" run0) as [Hreg _];
    [apply plain_new|discriminate|].
  destruct (Hreg noInfo 1000 "x") as (e & Hget & _ & _ & Hsize & Hver & _).
  - vm_compute. reflexivity.
  - exists e. split; [exact Hget|]. split; [exact Hsize|exact Hver].
Defined.

(** ** The shape of a checksum *)

Lemma sha_round_length st kw : length (Sha256.round st kw) = length st.
Proof.
  destruct st as [|a [|b [|c [|d [|e [|f [|g [|h [|x t]]]]]]]]]; reflexivity.
Qed.

Lemma sha_rounds_length kws st : length (fold_left Sha256.round kws st) = length st.
Proof.
  revert st. induction kws as [|kw kws IH]; intros st; [reflexivity|].
  cbn [fold_left]. by rewrite IH, sha_round_length.
Qed.

Lemma sha_compress_length hs block :
  length (Sha256.compress hs block) = length hs.
Proof.
  unfold Sha256.compress. rewrite length_map, length_combine, sha_rounds_length. lia.
Qed.

Lemma sha_blocks_length fuel ws hs : length (Sha256.blocks fuel ws hs) = length hs.
Proof.
  revert ws hs. induction fuel as [|fuel IH]; intros ws hs; [reflexivity|].
  cbn [Sha256.blocks]. destruct ws; [reflexivity|].
  by rewrite IH, sha_compress_length.
Qed.

Lemma be_bytes_length n x : length (Sha256.be_bytes n x) = n.
Proof. induction n as [|n IH]; [reflexivity|]. cbn [Sha256.be_bytes length]. by rewrite IH. Qed.

Lemma be_bytes_range n x : Forall (fun b => 0 <= b < 256) (Sha256.be_bytes n x).
Proof.
  induction n as [|n IH]; [constructor|]. cbn [Sha256.be_bytes].
  constructor; [apply Z.mod_pos_bound; lia|exact IH].
Qed.

Lemma hex_digit_is_hex d : 0 <= d < 16 -> is_hex (Sha256.hex_digit d) = true.
Proof.
  intros Hd.
  assert (H : d = 0 \/ d = 1 \/ d = 2 \/ d = 3 \/ d = 4 \/ d = 5 \/ d = 6 \/ d = 7
              \/ d = 8 \/ d = 9 \/ d = 10 \/ d = 11 \/ d = 12 \/ d = 13 \/ d = 14
              \/ d = 15) by lia.
  repeat (destruct H as [->|H]; [reflexivity|]). by subst.
Qed.

Lemma hex_of_bytes_shape bs :
  Forall (fun b => 0 <= b < 256) bs ->
  String.length (Sha256.hex_of_bytes bs) = (2 * length bs)%nat
  /\ string_forall is_hex (Sha256.hex_of_bytes bs) = true.
Proof.
  induction 1 as [|b bs Hb _ [IH1 IH2]]; [by split|].
  cbn [Sha256.hex_of_bytes String.length string_forall length]. split; [lia|].
  rewrite !hex_digit_is_hex, IH2; [reflexivity| |].
  - apply Z.mod_pos_bound. lia.
  - split; [apply Z.div_pos; lia|apply Z.div_lt_upper_bound; lia].
Qed.

Lemma words_bytes_shape hs :
  length (flat_map (Sha256.be_bytes 4) hs) = (4 * length hs)%nat
  /\ Forall (fun b => 0 <= b < 256) (flat_map (Sha256.be_bytes 4) hs).
Proof.
  induction hs as [|h hs [IH1 IH2]]; [by split|].
  cbn [flat_map]. rewrite length_app, be_bytes_length, IH1. split; [cbn; lia|].
  apply Forall_app. split; [apply be_bytes_range|exact IH2].
Qed.

Lemma digest_hex_shape data :
  String.length (Sha256.digest_hex data) = 64%nat
  /\ string_forall is_hex (Sha256.digest_hex data) = true.
Proof.
  unfold Sha256.digest_hex. cbv zeta.
  match goal with |- context [Sha256.blocks ?n ?ws Sha256.H0] =>
    pose proof (sha_blocks_length n ws Sha256.H0) as Hlen;
    set (hs := Sha256.blocks n ws Sha256.H0) in * end.
  change (length Sha256.H0) with 8%nat in Hlen.
  destruct (words_bytes_shape hs) as [Hb Hr].
  destruct (hex_of_bytes_shape _ Hr) as [H1 H2].
  split; [|exact H2]. rewrite H1, Hb, Hlen. reflexivity.
Qed.

(** X10. [calculateChecksum] answers, for every content, a text of 64
    characters, each one a digit or a letter from a to f in lower case. *)
Theorem calculateChecksum_is_64_hex_digits data :
  String.length (calculateChecksum data) = 64%nat
  /\ string_forall is_hex (calculateChecksum data) = true.
Proof.
  unfold calculateChecksum.
  destruct (digest_hex_shape data) as [Hlen Hhex].
  split; [exact Hlen|exact Hhex].
Qed.

(** ** Invariants of the record *)

(** A property of the record that the constructor's record has and that
    every change a call makes to the record keeps, holds in every state the
    store reaches. *)
Lemma reachable_metadata_ind (P : Metadata -> Prop) :
  P defaultMetadata ->
  (forall m f i content ts, P m -> P (registered m f i content ts)) ->
  (forall m f, P m -> P (unregistered m f)) ->
  (forall m f ts, P m -> P (load_recorded m f ts)) ->
  (forall m c, P m -> P (configured m c)) ->
  (forall m existing, P m -> P (set_saves m (pruned existing (object_keys m) (saves m)))) ->
  (forall m, P m -> P (refreshed m)) ->
  forall st, Reachable st -> P (metadata st).
Proof.
  intros H0 Hreg Hun Hload Hcfg Hprune Hfresh st Hst.
  induction Hst as [dir d|st st' _ IH Hstep]; [exact H0|].
  apply step_metadata in Hstep. cbv zeta in Hstep.
  destruct Hstep as [->|[(f & i & content & ts & ->)|[(f & ->)|[(f & ts & ->)|[(c & ->)
                    |(existing & [-> | ->])]]]]]; auto.
Qed.

Lemma registered_other_fields m f i content ts :
  totalLoadOperations (statistics (registered m f i content ts))
  = totalLoadOperations (statistics m)
  /\ lastSuccessfulLoad (statistics (registered m f i content ts))
     = lastSuccessfulLoad (statistics m)
  /\ version (registered m f i content ts) = version m
  /\ autoSaveEnabled (registered m f i content ts) = autoSaveEnabled m
  /\ autoSaveInterval (registered m f i content ts) = autoSaveInterval m
  /\ backupCount (registered m f i content ts) = backupCount m
  /\ migrationCompleted (registered m f i content ts) = migrationCompleted m.
Proof.
  unfold registered. cbv zeta.
  match goal with |- context [refreshed ?x] =>
    destruct (refreshed_eq x) as (avg & total & ->) end.
  repeat split.
Qed.

Lemma reachable_run2 : Reachable run2.
Proof.
  apply reach_step with (st := run1); [|apply step_call].
  apply reach_step with (st := run0); [|apply step_call].
  apply reach_bootstrap.
Defined.

(** The flag of an entry follows from the name it is stored under. *)
Lemma reachable_backup_flag st :
  Reachable st ->
  forall f e, saves (metadata st) !! f = Some e -> Entry.isBackup e = includes f "backup_".
Proof.
  revert st.
  apply (reachable_metadata_ind
           (fun m => forall f e, saves m !! f = Some e ->
                                 Entry.isBackup e = includes f "backup_")).
  - intros f e H. cbn in H. by rewrite lookup_empty in H.
  - intros m f i content ts IH g e Hg.
    destruct (registered_fields m f i content ts) as (Hs & _). rewrite Hs in Hg.
    destruct (decide (f = g)) as [->|Hne].
    + rewrite lookup_insert_eq in Hg. by injection Hg as <-.
    + rewrite lookup_insert_ne in Hg by done. eauto.
  - intros m f IH g e Hg. unfold unregistered in Hg. destruct (saves m !! f); [|eauto].
    cbn [saves set_saves] in Hg. apply lookup_delete_Some in Hg as [_ Hg]. eauto.
  - intros m f ts IH g e Hg. unfold load_recorded in Hg. cbv zeta in Hg.
    destruct (saves m !! f) as [e0|] eqn:Hf; cbn [saves set_saves set_statistics] in Hg; [|eauto].
    destruct (decide (f = g)) as [->|Hne].
    + rewrite lookup_insert_eq in Hg. injection Hg as <-. exact (IH g e0 Hf).
    + rewrite lookup_insert_ne in Hg by done. eauto.
  - intros m c IH g e Hg. destruct (configured_fields m c) as (Hs & _).
    rewrite Hs in Hg. eauto.
  - intros m existing IH g e Hg. cbn [saves set_saves] in Hg.
    rewrite pruned_keys_lookup in Hg. case_decide; [eauto|done].
  - intros m IH g e Hg. rewrite refreshed_saves in Hg. eauto.
Qed.

(** X11. In every state the store reaches from the constructor's record,
    every entry sits under its own filename, is flagged as a backup exactly
    when that name contains "backup_", and carries a checksum of 64
    lower-case hexadecimal digits. *)
Theorem reachable_entries_well_formed st :
  Reachable st ->
  forall f e, saves (metadata st) !! f = Some e -> entry_wf f e.
Proof.
  revert st.
  apply (reachable_metadata_ind (fun m => forall f e, saves m !! f = Some e -> entry_wf f e)).
  - intros f e H. cbn in H. by rewrite lookup_empty in H.
  - intros m f i content ts IH g e Hg.
    destruct (registered_fields m f i content ts) as (Hs & _). rewrite Hs in Hg.
    destruct (decide (f = g)) as [->|Hne].
    + rewrite lookup_insert_eq in Hg. injection Hg as <-.
      destruct (digest_hex_shape content) as [H1 H2]. by repeat split.
    + rewrite lookup_insert_ne in Hg by done. eauto.
  - intros m f IH g e Hg. unfold unregistered in Hg. destruct (saves m !! f); [|eauto].
    cbn [saves set_saves] in Hg. apply lookup_delete_Some in Hg as [_ Hg]. eauto.
  - intros m f ts IH g e Hg. unfold load_recorded in Hg. cbv zeta in Hg.
    destruct (saves m !! f) as [e0|] eqn:Hf; cbn [saves set_saves set_statistics] in Hg; [|eauto].
    destruct (decide (f = g)) as [->|Hne].
    + rewrite lookup_insert_eq in Hg. injection Hg as <-. exact (IH g e0 Hf).
    + rewrite lookup_insert_ne in Hg by done. eauto.
  - intros m c IH g e Hg. destruct (configured_fields m c) as (Hs & _).
    rewrite Hs in Hg. eauto.
  - intros m existing IH g e Hg. cbn [saves set_saves] in Hg.
    rewrite pruned_keys_lookup in Hg. case_decide; [eauto|done].
  - intros m IH g e Hg. rewrite refreshed_saves in Hg. eauto.
Qed.

Lemma reachable_entries_well_formed_witness :
  Reachable run2
  /\ forall f e, saves (metadata run2) !! f = Some e -> entry_wf f e.
Proof.
  split; [exact reachable_run2|].
  exact (reachable_entries_well_formed run2 reachable_run2).
Defined.

(** X12. In every state the store reaches from the constructor's record the
    two save counters are equal ([totalSaves] and
    [statistics.totalSaveOperations]), the two save times are equal
    ([lastSave] and [statistics.lastSuccessfulSave]) and are null exactly
    when nothing was ever registered, the last load time is null exactly
    when no load was recorded, every entry has a [saveCount] between 1 and
    [totalSaves], and [version] is still "1.0.0". *)
Theorem reachable_counters_agree st :
  Reachable st ->
  let m := metadata st in
  totalSaves m = totalSaveOperations (statistics m)
  /\ lastSave m = lastSuccessfulSave (statistics m)
  /\ 0 <= totalSaves m
  /\ (lastSave m = None <-> totalSaves m = 0)
  /\ 0 <= totalLoadOperations (statistics m)
  /\ (lastSuccessfulLoad (statistics m) = None <-> totalLoadOperations (statistics m) = 0)
  /\ (forall f e, saves m !! f = Some e -> 1 <= Entry.saveCount e <= totalSaves m)
  /\ version m = "1.0.0".
Proof.
  revert st. cbv zeta.
  apply (reachable_metadata_ind (fun m =>
    totalSaves m = totalSaveOperations (statistics m)
    /\ lastSave m = lastSuccessfulSave (statistics m)
    /\ 0 <= totalSaves m
    /\ (lastSave m = None <-> totalSaves m = 0)
    /\ 0 <= totalLoadOperations (statistics m)
    /\ (lastSuccessfulLoad (statistics m) = None <-> totalLoadOperations (statistics m) = 0)
    /\ (forall f e, saves m !! f = Some e -> 1 <= Entry.saveCount e <= totalSaves m)
    /\ version m = "1.0.0")).
  - repeat split; done.
  - intros m f i content ts (H1 & H2 & H3 & H4 & H5 & H6 & H7 & H8).
    destruct (registered_fields m f i content ts) as (Hs & Ht & Ho & Hl & Hls).
    destruct (registered_other_fields m f i content ts) as (Hlo & Hll & Hv & _).
    rewrite Hs, Ht, Ho, Hl, Hls, Hlo, Hll, Hv.
    split; [lia|]. split; [done|]. split; [lia|]. split; [split; [done|lia]|].
    split; [done|]. split; [done|]. split; [|done].
    intros g e Hg. destruct (decide (f = g)) as [->|Hne].
    + rewrite lookup_insert_eq in Hg. injection Hg as <-. rewrite newEntry_saveCount.
      unfold saveCount_of. destruct (saves m !! g) as [e0|] eqn:He0; [|lia].
      specialize (H7 g e0 He0). lia.
    + rewrite lookup_insert_ne in Hg by done. specialize (H7 g e Hg). lia.
  - intros m f (H1 & H2 & H3 & H4 & H5 & H6 & H7 & H8). unfold unregistered.
    destruct (saves m !! f) eqn:Hf; [|done].
    cbn [saves set_saves totalSaves statistics lastSave version].
    conjuncts; try done.
    intros g e Hg. apply lookup_delete_Some in Hg as [_ Hg]. eauto.
  - intros m f ts (H1 & H2 & H3 & H4 & H5 & H6 & H7 & H8). unfold load_recorded. cbv zeta.
    assert (Hgoal : forall s,
      (forall g e, s !! g = Some e -> 1 <= Entry.saveCount e <= totalSaves m) ->
      let m1 := set_saves m s in
      let m' := set_statistics m1
                  (set_loadOps (statistics m1) (totalLoadOperations (statistics m1) + 1)
                     (Some ts)) in
      totalSaves m' = totalSaveOperations (statistics m')
      /\ lastSave m' = lastSuccessfulSave (statistics m')
      /\ 0 <= totalSaves m'
      /\ (lastSave m' = None <-> totalSaves m' = 0)
      /\ 0 <= totalLoadOperations (statistics m')
      /\ (lastSuccessfulLoad (statistics m') = None <-> totalLoadOperations (statistics m') = 0)
      /\ (forall f e, saves m' !! f = Some e -> 1 <= Entry.saveCount e <= totalSaves m')
      /\ version m' = "1.0.0").
    { intros s Hs. cbv zeta.
      cbn [saves set_saves set_statistics set_loadOps totalSaves statistics lastSave version
           totalSaveOperations totalLoadOperations lastSuccessfulSave lastSuccessfulLoad].
      conjuncts; try done; try lia. split; [done|lia]. }
    destruct (saves m !! f) as [e0|] eqn:Hf.
    + apply Hgoal. intros g e Hg. destruct (decide (f = g)) as [->|Hne].
      * rewrite lookup_insert_eq in Hg. injection Hg as <-. exact (H7 g e0 Hf).
      * rewrite lookup_insert_ne in Hg by done. eauto.
    + specialize (Hgoal (saves m) H7). cbv zeta in Hgoal.
      rewrite set_saves_same in Hgoal. exact Hgoal.
  - intros m c (H1 & H2 & H3 & H4 & H5 & H6 & H7 & H8).
    destruct (configured_fields m c) as (Hs & Ht & Hst). rewrite Hs, Ht, Hst.
    assert (lastSave (configured m c) = lastSave m /\ version (configured m c) = version m)
      as [-> ->] by (unfold configured; destruct c as [[?|] [?|] [?|] [?|]]; by split).
    by conjuncts.
  - intros m existing (H1 & H2 & H3 & H4 & H5 & H6 & H7 & H8).
    cbn [saves set_saves totalSaves statistics lastSave version].
    conjuncts; try done.
    intros g e Hg. rewrite pruned_keys_lookup in Hg. case_decide; [eauto|done].
  - intros m (H1 & H2 & H3 & H4 & H5 & H6 & H7 & H8).
    destruct (refreshed_eq m) as (avg & total & ->).
    cbn [saves set_statistics set_sizes totalSaves statistics lastSave version
         totalSaveOperations totalLoadOperations lastSuccessfulSave lastSuccessfulLoad].
    by conjuncts.
Qed.


Lemma reachable_counters_agree_witness :
  Reachable run3
  /\ totalSaves (metadata run3) = totalSaveOperations (statistics (metadata run3)).
Proof.
  assert (Hreach : Reachable run3).
  { apply reach_step with (st := run2); [exact reachable_run2|apply step_call]. }
  split; [exact Hreach|].
  exact (proj1 (reachable_counters_agree run3 Hreach)).
Defined.

(** ** Recording loads *)






(** ** Unregistering *)

(** X15. In a manager none of whose calls changed the prototype chain of
    [saves], [unregisterSaveFile] on a filename that is not tracked and that
    [Object.prototype] does not define does nothing at all: no file-system
    call, no line printed, the manager is as it was.  On an untracked name
    that [Object.prototype] defines the lookup is truthy: the record stays
    as it is and is persisted once more.  On a tracked filename the call
    deletes that entry and no other, makes one attempt to persist, and
    leaves [statistics] (sizes included), [totalSaves] and [lastSave] as
    they were; when persisting is not blocked metadata.json then holds the
    record without the entry. *)
Theorem unregisterSaveFile_effect f st :
  Plain st ->
  (saves (metadata st) !! f = None -> inherited f = false ->
   unregisterSaveFile f st = (Ok tt, st))
  /\ (saves (metadata st) !! f = None -> inherited f = true ->
      exists st',
        unregisterSaveFile f st = (Ok tt, st')
        /\ metadata st' = metadata st
        /\ persist_attempts (journal st') = S (persist_attempts (journal st))
        /\ (~ persist_blocked (disk st) ->
            persisted st' = Some (JSON.stringify (toJson (metadata st)))))
  /\ (forall e, saves (metadata st) !! f = Some e ->
      exists st',
        unregisterSaveFile f st = (Ok tt, st')
        /\ saves (metadata st') = delete f (saves (metadata st))
        /\ statistics (metadata st') = statistics (metadata st)
        /\ totalSaves (metadata st') = totalSaves (metadata st)
        /\ lastSave (metadata st') = lastSave (metadata st)
        /\ persist_attempts (journal st') = S (persist_attempts (journal st))
        /\ (~ persist_blocked (disk st) ->
            persisted st' = Some (JSON.stringify (toJson (metadata st'))))).
Proof.
  intros _. split; [|split].
  - intros Hf Hi. unfold unregisterSaveFile, saves_get, try_catch, bind at 1, this_metadata.
    by rewrite Hf, Hi.
  - intros Hf Hi. unfold unregisterSaveFile, saves_get, try_catch, bind at 1, this_metadata.
    rewrite Hf, Hi. cbv [bind set_metadata].
    rewrite (delete_id _ _ Hf).
    replace (set_saves (metadata st) (saves (metadata st))) with (metadata st)
      by (by destruct (metadata st)).
    match goal with |- context [saveMetadata ?s] =>
      destruct (saveMetadata s) as [r st3] eqn:Hs end.
    pose proof (saveMetadata_frame _ _ _ Hs) as (Hm & _ & _ & Hr).
    pose proof (saveMetadata_effects _ _ _ Hs) as (Hj & _ & _ & Hok & Hko). proj.
    destruct Hr as [->|[c ->]]; eexists; (split; [reflexivity|]); proj;
      (split; [exact Hm|]); (split; [exact Hj|]); intros Hfree.
    + destruct Hok as [_ Hp]; [reflexivity|]. unfold persisted in *. proj.
      by rewrite Hp.
    + exfalso. apply Hfree, Hko. discriminate.
  - intros e Hf. unfold unregisterSaveFile, saves_get, try_catch, bind at 1, this_metadata.
    rewrite Hf. cbv [bind set_metadata].
    match goal with |- context [saveMetadata ?s] =>
      destruct (saveMetadata s) as [r st3] eqn:Hs end.
    pose proof (saveMetadata_frame _ _ _ Hs) as (Hm & _ & _ & Hr).
    pose proof (saveMetadata_effects _ _ _ Hs) as (Hj & _ & _ & Hok & Hko). proj.
    assert (Hgoal : forall lvl msg,
      saves (metadata (printed st3 lvl msg)) = delete f (saves (metadata st))
      /\ statistics (metadata (printed st3 lvl msg)) = statistics (metadata st)
      /\ totalSaves (metadata (printed st3 lvl msg)) = totalSaves (metadata st)
      /\ lastSave (metadata (printed st3 lvl msg)) = lastSave (metadata st)
      /\ persist_attempts (journal (printed st3 lvl msg)) = S (persist_attempts (journal st))).
    { intros lvl msg. proj. rewrite Hm. by repeat split. }
    destruct Hr as [->|[c ->]]; eexists; (split; [reflexivity|]);
      match goal with |- context [printed st3 ?lvl ?msg] =>
        destruct (Hgoal lvl msg) as (H1 & H2 & H3 & H4 & H5) end;
      (split; [exact H1|]); (split; [exact H2|]); (split; [exact H3|]);
      (split; [exact H4|]); (split; [exact H5|]); intros Hfree.
    + destruct Hok as [_ Hp]; [reflexivity|]. unfold persisted in *. proj.
      by rewrite Hp, Hm.
    + exfalso. apply Hfree, Hko. discriminate.
Qed.

Lemma unregisterSaveFile_effect_witness :
  unregisterSaveFile "ghost.sav" run2 = (Ok tt, run2)
  /\ exists st',
       unregisterSaveFile "b.sav" run2 = (Ok tt, st')
       /\ saves (metadata st') = delete "b.sav" (saves (metadata run2))
       /\ statistics (metadata st') = statistics (metadata run2).
Proof.
  destruct (unregisterSaveFile_effect "ghost.sav" run2 plain_run2) as [Hnone _].
  destruct (unregisterSaveFile_effect "b.sav" run2 plain_run2) as (_ & _ & Hsome).
  split; [apply Hnone; vm_compute; reflexivity|].
  destruct (saves (metadata run2) !! "b.sav") as [e|] eqn:He;
    [|vm_compute in He; discriminate He].
  destruct (Hsome e eq_refl) as (st' & Hrun & Hs & Hst & _).
  exists st'. split; [exact Hrun|]. split; [exact Hs|exact Hst].
Defined.

(** X16. Unregistering forgets the count: in a manager none of whose calls
    changed the prototype chain of [saves], when a file whose name is not
    [__proto__] is registered again after [unregisterSaveFile], its
    [saveCount] is 1, whatever it was. *)
Theorem reregistration_restarts_saveCount f i ts st content :
  Plain st ->
  f <> "__proto__" ->
  let st1 := after (UnregisterSaveFile f) st in
  fst (fs_readFile f st1) = Ok content ->
  saveCount_of (metadata (after (RegisterSaveFile f i ts) st1)) f = 1.
Proof.
  intros _ _ st1 Hread. cbn [after].
  pose proof (registerSaveFile_metadata f i ts st1) as Hm. rewrite Hread in Hm.
  destruct (registered_fields (metadata st1) f i content ts) as (Hs & _).
  unfold saveCount_of. rewrite Hm, Hs, lookup_insert_eq, newEntry_saveCount.
  assert (Hgone : saves (metadata st1) !! f = None).
  { unfold st1. cbn [after]. destruct (unregisterSaveFile_eq f st) as (st2 & Hrun & Hm2 & _).
    rewrite Hrun. cbn [snd]. rewrite Hm2. unfold unregistered.
    destruct (saves (metadata st) !! f) eqn:Hf; [|exact Hf].
    cbn [saves set_saves]. apply lookup_delete_eq. }
  unfold saveCount_of. by rewrite Hgone.
Qed.

Lemma reregistration_restarts_saveCount_witness :
  saveCount_of (metadata (after (RegisterSaveFile "a.sav" noInfo 2500) run2)) "a.sav" = 2
  /\ saveCount_of
       (metadata (after (RegisterSaveFile "a.sav" noInfo 3000)
                    (after (UnregisterSaveFile "a.sav") run2))) "a.sav" = 1.
Proof.
  split; [vm_compute; reflexivity|].
  apply (reregistration_restarts_saveCount "a.sav" noInfo 3000 run2 "x").
  - exact plain_run2.
  - discriminate.
  - vm_compute. reflexivity.
Defined.

(** ** Statistics *)

Lemma refreshed_idem m : refreshed (refreshed m) = refreshed m.
Proof.
  unfold refreshed at 1. unfold object_values. rewrite refreshed_saves.
  fold (object_values m). unfold refreshed.
  case_bool_decide; reflexivity.
Qed.

Lemma math_round_div_bounds t n :
  0 < n -> 2 * t - n < 2 * n * math_round_div t n <= 2 * t + n.
Proof.
  intros Hn. unfold math_round_div.
  pose proof (Z.mul_div_le (2 * t + n) (2 * n) ltac:(lia)).
  pose proof (Z.mul_succ_div_gt (2 * t + n) (2 * n) ltac:(lia)). lia.
Qed.

(** X17. [updateStatistics] on entries whose sizes are not negative and
    small enough for the division of the JS runtime to round like the exact
    one (the sum of the sizes plus the number of entries is below 2^52).
    The call never throws, prints one line and leaves the manager as it was
    but for the two size statistics: every other field of the record, the
    disk and the journal are unchanged.  Afterwards [totalDiskUsage] is the
    sum of the sizes of the entries and [averageSaveSize] is the integer
    nearest to the exact mean, the half rounded upwards (0 when there is no
    entry); a second call prints its line and changes nothing else. *)
Theorem updateStatistics_rounds_to_nearest st :
  sizes_in_range (metadata st) ->
  let n := entry_count (saves (metadata st)) in
  let total := entries_total (saves (metadata st)) in
  exists avg,
    updateStatistics st
    = (Ok tt, printed (with_metadata st
                         (set_statistics (metadata st)
                            (set_sizes (statistics (metadata st)) avg total)))
                      LOG "Statistics updated")
    /\ (n = 0 -> avg = 0 /\ total = 0)
    /\ (0 < n -> 2 * total - n < 2 * n * avg <= 2 * total + n)
    /\ (forall st', updateStatistics st = (Ok tt, st') ->
        updateStatistics st' = (Ok tt, printed st' LOG "Statistics updated")).
Proof.
  intros _ n total. rewrite updateStatistics_eq.
  destruct (refreshed_eq (metadata st)) as (a & t & Heq).
  destruct (refreshed_fresh (metadata st)) as [Ht Ha].
  rewrite refreshed_saves in Ht, Ha. rewrite Heq in Ht, Ha.
  cbn [statistics set_statistics totalDiskUsage averageSaveSize set_sizes] in Ht, Ha.
  exists a. split; [by rewrite Heq, Ht|]. unfold n, total, entry_count. split; [|split].
  - intros Hz. rewrite decide_True in Ha by lia. split; [exact Ha|].
    assert (Hs : saves (metadata st) = ∅) by (apply map_size_empty_iff; lia).
    by rewrite Hs.
  - intros Hpos. rewrite decide_False in Ha by lia. rewrite Ha.
    by apply math_round_div_bounds.
  - intros st' [= <-]. rewrite updateStatistics_eq. proj. rewrite refreshed_idem.
    reflexivity.
Qed.

Lemma updateStatistics_rounds_to_nearest_witness :
  exists st',
    updateStatistics run2 = (Ok tt, st')
    /\ averageSaveSize (statistics (metadata st')) = 2
    /\ totalDiskUsage (statistics (metadata st')) = 3.
Proof.
  destruct (updateStatistics_rounds_to_nearest run2) as (avg & Hrun & _ & Havg & _).
  - vm_compute. split; [reflexivity|]. reflexivity.
  - eexists. split; [exact Hrun|]. proj.
    cbn [statistics set_statistics averageSaveSize totalDiskUsage set_sizes].
    split; [|vm_compute; reflexivity].
    assert (Hn : entry_count (saves (metadata run2)) = 2) by (vm_compute; reflexivity).
    assert (Ht : entries_total (saves (metadata run2)) = 3) by (vm_compute; reflexivity).
    rewrite Hn, Ht in Havg. lia.
Defined.

(** ** What is on the disk when a call returns *)

Lemma saveMetadata_returned s s' lvl msg :
  saveMetadata s = (Ok tt, s') ->
  persisted (printed s' lvl msg)
  = Some (JSON.stringify (toJson (metadata (printed s' lvl msg))))
  /\ nodes (disk (printed s' lvl msg)) !! tempFile = None.
Proof.
  intros Hs.
  pose proof (saveMetadata_frame _ _ _ Hs) as (Hm & _).
  pose proof (saveMetadata_effects _ _ _ Hs) as (_ & _ & _ & Hok & _).
  destruct Hok as [_ Hp]; [reflexivity|]. unfold persisted in *. proj.
  rewrite Hp, Hm. split; [reflexivity|].
  destruct (saveMetadata_cases s) as [(c & He & _)|[(c & He & _)|(He & _)]];
    rewrite He in Hs; try discriminate. injection Hs as <-. proj.
  rewrite lookup_insert_ne by discriminate. apply lookup_delete_eq.
Qed.

Lemma registerSaveFile_returned f i ts st r st' :
  registerSaveFile f i ts st = (Ok r, st') ->
  persisted st' = Some (JSON.stringify (toJson (metadata st')))
  /\ nodes (disk st') !! tempFile = None
  /\ r = saves (metadata st') !! f /\ is_Some r.
Proof.
  intros Hrun.
  destruct (fs_readFile f st) as [[content|e|] st1] eqn:Hread.
  - rewrite (registerSaveFile_readable _ _ _ _ _ _ Hread) in Hrun. cbv zeta in Hrun.
    match type of Hrun with context [saveMetadata ?s] =>
      destruct (saveMetadata s) as [[[]|?|] st3] eqn:Hs end; try discriminate.
    injection Hrun as <- <-.
    destruct (saveMetadata_returned _ _ LOG ("Save file registered: " +:+ f) Hs) as [Hp Ht].
    split; [exact Hp|]. split; [exact Ht|]. split; [reflexivity|].
    apply saveMetadata_frame in Hs as (Hm & _). rewrite Hm. proj.
    destruct (registered_fields (metadata st) f i content ts) as (Hsv & _).
    rewrite Hsv, lookup_insert_eq. eauto.
  - rewrite (registerSaveFile_unreadable _ _ _ _ _ _ Hread) in Hrun. discriminate.
  - by apply fs_readFile_inv in Hread as [_ ?].
Qed.

(** X18. When [registerSaveFile] or [updateConfiguration] returns (instead
    of throwing), metadata.json holds the text of the record as it is after
    the call, and the temporary file is gone. *)
Theorem returned_mutation_is_on_disk st :
  (forall f i ts r st',
     registerSaveFile f i ts st = (Ok r, st') ->
     persisted st' = Some (JSON.stringify (toJson (metadata st')))
     /\ nodes (disk st') !! tempFile = None)
  /\ (forall c st',
     updateConfiguration c st = (Ok tt, st') ->
     persisted st' = Some (JSON.stringify (toJson (metadata st')))
     /\ nodes (disk st') !! tempFile = None).
Proof.
  split.
  - intros f i ts r st' Hrun.
    destruct (registerSaveFile_returned _ _ _ _ _ _ Hrun) as (Hp & Ht & _). by split.
  - intros c st' Hrun. rewrite updateConfiguration_eq in Hrun.
    destruct (saveMetadata _) as [[[]|?|] st3] eqn:Hs; try discriminate.
    injection Hrun as <-. by eapply saveMetadata_returned.
Qed.

Lemma returned_mutation_is_on_disk_witness :
  persisted run1 = Some (JSON.stringify (toJson (metadata run1)))
  /\ nodes (disk run1) !! tempFile = None.
Proof.
  destruct (returned_mutation_is_on_disk run0) as [Hreg _].
  apply (Hreg "a.sav" noInfo 1000 (saves (metadata run1) !! "a.sav") run1).
  vm_compute. reflexivity.
Defined.

(** X19. In a manager none of whose calls changed the prototype chain of
    [saves], a registration of a filename other than [__proto__] that
    returned survives a restart: a manager constructed afterwards on the same
    directory (the file system answering the access and the read of
    metadata.json) loads a record equal to the one the registration left,
    and [getSaveFileMetadata] answers the entry the registration returned. *)
Theorem registration_survives_restart f i ts st r st' dir iso :
  Plain st ->
  f <> "__proto__" ->
  registerSaveFile f i ts st = (Ok r, st') ->
  fault_of (faults (disk st')) (Access metadataFile) = None ->
  fault_of (faults (disk st')) (ReadFile metadataFile) = None ->
  exists st'',
    loadMetadata iso (construct dir (disk st')) = (Ok tt, st'')
    /\ metadata st'' = metadata st'
    /\ fst (getSaveFileMetadata f st'') = Ok (Own <$> r)
    /\ is_Some r.
Proof.
  intros _ _ Hrun Ha Hr.
  destruct (registerSaveFile_returned _ _ _ _ _ _ Hrun) as (Hp & _ & -> & Hsome).
  apply persisted_lookup in Hp.
  rewrite (loadMetadata_read iso (construct dir (disk st')) _ Ha Hr Hp).
  destruct (parse_merge_roundtrip defaultMetadata (metadata st')) as (doc & -> & Hm).
  cbn [metadata construct]. rewrite Hm. eexists. split; [reflexivity|].
  split; [reflexivity|]. rewrite getSaveFileMetadata_eq. proj. unfold saves_get.
  split; [|exact Hsome]. destruct Hsome as [e ->]. reflexivity.
Qed.

Lemma registration_survives_restart_witness :
  exists st'',
    loadMetadata "2024-01-01T00:00:00.000Z" (construct "/saves" (disk run1)) = (Ok tt, st'')
    /\ metadata st'' = metadata run1
    /\ is_Some (saves (metadata st'') !! "a.sav").
Proof.
  destruct (registration_survives_restart "a.sav" noInfo 1000 run0
              (saves (metadata run1) !! "a.sav") run1 "/saves" "2024-01-01T00:00:00.000Z")
    as (st'' & Hrun & Hm & _ & Hsome).
  - apply plain_new.
  - discriminate.
  - vm_compute. reflexivity.
  - vm_compute. reflexivity.
  - vm_compute. reflexivity.
  - exists st''. split; [exact Hrun|]. split; [exact Hm|]. by rewrite Hm.
Defined.

(** ** The queries *)

Lemma object_values_spec m e :
  e ∈ object_values m <-> exists k, saves m !! k = Some e.
Proof.
  unfold object_values. rewrite list_elem_of_fmap. split.
  - intros ([k v] & -> & Hin). apply elem_of_map_to_list in Hin. eauto.
  - intros [k Hk]. exists (k, e). split; [done|]. by apply elem_of_map_to_list.
Qed.

Lemma filter_partition_length {A} (p : A -> bool) (l : list A) :
  (length (List.filter p l) + length (List.filter (fun x => negb (p x)) l) = length l)%nat.
Proof.
  induction l as [|x l IH]; [reflexivity|]. cbn [List.filter].
  destruct (p x); cbn [negb length]; lia.
Qed.

Lemma backup_count_by_name (l : list (string * Entry.t)) :
  (forall k e, (k, e) ∈ l -> Entry.isBackup e = includes k "backup_") ->
  length (List.filter (fun file => Entry.isBackup file) (map snd l))
  = length (List.filter (fun k => includes k "backup_") (map fst l)).
Proof.
  induction l as [|[k e] l IH]; intros H; [reflexivity|].
  cbn [map List.filter fst snd]. rewrite (H k e) by set_solver.
  destruct (includes k "backup_"); cbn [length]; rewrite IH; try done;
    intros k' e' Hin; apply H; set_solver.
Qed.

(** X20. [getStatistics] changes nothing and counts the entries:
    [totalFiles] is their number and [backupFiles + regularFiles] is
    [totalFiles].  The six statistics it passes on are the stored ones: the
    sizes are not recomputed.  In every state the store reaches from the
    constructor's record, [backupFiles] is the number of tracked filenames
    that contain "backup_". *)
Theorem getStatistics_counts st :
  exists s,
    getStatistics st = (Ok s, st)
    /\ SystemStatistics.totalFiles s = entry_count (saves (metadata st))
    /\ SystemStatistics.backupFiles s + SystemStatistics.regularFiles s
       = SystemStatistics.totalFiles s
    /\ 0 <= SystemStatistics.backupFiles s
    /\ 0 <= SystemStatistics.regularFiles s
    /\ SystemStatistics.averageSaveSize s = averageSaveSize (statistics (metadata st))
    /\ SystemStatistics.totalDiskUsage s = totalDiskUsage (statistics (metadata st))
    /\ SystemStatistics.totalSaveOperations s = totalSaveOperations (statistics (metadata st))
    /\ SystemStatistics.totalLoadOperations s = totalLoadOperations (statistics (metadata st))
    /\ SystemStatistics.lastSuccessfulSave s = lastSuccessfulSave (statistics (metadata st))
    /\ SystemStatistics.lastSuccessfulLoad s = lastSuccessfulLoad (statistics (metadata st))
    /\ (Reachable st ->
        SystemStatistics.backupFiles s
        = count_where (fun f => includes f "backup_") (object_keys (metadata st))).
Proof.
  eexists. split; [reflexivity|].
  cbn [SystemStatistics.totalFiles SystemStatistics.backupFiles SystemStatistics.regularFiles
       SystemStatistics.averageSaveSize SystemStatistics.totalDiskUsage
       SystemStatistics.totalSaveOperations SystemStatistics.totalLoadOperations
       SystemStatistics.lastSuccessfulSave SystemStatistics.lastSuccessfulLoad].
  split; [unfold entry_count; by rewrite object_values_length|].
  split; [pose proof (filter_partition_length (fun file => Entry.isBackup file)
                        (object_values (metadata st))); lia|].
  split; [lia|]. split; [lia|]. do 6 (split; [reflexivity|]).
  intros Hreach. unfold count_where, object_values, object_keys. f_equal.
  apply backup_count_by_name. intros k e Hin%elem_of_map_to_list.
  exact (reachable_backup_flag st Hreach k e Hin).
Qed.

Lemma reachable_archive2 : Reachable archive2.
Proof.
  apply reach_step with (st := archive1); [|apply step_call].
  apply reach_step with (st := archive0); [|apply step_call].
  apply reach_bootstrap.
Defined.

Lemma getStatistics_counts_witness :
  exists s,
    getStatistics archive2 = (Ok s, archive2)
    /\ SystemStatistics.totalFiles s = 2
    /\ SystemStatistics.backupFiles s = 1
    /\ SystemStatistics.regularFiles s = 1.
Proof.
  destruct (getStatistics_counts archive2)
    as (s & Hrun & Ht & Hsum & _ & _ & _ & _ & _ & _ & _ & _ & Hb).
  specialize (Hb reachable_archive2).
  exists s. split; [exact Hrun|].
  assert (H2 : SystemStatistics.totalFiles s = 2) by (rewrite Ht; vm_compute; reflexivity).
  assert (H1 : SystemStatistics.backupFiles s = 1) by (rewrite Hb; vm_compute; reflexivity).
  split; [exact H2|]. split; [exact H1|]. lia.
Defined.

Lemma fold_min_spec l x :
  let r := fold_left Z.min l x in
  r <= x /\ (forall y, y ∈ l -> r <= y) /\ (r = x \/ r ∈ l).
Proof.
  cbv zeta. revert x. induction l as [|a l IH]; intros x; cbn [fold_left].
  - split; [lia|]. split; [|by left]. intros y Hy. by apply elem_of_nil in Hy.
  - destruct (IH (Z.min x a)) as (H1 & H2 & H3). split; [lia|]. split.
    + intros y [->|Hy]%elem_of_cons; [lia|by apply H2].
    + destruct H3 as [H3|H3]; [|right; set_solver].
      destruct (Z.min_spec x a) as [[_ Hm]|[_ Hm]]; [left|right]; rewrite H3, Hm;
        [done|set_solver].
Qed.

Lemma fold_max_spec l x :
  let r := fold_left Z.max l x in
  x <= r /\ (forall y, y ∈ l -> y <= r) /\ (r = x \/ r ∈ l).
Proof.
  cbv zeta. revert x. induction l as [|a l IH]; intros x; cbn [fold_left].
  - split; [lia|]. split; [|by left]. intros y Hy. by apply elem_of_nil in Hy.
  - destruct (IH (Z.max x a)) as (H1 & H2 & H3). split; [lia|]. split.
    + intros y [->|Hy]%elem_of_cons; [lia|by apply H2].
    + destruct H3 as [H3|H3]; [|right; set_solver].
      destruct (Z.max_spec x a) as [[_ Hm]|[_ Hm]]; [right|left]; rewrite H3, Hm;
        [set_solver|done].
Qed.

Lemma math_min_spec l :
  match math_min l with
  | None => l = []
  | Some r => r ∈ l /\ forall y, y ∈ l -> r <= y
  end.
Proof.
  destruct l as [|x l]; [reflexivity|]. cbn [math_min].
  destruct (fold_min_spec l x) as (H1 & H2 & H3). split.
  - destruct H3 as [->|H3]; set_solver.
  - intros y [->|Hy]%elem_of_cons; auto.
Qed.

Lemma math_max_spec l :
  match math_max l with
  | None => l = []
  | Some r => r ∈ l /\ forall y, y ∈ l -> y <= r
  end.
Proof.
  destruct l as [|x l]; [reflexivity|]. cbn [math_max].
  destruct (fold_max_spec l x) as (H1 & H2 & H3). split.
  - destruct H3 as [->|H3]; set_solver.
  - intros y [->|Hy]%elem_of_cons; auto.
Qed.

(** X21. The two dates of [getStatistics].  With no entry both are null.
    With entries [oldestSave] is the smallest and [newestSave] the largest
    [created] of the entries: each is the [created] of some entry, and
    every entry's [created] lies between them. *)
Theorem getStatistics_oldest_newest st :
  exists s,
    getStatistics st = (Ok s, st)
    /\ (saves (metadata st) = ∅ ->
        SystemStatistics.oldestSave s = None /\ SystemStatistics.newestSave s = None)
    /\ (saves (metadata st) <> ∅ ->
        exists lo hi,
          SystemStatistics.oldestSave s = Some lo
          /\ SystemStatistics.newestSave s = Some hi
          /\ (exists f e, saves (metadata st) !! f = Some e /\ Entry.created e = lo)
          /\ (exists f e, saves (metadata st) !! f = Some e /\ Entry.created e = hi)
          /\ forall f e, saves (metadata st) !! f = Some e -> lo <= Entry.created e <= hi).
Proof.
  eexists. split; [reflexivity|].
  cbn [SystemStatistics.oldestSave SystemStatistics.newestSave].
  rewrite object_values_length. split.
  - intros He. rewrite He. by rewrite bool_decide_eq_false_2 by (rewrite map_size_empty; lia).
  - intros Hne. rewrite bool_decide_eq_true_2
      by (apply map_size_non_empty_iff in Hne; lia).
    pose proof (math_min_spec (map Entry.created (object_values (metadata st)))) as Hmin.
    pose proof (math_max_spec (map Entry.created (object_values (metadata st)))) as Hmax.
    assert (Hnil : map Entry.created (object_values (metadata st)) <> []).
    { intros Hnil%(f_equal (@length _)). rewrite length_map, object_values_length in Hnil.
      apply map_size_non_empty_iff in Hne. cbn in Hnil. lia. }
    destruct (math_min _) as [lo|]; [|done]. destruct (math_max _) as [hi|]; [|done].
    destruct Hmin as [Hlo Hmin], Hmax as [Hhi Hmax].
    exists lo, hi. split; [reflexivity|]. split; [reflexivity|].
    apply list_elem_of_fmap in Hlo as (elo & -> & [klo Hklo]%object_values_spec).
    apply list_elem_of_fmap in Hhi as (ehi & -> & [khi Hkhi]%object_values_spec).
    split; [by exists klo, elo|]. split; [by exists khi, ehi|].
    intros f e Hf.
    assert (Hin : Entry.created e ∈ map Entry.created (object_values (metadata st))).
    { apply list_elem_of_fmap. exists e. split; [done|]. apply object_values_spec. eauto. }
    split; [by apply Hmin|by apply Hmax].
Qed.

Lemma getStatistics_oldest_newest_witness :
  exists s,
    getStatistics archive2 = (Ok s, archive2)
    /\ SystemStatistics.oldestSave s = Some 1000
    /\ SystemStatistics.newestSave s = Some 2000.
Proof.
  destruct (getStatistics_oldest_newest archive2) as (s & Hrun & _ & Hsome).
  exists s. split; [exact Hrun|].
  assert (Hs : fst (getStatistics archive2) = Ok s) by (by rewrite Hrun).
  vm_compute in Hs. injection Hs as <-. split; reflexivity.
Defined.

(** ** The sorted list *)

Lemma sort_insert_perm {A} (cmp : A -> A -> Z) x l : sort_insert cmp x l ≡ₚ x :: l.
Proof.
  induction l as [|y l IH]; [reflexivity|]. cbn [sort_insert].
  destruct (cmp x y <=? 0); [reflexivity|]. rewrite IH. apply Permutation_swap.
Qed.

Lemma array_sort_perm {A} (cmp : A -> A -> Z) l : array_sort cmp l ≡ₚ l.
Proof.
  induction l as [|x l IH]; [reflexivity|]. unfold array_sort in *. cbn [fold_right].
  by rewrite sort_insert_perm, IH.
Qed.

Lemma sort_insert_sorted x l :
  descending l -> descending (sort_insert by_lastModified x l).
Proof.
  induction l as [|y l IH]; [by repeat constructor|]. intros [Hy Hl]. cbn [sort_insert].
  unfold by_lastModified at 1.
  destruct (Z.leb_spec (Entry.lastModified y - Entry.lastModified x) 0).
  - split; [|by split]. constructor; [lia|].
    eapply Forall_impl; [exact Hy|]. cbn. intros z Hz. lia.
  - split; [|by apply IH]. rewrite sort_insert_perm. constructor; [lia|exact Hy].
Qed.

Lemma array_sort_sorted l : descending (array_sort by_lastModified l).
Proof.
  induction l as [|x l IH]; [exact I|]. unfold array_sort in *. cbn [fold_right].
  by apply sort_insert_sorted.
Qed.

Lemma descending_newest_first l : descending l -> newest_first l.
Proof.
  unfold newest_first.
  induction l as [|x l IH]; intros Hl i j a b Hij Hi Hj; [done|]. destruct Hl as [Hx Hl].
  destruct j as [|j]; [lia|]. cbn in Hj. destruct i as [|i].
  - cbn in Hi. injection Hi as <-. rewrite Forall_forall in Hx. apply Hx.
    by eapply list_elem_of_lookup_2.
  - cbn in Hi. apply (IH Hl i j); [lia|done|done].
Qed.

Lemma sort_insert_stable t x l :
  modified_at t (sort_insert by_lastModified x l) = modified_at t (x :: l).
Proof.
  unfold modified_at. induction l as [|y l IH]; [reflexivity|]. cbn [sort_insert].
  unfold by_lastModified at 1.
  destruct (Z.leb_spec (Entry.lastModified y - Entry.lastModified x) 0); [reflexivity|].
  cbn [List.filter] in *. rewrite IH.
  destruct (Z.eqb_spec (Entry.lastModified x) t), (Z.eqb_spec (Entry.lastModified y) t);
    try reflexivity. lia.
Qed.

Lemma array_sort_stable t l :
  modified_at t (array_sort by_lastModified l) = modified_at t l.
Proof.
  induction l as [|x l IH]; [reflexivity|]. unfold array_sort in *. cbn [fold_right].
  rewrite sort_insert_stable. unfold modified_at in *. cbn [List.filter]. by rewrite IH.
Qed.

(** X22. [getAllSaveFiles] changes nothing and answers the entries of the
    record, each one once, most recently modified first; entries modified at
    the same time keep the order [Object.values] gives them. *)
Theorem getAllSaveFiles_sorted st :
  exists l,
    getAllSaveFiles st = (Ok l, st)
    /\ l ≡ₚ object_values (metadata st)
    /\ (forall e, e ∈ l <-> exists f, saves (metadata st) !! f = Some e)
    /\ length l = size (saves (metadata st))
    /\ newest_first l
    /\ forall t, modified_at t l = modified_at t (object_values (metadata st)).
Proof.
  exists (array_sort by_lastModified (object_values (metadata st))).
  split; [reflexivity|].
  pose proof (array_sort_perm by_lastModified (object_values (metadata st))) as Hp.
  split; [exact Hp|]. split; [|split; [|split]].
  - intros e. rewrite Hp. apply object_values_spec.
  - by rewrite Hp, object_values_length.
  - apply descending_newest_first, array_sort_sorted.
  - intros t. apply array_sort_stable.
Qed.

(** ** The export *)

Lemma exportMetadata_eq name st :
  let text := JSON.stringify (toJson (metadata st)) in
  exportMetadata name st =
    match fault_of (faults (disk st)) (WriteFile name) with
    | Some e =>
        (Throw (Error ("Failed to export metadata: " +:+ message (sys_error st e "open" name))),
         journalled st (WriteFile name))
    | None =>
        match nodes (disk st) !! name with
        | Some Directory =>
            (Throw (Error ("Failed to export metadata: "
                           +:+ message (sys_error st EISDIR "open" name))),
             journalled st (WriteFile name))
        | _ =>
            (Ok tt,
             printed (journalled (with_disk st (with_nodes (disk st)
                                                  (<[name := File text]> (nodes (disk st)))))
                        (WriteFile name))
               LOG ("Metadata exported to: " +:+ path_join (saveDirectory st) name))
        end
    end.
Proof.
  cbv zeta. unfold exportMetadata, try_catch, bind at 1, this_metadata.
  unfold bind at 1, fs_writeFile, fs_call, sys_error.
  destruct (fault_of _ _); [reflexivity|].
  destruct (nodes (disk st) !! name) as [[?|]|]; reflexivity.
Qed.

(** X23. For a target inside the save directory: when the file system lets it
    be written (no fault, and the name is not a directory), [exportMetadata]
    returns: the target holds the
    text [saveMetadata] would persist, written directly (no temporary file,
    no rename); no other file and nothing of the record has changed; and a
    manager constructed on a directory whose metadata.json holds that text
    loads a record equal to the exported one. *)
Theorem exportMetadata_round_trip name st :
  fault_of (faults (disk st)) (WriteFile name) = None ->
  nodes (disk st) !! name <> Some Directory ->
  let text := JSON.stringify (toJson (metadata st)) in
  exists st',
    exportMetadata name st = (Ok tt, st')
    /\ metadata st' = metadata st
    /\ nodes (disk st') = <[name := File text]> (nodes (disk st))
    /\ journal st' = WriteFile name :: journal st
    /\ (forall r s, saveMetadata st = (Ok r, s) ->
                    nodes (disk s) !! metadataFile = Some (File text))
    /\ (forall dir d iso,
          nodes d !! metadataFile = Some (File text) ->
          fault_of (faults d) (Access metadataFile) = None ->
          fault_of (faults d) (ReadFile metadataFile) = None ->
          exists st'', loadMetadata iso (construct dir d) = (Ok tt, st'')
                       /\ metadata st'' = metadata st).
Proof.
  intros Hf Hd text. rewrite exportMetadata_eq, Hf. cbv zeta. fold text.
  eexists. split.
  { destruct (nodes (disk st) !! name) as [[?|]|]; [reflexivity|done|reflexivity]. }
  proj. split; [reflexivity|]. split; [reflexivity|]. split; [reflexivity|]. split.
  - intros [] s Hs. apply saveMetadata_effects in Hs as (_ & _ & _ & Hok & _).
    destruct Hok as [_ Hp]; [reflexivity|]. by apply persisted_lookup.
  - intros dir d iso Hn Ha Hr.
    rewrite (loadMetadata_read iso (construct dir d) _ Ha Hr Hn).
    destruct (parse_merge_roundtrip defaultMetadata (metadata st)) as (doc & Hp & Hm).
    fold text in Hp. rewrite Hp. cbn [metadata construct]. rewrite Hm. by eexists.
Qed.

Lemma exportMetadata_round_trip_witness :
  exists st',
    exportMetadata "export.json" run2 = (Ok tt, st')
    /\ metadata st' = metadata run2
    /\ nodes (disk st') !! "export.json"
       = Some (File (JSON.stringify (toJson (metadata run2)))).
Proof.
  destruct (exportMetadata_round_trip "export.json" run2) as (st' & Hrun & Hm & Hn & _).
  - vm_compute. reflexivity.
  - vm_compute. discriminate.
  - exists st'. split; [exact Hrun|]. split; [exact Hm|].
    rewrite Hn. apply lookup_insert_eq.
Defined.

(** X24. For a target inside the save directory: when it cannot be written (a
    fault of the file system, or the name is a directory), [exportMetadata]
    throws an [Error] "Failed to
    export metadata: ..." carrying the message of the failure; the record is
    as it was, no other file has changed and nothing is printed. *)
Theorem exportMetadata_failure name st :
  fault_of (faults (disk st)) (WriteFile name) <> None
  \/ nodes (disk st) !! name = Some Directory ->
  exists cause st',
    exportMetadata name st
    = (Throw (Error ("Failed to export metadata: " +:+ message cause)), st')
    /\ code cause <> None
    /\ metadata st' = metadata st
    /\ (forall k, k <> name -> nodes (disk st') !! k = nodes (disk st) !! k)
    /\ console st' = console st.
Proof.
  intros H. rewrite exportMetadata_eq. cbv zeta.
  destruct (fault_of (faults (disk st)) (WriteFile name)) as [e|] eqn:Hf.
  - do 2 eexists. split; [reflexivity|]. by repeat split.
  - destruct H as [H|H]; [done|]. rewrite H.
    do 2 eexists. split; [reflexivity|]. by repeat split.
Qed.

Lemma exportMetadata_failure_witness :
  exists st',
    exportMetadata metadataFile (construct "/saves" shadowed_disk)
    = (Throw (Error ("Failed to export metadata: EISDIR: illegal operation on a directory, "
                     +:+ "open '/saves/metadata.json'")), st')
    /\ nodes (disk st') !! "a.sav" = Some (File "x").
Proof.
  destruct (exportMetadata_failure metadataFile (construct "/saves" shadowed_disk))
    as (cause & st' & Hrun & _ & _ & Hd & _).
  - right. vm_compute. reflexivity.
  - exists st'. split; [|by rewrite Hd]. rewrite Hrun. f_equal.
    assert (Hc : fst (exportMetadata metadataFile (construct "/saves" shadowed_disk))
                 = Throw (Error ("Failed to export metadata: EISDIR: illegal operation on a "
                                 +:+ "directory, open '/saves/metadata.json'")))
      by (vm_compute; reflexivity).
    rewrite Hrun in Hc. exact Hc.
Defined.

(** ** Configuration *)

(** X25. [updateConfiguration] assigns the four settings that the argument
    defines, each value as given (no check of sign or range), and leaves
    the settings it does not define, the entries, the statistics and the
    counters as they were, whether or not persisting then succeeds; it makes
    one attempt to persist even when the argument defines nothing; a second
    call with the same argument changes nothing in the record. *)
Theorem updateConfiguration_effect c st :
  let m := metadata st in
  let st' := after (UpdateConfiguration c) st in
  let m' := metadata st' in
  autoSaveEnabled m' = default (autoSaveEnabled m) (Config.autoSaveEnabled c)
  /\ autoSaveInterval m' = default (autoSaveInterval m) (Config.autoSaveInterval c)
  /\ backupCount m' = default (backupCount m) (Config.backupCount c)
  /\ migrationCompleted m' = default (migrationCompleted m) (Config.migrationCompleted c)
  /\ saves m' = saves m /\ statistics m' = statistics m
  /\ totalSaves m' = totalSaves m /\ lastSave m' = lastSave m /\ version m' = version m
  /\ persist_attempts (journal st') = S (persist_attempts (journal st))
  /\ metadata (after (UpdateConfiguration c) st') = m'.
Proof.
  cbv zeta. cbn [after]. rewrite !updateConfiguration_metadata.
  assert (Hj : persist_attempts (journal (snd (updateConfiguration c st)))
               = S (persist_attempts (journal st))).
  { rewrite updateConfiguration_eq.
    destruct (saveMetadata _) as [r st3] eqn:Hs.
    apply saveMetadata_effects in Hs as (Hj & _).
    by destruct r as [[]|?|]. }
  destruct c as [[a|] [b|] [n|] [d|]]; cbn; rewrite Hj; conjuncts; reflexivity.
Qed.

(** ** The count of missing files *)

Lemma prefix_nil s : String.prefix "" s = true.
Proof. by destruct s. Qed.

Lemma prefix_append sub s t :
  String.prefix sub s = true -> String.prefix sub (s +:+ t) = true.
Proof.
  revert s. induction sub as [|c sub IH]; intros s; [intros _; apply prefix_nil|].
  destruct s as [|d s]; [done|].
  change (String d s +:+ t) with (String d (s +:+ t)). cbn [String.prefix].
  destruct (ascii_dec c d); [apply IH|done].
Qed.

Lemma includes_eq s sub :
  includes s sub = if String.prefix sub s then true
                   else match s with
                        | EmptyString => false
                        | String _ s' => includes s' sub
                        end.
Proof. by destruct s. Qed.

Lemma includes_append_l s t sub : includes s sub = true -> includes (s +:+ t) sub = true.
Proof.
  induction s as [|c s IH]; rewrite includes_eq.
  - destruct (String.prefix sub "") eqn:Hp; [|done]. intros _.
    rewrite includes_eq. by rewrite (prefix_append _ _ t Hp).
  - destruct (String.prefix sub (String c s)) eqn:Hp.
    + intros _. rewrite includes_eq. by rewrite (prefix_append _ _ t Hp).
    + intros H. change (String c s +:+ t) with (String c (s +:+ t)).
      rewrite includes_eq, (IH H). by destruct (String.prefix sub (String c (s +:+ t))).
Qed.

Lemma includes_append_r s t sub : includes t sub = true -> includes (s +:+ t) sub = true.
Proof.
  intros H. induction s as [|c s IH]; [exact H|].
  change (String c s +:+ t) with (String c (s +:+ t)).
  rewrite includes_eq, IH. by destruct (String.prefix sub (String c (s +:+ t))).
Qed.

Lemma message_includes_name st e syscall f sub :
  includes f sub = true -> includes (message (sys_error st e syscall f)) sub = true.
Proof.
  intros H. unfold sys_error, message.
  do 6 apply includes_append_r. apply includes_append_l.
  unfold squote. apply includes_append_r, includes_append_l.
  unfold path_join. by do 2 apply includes_append_r.
Qed.

(** X26. Whether an invalid file counts as missing is decided by the text
    of the verdict.  When the access to a file fails, for whatever reason,
    and the filename contains the letters ENOENT, the verdict is invalid,
    its reason contains ENOENT because it quotes the path, and
    [validateAllSaveFiles] counts the file as missing, also when it is in
    the directory. *)
Theorem missing_is_decided_by_text f st e :
  fault_of (faults (disk st)) (Access f) = Some e ->
  includes f "ENOENT" = true ->
  exists v,
    fst (validateSaveFileIntegrity f st) = Ok v
    /\ Validation.valid v = false
    /\ Validation.error v = Some (message (sys_error st e "access" f))
    /\ includes (Validation.reason v) "ENOENT" = true
    /\ forall results,
         Results.missingFiles (tally results v) = Results.missingFiles results + 1
         /\ Results.invalidFiles (tally results v) = Results.invalidFiles results + 1.
Proof.
  intros Hf Hname. rewrite validate_eq, Hf. eexists. split; [reflexivity|].
  assert (Hinc : includes (Validation.reason (error_verdict f (sys_error st e "access" f)))
                   "ENOENT" = true).
  { cbn [error_verdict Validation.reason].
    by apply includes_append_r, message_includes_name. }
  split; [reflexivity|]. split; [reflexivity|]. split; [exact Hinc|].
  intros results. unfold tally. rewrite Hinc.
  cbn [Results.missingFiles Results.invalidFiles error_verdict Validation.valid negb andb orb].
  by split.
Qed.

Lemma missing_is_decided_by_text_witness :
  is_Some (nodes (disk denied2) !! "ENOENT.sav")
  /\ (exists v, fst (validateSaveFileIntegrity "ENOENT.sav" denied2) = Ok v
                /\ includes (Validation.reason v) "ENOENT" = true)
  /\ (exists results, fst (validateAllSaveFiles denied2) = Ok results
                      /\ Results.missingFiles results = 1).
Proof.
  split; [vm_compute; eauto|].
  split; [|eexists; split; [vm_compute; reflexivity|reflexivity]].
  destruct (missing_is_decided_by_text "ENOENT.sav" denied2 EACCES)
    as (v & Hv & _ & _ & Hinc & _).
  - vm_compute. reflexivity.
  - vm_compute. reflexivity.
  - exists v. split; [exact Hv|exact Hinc].
Defined.

(** ** Reconciling, then validating *)

Lemma saveMetadata_no_new_directory st r st' :
  saveMetadata st = (r, st') ->
  forall k, nodes (disk st) !! k <> Some Directory ->
            nodes (disk st') !! k <> Some Directory.
Proof.
  intros H k Hk.
  destruct (saveMetadata_cases st) as [(e & He & _)|[(e & He & _)|(He & _)]];
    rewrite He in H; injection H as <- <-; proj; [exact Hk| |].
  - destruct (decide (k = tempFile)) as [->|Hne].
    + by rewrite lookup_insert_eq.
    + by rewrite lookup_insert_ne.
  - destruct (decide (k = metadataFile)) as [->|Hne]; [by rewrite lookup_insert_eq|].
    rewrite lookup_insert_ne by done.
    destruct (decide (k = tempFile)) as [->|Hne2]; [by rewrite lookup_delete_eq|].
    by rewrite lookup_delete_ne, lookup_insert_ne.
Qed.

Lemma cleanup_no_new_directory st k :
  nodes (disk st) !! k <> Some Directory ->
  nodes (disk (snd (cleanupOrphanedMetadata st))) !! k <> Some Directory.
Proof.
  intros Hk. rewrite cleanup_eq.
  destruct (fault_of _ _); [exact Hk|]. cbv zeta.
  destruct (0 <? _); [|exact Hk].
  destruct (saveMetadata _) as [r st3] eqn:Hs.
  pose proof (saveMetadata_no_new_directory _ _ _ Hs k) as Hn. proj.
  destruct r as [[]|?|]; cbn [snd]; proj; by apply Hn.
Qed.

Lemma cleanup_tracked st k :
  is_Some (saves (metadata (snd (cleanupOrphanedMetadata st))) !! k) ->
  is_Some (saves (metadata st) !! k).
Proof.
  destruct (cleanup_metadata st) as [->|[->| ->]]; cbv zeta; [done| |];
    rewrite ?refreshed_saves; cbn [saves set_saves]; rewrite pruned_keys_lookup;
    case_decide; try done; by intros [? ?].
Qed.

(** X27. After [cleanupOrphanedMetadata], [validateAllSaveFiles] finds no
    missing file: when the file system answers every call, no entry is named
    metadata.json.tmp and no tracked name is a directory, the validation
    that follows the cleanup reports 0 missing files, and its invalid files
    are exactly the checksum mismatches. *)
Theorem cleanup_then_validateAll_finds_no_missing st :
  faults (disk st) = [] ->
  saves (metadata st) !! tempFile = None ->
  (forall f, is_Some (saves (metadata st) !! f) -> nodes (disk st) !! f <> Some Directory) ->
  exists results st',
    validateAllSaveFiles (after CleanupOrphanedMetadata st) = (Ok results, st')
    /\ Results.missingFiles results = 0
    /\ Results.invalidFiles results = count_where is_mismatch (Results.details results)
    /\ Results.totalFiles results
       = entry_count (saves (metadata (after CleanupOrphanedMetadata st))).
Proof.
  intros Hf Htmp Hdir. cbn [after].
  set (st1 := snd (cleanupOrphanedMetadata st)).
  destruct (cleanup_post st) as (Hfl & Hin); [by rewrite Hf|exact Htmp|]. fold st1 in Hfl, Hin.
  assert (Hf1 : faults (disk st1) = []) by (by rewrite Hfl).
  destruct (validateAll_eq st1) as (vs & st' & Hrun & _ & Hvs).
  eexists. exists st'. split; [exact Hrun|].
  match goal with |- context [fold_left tally vs ?r0] =>
    destruct (tally_fold vs r0) as (Hd & Ht & _ & Hi & _);
    pose proof (tally_missing vs r0) as Hmiss end.
  cbv zeta in *. cbn [Results.details Results.totalFiles Results.invalidFiles
    Results.missingFiles app] in *.
  destruct (verdict_counts st1 (object_keys (metadata st1)) vs Hf1) as (H1 & H2); [|exact Hvs|].
  { intros f Hk%object_keys_spec. split; [exact Hk|].
    apply cleanup_no_new_directory, Hdir. by apply cleanup_tracked. }
  assert (Hgone : count_where (gone st1) (object_keys (metadata st1)) = 0).
  { unfold count_where.
    assert (Hnil : List.filter (gone st1) (object_keys (metadata st1)) = []); [|by rewrite Hnil].
    assert (Hall : forall f, f ∈ object_keys (metadata st1) -> gone st1 f = false).
    { intros f Hk%object_keys_spec. apply Hin in Hk as [n Hn]. unfold gone.
      by rewrite bool_decide_eq_false_2 by congruence. }
    revert Hall. generalize (object_keys (metadata st1)). intros l.
    induction l as [|f l IH]; intros Hall; [reflexivity|].
    cbn [List.filter]. rewrite Hall by set_solver. apply IH. intros g Hg. apply Hall. set_solver. }
  rewrite Hmiss, Hi, Hd, Ht, H1, H2, Hgone.
  split; [lia|]. split; [lia|].
  apply (f_equal (@length _)) in Hvs. rewrite !length_map in Hvs.
  unfold entry_count, object_keys in *. rewrite length_map, length_map_to_list in Hvs. lia.
Qed.

Lemma cleanup_then_validateAll_finds_no_missing_witness :
  (exists r, fst (validateAllSaveFiles emptied2) = Ok r /\ Results.missingFiles r = 2)
  /\ exists results st',
       validateAllSaveFiles (after CleanupOrphanedMetadata emptied2) = (Ok results, st')
       /\ Results.missingFiles results = 0.
Proof.
  split; [eexists; split; [vm_compute; reflexivity|reflexivity]|].
  destruct (cleanup_then_validateAll_finds_no_missing emptied2)
    as (results & st' & Hrun & Hm & _).
  - reflexivity.
  - vm_compute. reflexivity.
  - intros f _. vm_compute. discriminate.
  - exists results, st'. split; [exact Hrun|exact Hm].
Defined.

(** ** Validation never writes *)

(** X28. [validateSaveFileIntegrity] never throws, whatever the file system
    does: every failure becomes a verdict that is not valid and carries the
    message of the error.  It changes neither the record nor the directory,
    prints nothing, and asks the file system for one access and at most one
    read.  A valid verdict is only ever given to a tracked file that is in
    the directory and whose bytes have the stored checksum. *)
Theorem validateSaveFileIntegrity_is_read_only f st :
  exists v st',
    validateSaveFileIntegrity f st = (Ok v, st')
    /\ metadata st' = metadata st /\ disk st' = disk st /\ console st' = console st
    /\ (journal st' = Access f :: journal st
        \/ journal st' = ReadFile f :: Access f :: journal st)
    /\ Validation.filename v = f
    /\ (Validation.valid v = true ->
        exists data stored,
          nodes (disk st) !! f = Some (File data)
          /\ saves (metadata st) !! f = Some stored
          /\ calculateChecksum data = Entry.checksum stored
          /\ Validation.reason v = "File integrity verified")
    /\ (Validation.valid v = false ->
        (exists e, v = error_verdict f e /\ code e <> None)
        \/ v = untracked_verdict f
        \/ Validation.reason v = "Checksum mismatch - file may be corrupted").
Proof.
  rewrite validate_eq.
  destruct (fault_of (faults (disk st)) (Access f)) as [e|].
  { do 2 eexists. split; [reflexivity|]. proj. repeat split; auto; try done.
    intros _. left. by eexists. }
  destruct (nodes (disk st) !! f) as [node|] eqn:Hn.
  2:{ do 2 eexists. split; [reflexivity|]. proj. repeat split; auto; try done.
      intros _. left. by eexists. }
  destruct (saves (metadata st) !! f) as [stored|] eqn:Hs.
  2:{ cbv zeta. destruct (inherited f).
      2:{ do 2 eexists. split; [reflexivity|]. proj. repeat split; auto; try done. }
      destruct (fault_of (faults (disk st)) (ReadFile f)) as [e|]; [|destruct node as [data|]];
        do 2 eexists; (split; [reflexivity|]); proj; repeat split; auto; try done;
        intros _; first [by right; right | left; by eexists]. }
  cbv zeta. destruct (fault_of (faults (disk st)) (ReadFile f)) as [e|].
  { do 2 eexists. split; [reflexivity|]. proj. repeat split; auto; try done.
    intros _. left. by eexists. }
  destruct node as [data|].
  - do 2 eexists. split; [reflexivity|]. proj.
    split; [reflexivity|]. split; [reflexivity|]. split; [reflexivity|].
    split; [by right|]. split; [reflexivity|].
    unfold checked_verdict. cbn [Validation.valid Validation.reason].
    destruct (String.eqb_spec (calculateChecksum data) (Entry.checksum stored)) as [Heq|Hne].
    + split; [|done]. intros _. by exists data, stored.
    + split; [done|]. intros _. by right; right.
  - do 2 eexists. split; [reflexivity|]. proj. repeat split; auto; try done.
    intros _. left. by eexists.
Qed.

(** ** The clone: parsing the text without indentation *)

Lemma closed_no_digit k : closed k -> no_digit k.
Proof. destruct k as [|c k]; [done|]. intros [->|[->| ->]]; reflexivity. Qed.

Lemma scan_frac_closed k : closed k -> scan_frac k = Some (false, k).
Proof. destruct k as [|c k]; [done|]. intros [->|[->| ->]]; reflexivity. Qed.

Lemma scan_exp_closed k : closed k -> scan_exp k = Some (false, k).
Proof. destruct k as [|c k]; [done|]. intros [->|[->| ->]]; reflexivity. Qed.

Lemma parse_number_closed n k :
  closed k -> parse_number (print_Z n k) = Some (JNum n, k).
Proof.
  intros Hk.
  assert (Hpos : forall u, u <> Nil -> unorm u = u ->
            parse_number (print_uint u k) = Some (JNum (Z.of_N (N.of_uint u)), k)).
  { intros u Hnil Hu. unfold parse_number.
    destruct (print_uint_head u k Hnil) as (c & r & Hs & _ & Hc).
    rewrite Hs, Hc, <- Hs.
    rewrite scan_digits_print by by apply closed_no_digit.
    by rewrite Hu, uint_beq_refl, scan_frac_closed, scan_exp_closed. }
  assert (Hneg : forall u, unorm u = u ->
            parse_number (String "-" (print_uint u k))
            = Some (JNum (- Z.of_N (N.of_uint u)), k)).
  { intros u Hu. unfold parse_number. cbn [Ascii.eqb Bool.eqb].
    rewrite scan_digits_print by by apply closed_no_digit.
    by rewrite Hu, uint_beq_refl, scan_frac_closed, scan_exp_closed. }
  destruct n as [|p|p]; cbn [print_Z].
  - by apply (Hpos (D0 Nil)).
  - rewrite Hpos; [|apply DecimalPos.Unsigned.to_uint_nonnil|apply to_uint_normal].
    unfold N.of_uint. by rewrite DecimalPos.Unsigned.of_to.
  - rewrite Hneg; [|apply to_uint_normal].
    unfold N.of_uint. by rewrite DecimalPos.Unsigned.of_to.
Qed.

Lemma print_flat_head j k :
  plain j ->
  exists c r, print_flat j k = String c r /\ is_ws c = false /\ Ascii.eqb c "]" = false.
Proof.
  intros Hp. destruct j as [|[]|n|lit|s|[|x xs]|[|[key v] ms]]; try done;
    try (do 2 eexists; (split; [reflexivity|]); by split).
  destruct (print_Z_head n k) as (c & r & Hs & Hc). exists c, r.
  split; [exact Hs|]. by apply numeric_head.
Qed.

Lemma flat_elems_closed pr k xs : closed (flat_elems pr (String "]" k) xs).
Proof. destruct xs; cbn; auto. Qed.

Lemma flat_members_closed pr k ms : closed (flat_members pr (String "}" k) ms).
Proof. destruct ms as [|[key v] ms]; cbn; auto. Qed.

(** With enough fuel, a value printed without indentation, the elements of
    such an array and the members of such an object are read back. *)
Lemma parse_flat fuel :
  (forall j k,
      plain j -> (need j <= fuel)%nat -> closed k ->
      parse_value fuel (print_flat j k) = Some (j, k))
  /\ (forall xs x k,
      plain (JArr (x :: xs)) -> (need (JArr (x :: xs)) <= S fuel)%nat ->
      parse_elements fuel (print_flat x (flat_elems print_flat (String "]" k) xs))
      = Some (x :: xs, k))
  /\ (forall ms key v k,
      plain (JObj ((key, v) :: ms)) -> (need (JObj ((key, v) :: ms)) <= S fuel)%nat ->
      parse_members fuel
        (flat_member print_flat key v (flat_members print_flat (String "}" k) ms))
      = Some ((key, v) :: ms, k)).
Proof.
  induction fuel as [|fuel (IHv & IHe & IHm)].
  { split; [|split].
    - intros j k _ Hn. destruct j; cbn in Hn; lia.
    - intros xs x k _ Hn. cbn in Hn. lia.
    - intros ms key v k _ Hn. cbn in Hn. lia. }
  split; [|split].
  - intros j k Hp Hn Hk.
    destruct j as [|[]|n|lit|s|[|x xs]|[|[key v] ms]]; try done.
    + destruct (print_Z_head n k) as (c & r & Hs & Hc). cbn [print_flat].
      rewrite Hs, parse_value_numeric by done. rewrite <- Hs.
      by apply parse_number_closed.
    + cbn [print_flat]. unfold quote. by rewrite parse_value_string, parse_string_quote.
    + cbn [print_flat]. rewrite parse_value_array.
      destruct Hp as [Hx Hxs].
      destruct (print_flat_head x (flat_elems print_flat (String "]" k) xs) Hx)
        as (c & r & Hs & Hws & Hc).
      rewrite Hs, skip_ws_keep, Hc, <- Hs by done.
      rewrite IHe; [reflexivity|by split|exact Hn].
    + cbn [print_flat]. rewrite parse_value_object.
      unfold flat_member at 1, quote at 1. rewrite skip_ws_keep by reflexivity.
      change (Ascii.eqb dquote "}") with false. cbv iota.
      change (String dquote (escape key _)) with
        (flat_member print_flat key v (flat_members print_flat (String "}" k) ms)).
      rewrite IHm; [reflexivity|exact Hp|exact Hn].
  - intros xs x k [Hx Hxs] Hn. cbn [parse_elements].
    cbn [need map list_sum fold_right] in Hn.
    rewrite IHv; [|exact Hx|lia|apply flat_elems_closed].
    destruct xs as [|y ys].
    + cbn [flat_elems]. rewrite skip_ws_keep by reflexivity. reflexivity.
    + cbn [flat_elems]. rewrite skip_ws_keep by reflexivity.
      change (Ascii.eqb "," ",") with true. cbv iota.
      rewrite IHe; [reflexivity|exact Hxs|].
      cbn [need map list_sum fold_right] in Hn |- *. lia.
  - intros ms key v k [Hv Hms] Hn. cbn [need map list_sum fold_right snd] in Hn.
    unfold flat_member, quote. cbn [parse_members]. rewrite skip_ws_keep by reflexivity.
    change (Ascii.eqb dquote dquote) with true. cbv iota.
    rewrite parse_string_quote. rewrite skip_ws_keep by reflexivity.
    change (Ascii.eqb ":" ":") with true. cbv iota.
    rewrite IHv; [|exact Hv|lia|apply flat_members_closed].
    destruct ms as [|[key' v'] ms'].
    + cbn [flat_members]. rewrite skip_ws_keep by reflexivity. reflexivity.
    + cbn [flat_members]. rewrite skip_ws_keep by reflexivity.
      change (Ascii.eqb "," ",") with true. cbv iota.
      rewrite IHm; [reflexivity|exact Hms|].
      cbn [need map list_sum fold_right snd] in Hn |- *. lia.
Qed.

Lemma length_print_flat bound :
  forall j k, (need j <= bound)%nat -> plain j ->
    (need j + String.length k <= String.length (print_flat j k))%nat.
Proof.
  induction bound as [|bound IH]; intros j k Hb Hp.
  { destruct j; cbn in Hb; lia. }
  destruct j as [|[]|n|lit|s|[|x xs]|[|[key v] ms]]; try done;
    try (cbn [need print_flat map]; rewrite length_append;
         cbn [String.length list_sum fold_right]; lia).
  - cbn [need print_flat]. apply length_print_Z.
  - cbn [need print_flat]. pose proof (length_quote s k). lia.
  - cbn [print_flat]. cbn [String.length].
    destruct Hp as [Hx Hxs]. cbn [need map] in Hb |- *. rewrite list_sum_cons in Hb |- *.
    assert (Hrest : forall l close,
      fold_right (fun x acc => plain x /\ acc) True l ->
      (list_sum (map (fun x => S (need x)) l) <= bound)%nat ->
      (list_sum (map (fun x => S (need x)) l) + String.length close
       <= String.length (flat_elems print_flat close l))%nat).
    { induction l as [|y l IHl]; intros close Hl Hn; [cbn; lia|].
      cbn [flat_elems String.length map] in *. rewrite list_sum_cons in Hn |- *.
      destruct Hl as [Hy Hl].
      pose proof (IH y (flat_elems print_flat close l) ltac:(lia) Hy) as Hy'.
      specialize (IHl close Hl ltac:(lia)). lia. }
    pose proof (IH x (flat_elems print_flat (String "]" k) xs) ltac:(lia) Hx) as Hx'.
    specialize (Hrest xs (String "]" k) Hxs ltac:(lia)).
    cbn [String.length] in Hrest. lia.
  - cbn [print_flat]. cbn [String.length].
    destruct Hp as [Hv Hms]. cbn [need map snd] in Hb |- *. rewrite list_sum_cons in Hb |- *.
    assert (Hmember : forall key v rest,
      plain v -> (need v <= bound)%nat ->
      (need v + String.length rest
       <= String.length (flat_member print_flat key v rest))%nat).
    { intros key' v' rest Hv' Hn'. unfold flat_member.
      pose proof (length_quote key' (String ":" (print_flat v' rest))) as Hq.
      cbn [String.length] in Hq. pose proof (IH v' rest Hn' Hv'). lia. }
    assert (Hrest : forall l close,
      fold_right (fun kv acc => plain (snd kv) /\ acc) True l ->
      (list_sum (map (fun kv => S (need (snd kv))) l) <= bound)%nat ->
      (list_sum (map (fun kv => S (need (snd kv))) l) + String.length close
       <= String.length (flat_members print_flat close l))%nat).
    { induction l as [|[key' v'] l IHl]; intros close Hl Hn; [cbn; lia|].
      cbn [flat_members String.length map snd] in *. rewrite list_sum_cons in Hn |- *.
      destruct Hl as [Hy Hl].
      pose proof (Hmember key' v' (flat_members print_flat close l) Hy ltac:(lia)) as Hy'.
      specialize (IHl close Hl ltac:(lia)). lia. }
    pose proof (Hmember key v (flat_members print_flat (String "}" k) ms) Hv ltac:(lia)) as Hv'.
    specialize (Hrest ms (String "}" k) Hms ltac:(lia)).
    cbn [String.length] in Hrest. lia.
Qed.

Lemma parse_stringify_flat j : plain j -> JSON.parse (stringify_flat j) = Some j.
Proof.
  intros Hp. unfold JSON.parse, stringify_flat.
  destruct (parse_flat (2 * String.length (print_flat j "") + 2)) as (Hv & _).
  rewrite Hv; [reflexivity|exact Hp| |exact I].
  pose proof (length_print_flat (need j) j "" (le_n _) Hp). lia.
Qed.

(** X29. [getMetadata] never throws and changes nothing.  The clone it
    returns is the document of the record: every property of the record
    with its value, the entries under their filenames, and [lastAccessed]
    only on entries that have one; read back into a record it gives the
    record itself, so nothing is lost or altered by the copy. *)
Theorem getMetadata_is_a_faithful_copy st :
  getMetadata st = (Ok (toJson (metadata st)), st)
  /\ forall d, merge d (toJson (metadata st)) = Some (metadata st).
Proof.
  split; [|intros d; apply merge_roundtrip].
  unfold getMetadata, bind, this_metadata, JSON_parse.
  by rewrite parse_stringify_flat by apply plain_toJson.
Qed.

(** ** The save files are never written *)

Lemma saveMetadata_disk_frame s r s' :
  saveMetadata s = (r, s') ->
  faults (disk s') = faults (disk s) /\ saveDirectory s' = saveDirectory s
  /\ forall k, k <> metadataFile -> k <> tempFile ->
               nodes (disk s') !! k = nodes (disk s) !! k.
Proof.
  intros Hs. pose proof (saveMetadata_frame _ _ _ Hs) as (_ & Hd & Hf & _).
  split; [exact Hf|]. split; [exact Hd|]. by eapply saveMetadata_nodes.
Qed.

(** X30. No call of the store writes, creates or removes a save file.
    Whatever the call ([registerSaveFile], [unregisterSaveFile],
    [recordLoadOperation], [updateConfiguration], [cleanupOrphanedMetadata],
    [validateSaveFileIntegrity], [validateAllSaveFiles]) and whether it
    returns or throws, every file of the directory other than metadata.json
    and metadata.json.tmp is afterwards what it was before, and the manager
    still works on the same directory. *)
Theorem calls_never_touch_save_files op st :
  saveDirectory (after op st) = saveDirectory st
  /\ faults (disk (after op st)) = faults (disk st)
  /\ forall k, k <> metadataFile -> k <> tempFile ->
               nodes (disk (after op st)) !! k = nodes (disk st) !! k.
Proof.
  enough (Hshape :
    (saveDirectory (after op st) = saveDirectory st /\ disk (after op st) = disk st)
    \/ exists s r s',
         saveMetadata s = (r, s') /\ disk s = disk st /\ saveDirectory s = saveDirectory st
         /\ saveDirectory (after op st) = saveDirectory s'
         /\ disk (after op st) = disk s').
  { destruct Hshape as [[-> ->]|(s & r & s' & Hs & Hd & Hdir & -> & ->)]; [by repeat split|].
    destruct (saveMetadata_disk_frame _ _ _ Hs) as (Hf & Hsd & Hn).
    rewrite Hd in Hf, Hn. rewrite Hdir in Hsd. by repeat split. }
  destruct op as [f i ts|f|f ts|c| |f|]; cbn [after].
  - destruct (fs_readFile f st) as [[content|e|] st1] eqn:Hr.
    + rewrite (registerSaveFile_readable _ _ _ _ _ _ Hr). cbv zeta.
      match goal with |- context [saveMetadata ?s] =>
        destruct (saveMetadata s) as [r s'] eqn:Hs end.
      right. do 3 eexists. split; [exact Hs|]. split; [reflexivity|]. split; [reflexivity|].
      by destruct r as [[]|?|].
    + rewrite (registerSaveFile_unreadable _ _ _ _ _ _ Hr). by left.
    + by apply fs_readFile_inv in Hr as [_ ?].
  - unfold unregisterSaveFile, try_catch. cbv [bind this_metadata set_metadata].
    destruct (saves_get (metadata st) f); [|by left].
    match goal with |- context [saveMetadata ?s] =>
      destruct (saveMetadata s) as [r s'] eqn:Hs end.
    right. do 3 eexists. split; [exact Hs|]. split; [reflexivity|]. split; [reflexivity|].
    pose proof (saveMetadata_frame _ _ _ Hs) as (_ & _ & _ & Hr).
    by destruct Hr as [->|[e ->]].
  - unfold recordLoadOperation, try_catch.
    cbv [bind update_metadata this_metadata set_metadata].
    match goal with |- context [saveMetadata ?s] =>
      destruct (saveMetadata s) as [r s'] eqn:Hs end.
    right. do 3 eexists. split; [exact Hs|]. split; [reflexivity|]. split; [reflexivity|].
    pose proof (saveMetadata_frame _ _ _ Hs) as (_ & _ & _ & Hr).
    by destruct Hr as [->|[e ->]].
  - rewrite updateConfiguration_eq.
    destruct (saveMetadata _) as [r s'] eqn:Hs.
    right. do 3 eexists. split; [exact Hs|]. split; [reflexivity|]. split; [reflexivity|].
    by destruct r as [[]|?|].
  - rewrite cleanup_eq. destruct (fault_of _ _); [by left|]. cbv zeta.
    destruct (0 <? _); [|by left].
    destruct (saveMetadata _) as [r s'] eqn:Hs.
    right. do 3 eexists. split; [exact Hs|]. split; [reflexivity|]. split; [reflexivity|].
    by destruct r as [[]|?|].
  - destruct (validate_same_world f st) as (_ & -> & ->). by left.
  - destruct (validateAll_eq st) as (vs & st1 & Hrun & (_ & Hd & Hdir) & _).
    rewrite Hrun. cbn [snd]. by left.
Qed.

(** * Checks of the further runtime models against known values *)

Example stringify_flat_has_no_white_space :
  stringify_flat (JArr [JNum 1; JArr []; JObj []; JBool false; JNull; JNum (-20)])
  = "[1,[],{},false,null,-20]".
Proof. reflexivity. Qed.

Example stringify_flat_object :
  stringify_flat (JObj [("a", JNum 1); ("b", JArr [JBool true])])
  = "{" +:+ String dquote ("a" +:+ String dquote (":1," +:+ String dquote ("b"
        +:+ String dquote ":[true]}"))).
Proof. reflexivity. Qed.

Example array_sort_is_stable :
  array_sort (fun a b : string * Z => snd b - snd a)
    [("a", 1); ("b", 2); ("c", 1); ("d", 2)]
  = [("b", 2); ("d", 2); ("a", 1); ("c", 1)].
Proof. reflexivity. Qed.

Example getAllSaveFiles_of_the_archive :
  map Entry.filename (array_sort by_lastModified (object_values (metadata archive2)))
  = ["backup_a.sav"; "a.sav"].
Proof. vm_compute. reflexivity. Qed.

(** A file named [constructor] that was never registered: the lookups find
    the value [Object.prototype] has under that name.  The validation reads
    the file and answers a checksum mismatch, not the untracked verdict;
    [getSaveFileMetadata] does not answer null; [unregisterSaveFile]
    persists the record, which it leaves as it is. *)
Example lookups_of_an_inherited_name :
  saves (metadata named0) !! "constructor" = None
  /\ fst (validateSaveFileIntegrity "constructor" named0)
     = Ok (inherited_verdict "constructor" "x")
  /\ journal (snd (validateSaveFileIntegrity "constructor" named0))
     = [ReadFile "constructor"; Access "constructor"]
  /\ fst (getSaveFileMetadata "constructor" named0) = Ok (Some Inherited)
  /\ metadata (after (UnregisterSaveFile "constructor") named0) = metadata named0
  /\ persisted (after (UnregisterSaveFile "constructor") named0)
     = Some (JSON.stringify (toJson (metadata named0)))
  /\ console (after (UnregisterSaveFile "constructor") named0)
     = [(LOG, "Save file unregistered: constructor"); (LOG, "Metadata saved successfully")].
Proof. conjuncts; vm_compute; reflexivity. Qed.
